(** * multi-search: the credit ledger, the search strategies and the
      lifecycle supervisor

    A shallow embedding of [src/core/credits] (the [CreditManager] class and
    the [CreditStateProvider] interface it persists through), together with
    models of the strategy executor and of the container supervisor, and the
    properties of them that the specification states.

    Conventions of the embedding.
    - A JavaScript [number] is modelled as [Z]: quotas, costs and usage
      counters are integers, on which the arithmetic of the source is exact
      (below 2^53).
    - The object [CreditState], used as a dictionary from engine ids to usage
      records, is a [gmap string UsageRecord] of the records the object has
      of its own. A read [this.state[engineId]] that finds no own record is
      [undefined] only for a name that the object does not inherit from
      [Object.prototype]; [inherited] tells the names apart, and every
      property that rests on a missing record assumes a name that is not
      inherited.
    - The [Map<EngineId, EngineConfig>] of the manager is an association list
      in insertion order with the update discipline of [Map.prototype.set].
    - A method of a mutable object that may throw is a function from the
      object to an outcome and the object afterwards: the mutations made
      before a [throw] are kept.
    - The persistence provider stores snapshots by value, as the file backed
      provider of the interface's documentation does. *)

From Stdlib Require Import ZArith String List.
From stdpp Require Import gmap strings list fin_maps.
Import ListNotations.

Local Open Scope Z_scope.

(** ** Outcomes and the state-and-exception monad *)

Definition EngineId := string.

(** The [Error]s thrown by the ledger, and the failure of a persistence
    provider (whose message the provider chooses). *)
Inductive Error : Type :=
  | UnknownEngine (engineId : EngineId)
  | NoCreditRecord (engineId : EngineId)
  | PersistenceError (message : string).

Inductive Result (A : Type) : Type :=
  | Ok (value : A)
  | Throw (error : Error).
Arguments Ok {A} value.
Arguments Throw {A} error.

Definition M (S A : Type) : Type := S -> Result A * S.

Definition ret {S A} (a : A) : M S A := fun s => (Ok a, s).

Definition throw {S A} (e : Error) : M S A := fun s => (Throw e, s).

Definition bind {S A B} (c : M S A) (k : A -> M S B) : M S B :=
  fun s =>
    match c s with
    | (Ok a, s') => k a s'
    | (Throw e, s') => (Throw e, s')
    end.

Definition get {S} : M S S := fun s => (Ok s, s).

Definition put {S} (s : S) : M S unit := fun _ => (Ok tt, s).

Notation "'do' x <- c ; k" := (bind c (fun x => k))
  (at level 10, x name, c at level 100, k at level 200).
Notation "c ;; k" := (bind c (fun _ => k))
  (at level 100, k at level 200, right associativity).

(** ** Data model *)

(** The fields of [EngineConfig] that the credit manager reads. *)
Record EngineConfig : Type := {
  id : EngineId;
  monthlyQuota : Z;
  creditCostPerSearch : Z;
}.

(** One entry of [CreditState]. *)
Record UsageRecord : Type := {
  used : Z;
  lastReset : string;
}.

Abbreviation CreditState := (gmap string UsageRecord).

Record CreditSnapshot : Type := {
  engineId : EngineId;
  quota : Z;
  snapshot_used : Z;
  remaining : Z;
  isExhausted : bool;
}.

(** ** The JavaScript [Map] of engines *)

Abbreviation EngineMap := (list (EngineId * EngineConfig)).

Fixpoint Map_get (m : EngineMap) (k : EngineId) : option EngineConfig :=
  match m with
  | [] => None
  | (k', v) :: rest => if String.eqb k' k then Some v else Map_get rest k
  end.

(** [Map.prototype.set]: an existing key keeps its position. *)
Fixpoint Map_set (m : EngineMap) (k : EngineId) (v : EngineConfig) : EngineMap :=
  match m with
  | [] => [(k, v)]
  | (k', v') :: rest =>
      if String.eqb k' k then (k', v) :: rest else (k', v') :: Map_set rest k v
  end.

(** [new Map(entries)]. *)
Definition Map_new (entries : list (EngineId * EngineConfig)) : EngineMap :=
  fold_left (fun m e => Map_set m (fst e) (snd e)) entries [].

Definition Map_keys (m : EngineMap) : list EngineId := map fst m.

(** The property names that a plain object, such as the one that holds the
    [CreditState] or the [strategies] of the strategy factory, inherits from
    [Object.prototype]. Under such a name [object[name]] is not [undefined]
    and [name in object] holds even when the object has no property of its
    own under it. *)
Definition Object_prototype_names : list string :=
  ["constructor"; "hasOwnProperty"; "isPrototypeOf"; "propertyIsEnumerable";
   "toLocaleString"; "toString"; "valueOf"; "__proto__";
   "__defineGetter__"; "__defineSetter__";
   "__lookupGetter__"; "__lookupSetter__"]%string.

Definition inherited (name : string) : bool :=
  existsb (String.eqb name) Object_prototype_names.

(** No configured engine goes by an inherited name. *)
Definition plain_engine_ids (engines : EngineMap) : bool :=
  forallb (fun engineId => negb (inherited engineId)) (Map_keys engines).

(** The names that are written as an integer: [0], or digits that do not
    start with [0]. The array indices are among them, and [Object.keys]
    lists the array indices of an object first, in ascending order,
    whenever they were added. *)
Definition is_digit (c : Ascii.ascii) : bool :=
  (48 <=? Ascii.nat_of_ascii c)%nat && (Ascii.nat_of_ascii c <=? 57)%nat.

Fixpoint all_digits (s : string) : bool :=
  match s with
  | EmptyString => true
  | String c rest => is_digit c && all_digits rest
  end.

Definition integer_like (name : string) : bool :=
  match name with
  | EmptyString => false
  | String c rest =>
      is_digit c && all_digits rest
      && (negb (Ascii.eqb c (Ascii.ascii_of_nat 48)) || String.eqb rest EmptyString)
  end.

(** ** The persistence provider *)

(** The interface [CreditStateProvider]: each method runs on the provider's
    own state and may throw. *)
Class CreditStateProvider (P : Type) : Type := {
  loadState : M P CreditState;
  saveState : CreditState -> M P unit;
  stateExists : M P bool;
}.

(** [MemoryCreditStateProvider] of the interface's documentation. *)
Record MemoryCreditStateProvider : Type := {
  memory_state : CreditState;
}.

#[export] Instance MemoryProvider : CreditStateProvider MemoryCreditStateProvider := {
  loadState := fun p => (Ok (memory_state p), p);
  saveState := fun st _ => (Ok tt, {| memory_state := st |});
  stateExists := fun p => (Ok (bool_decide (size (memory_state p) ≠ 0%nat)), p);
}.

(** A provider that records every snapshot it is asked to save and can be
    made to fail: [failing] makes [loadState] and [saveState] throw. *)
Record RecordingProvider : Type := {
  stored : CreditState;
  saved : list CreditState;
  failing : bool;
}.

#[export] Instance RecordingProviderOps : CreditStateProvider RecordingProvider := {
  loadState := fun p =>
    if failing p then (Throw (PersistenceError "load"%string), p) else (Ok (stored p), p);
  saveState := fun st p =>
    if failing p then (Throw (PersistenceError "save"%string), p)
    else (Ok tt, {| stored := st; saved := saved p ++ [st]; failing := false |});
  stateExists := fun p => (Ok (bool_decide (size (stored p) ≠ 0%nat)), p);
}.

(** A provider keeps what it saves when a successful [saveState] is followed
    by a [loadState] that returns the saved snapshot and leaves the provider
    as it is. *)
Definition keeps_saved (P : Type) `{CreditStateProvider P} : Prop :=
  forall (st : CreditState) (p p' : P),
    saveState st p = (Ok tt, p') -> loadState p' = (Ok st, p').

(** ** The credit manager *)

Record CreditManager (P : Type) : Type := {
  engines : EngineMap;
  state : CreditState;
  stateProvider : P;
}.
Arguments engines {P} _.
Arguments state {P} _.
Arguments stateProvider {P} _.

Section CreditManager.

Context {P : Type} `{CreditStateProvider P}.

(** [new CreditManager(engines, stateProvider)]. *)
Definition newCreditManager (configs : list EngineConfig) (provider : P)
  : CreditManager P :=
  {| engines := Map_new (map (fun e => (id e, e)) configs);
     state := ∅;
     stateProvider := provider |}.

Definition set_state (st : CreditState) : M (CreditManager P) unit :=
  fun m =>
    (Ok tt, {| engines := engines m; state := st; stateProvider := stateProvider m |}).

(** A call of a provider method through the field [stateProvider]. *)
Definition on_provider {A} (c : M P A) : M (CreditManager P) A :=
  fun m =>
    let (r, p) := c (stateProvider m) in
    (r, {| engines := engines m; state := state m; stateProvider := p |}).

(** [s.slice(0, 7)]: the [YYYY-MM] prefix of an ISO timestamp. *)
Definition slice_0_7 (s : string) : string := substring 0 7 s.

(** The methods below read the record of an engine by
    [this.state[engineId]]. The lookup [st !! engineId] is that read for
    every id that has a record of its own, and for an id without one as
    long as the id is not [inherited]; for an inherited name without a
    record of its own the read gives the inherited property, and the source
    leaves the branches written here. The properties that rest on a [None]
    branch therefore assume that the id is not inherited. *)

(** The body of the loop of [resetIfNeeded] for one engine; [now] is
    [now.toISOString()]. *)
Definition resetEngine (now : string) (st : CreditState) (engineId : EngineId)
  : CreditState :=
  match st !! engineId with
  | None => <[engineId := {| used := 0; lastReset := now |}]> st
  | Some record =>
      if negb (String.eqb (slice_0_7 (lastReset record)) (slice_0_7 now))
      then <[engineId := {| used := 0; lastReset := now |}]> st
      else st
  end.

Definition resetIfNeeded (now : string) : M (CreditManager P) unit :=
  do m <- get;
  let st := fold_left (resetEngine now) (Map_keys (engines m)) (state m) in
  set_state st ;;
  on_provider (saveState st).

Definition initialize (now : string) : M (CreditManager P) unit :=
  do st <- on_provider loadState;
  set_state st ;;
  resetIfNeeded now.

Definition charge (engineId : EngineId) : M (CreditManager P) bool :=
  do m <- get;
  match Map_get (engines m) engineId with
  | None => throw (UnknownEngine engineId)
  | Some config =>
      match state m !! engineId with
      | None => throw (NoCreditRecord engineId)
      | Some record =>
          if used record + creditCostPerSearch config >? monthlyQuota config
          then ret false
          else
            set_state
              (<[engineId := {| used := used record + creditCostPerSearch config;
                                lastReset := lastReset record |}]> (state m)) ;;
            ret true
      end
  end.

Definition chargeAndSave (engineId : EngineId) : M (CreditManager P) bool :=
  do result <- charge engineId;
  (if result : bool
   then do m <- get; on_provider (saveState (state m))
   else ret tt) ;;
  ret result.

Definition hasSufficientCredits (engineId : EngineId) : M (CreditManager P) bool :=
  do m <- get;
  match Map_get (engines m) engineId with
  | None => ret false
  | Some config =>
      match state m !! engineId with
      | None => ret true
      | Some record =>
          ret (used record + creditCostPerSearch config <=? monthlyQuota config)
      end
  end.

(** [now] is the reading of the clock that fills the record made up for an
    engine without one. *)
Definition getSnapshot (now : string) (engineId : EngineId)
  : M (CreditManager P) CreditSnapshot :=
  do m <- get;
  match Map_get (engines m) engineId with
  | None => throw (UnknownEngine engineId)
  | Some config =>
      let record :=
        default {| used := 0; lastReset := now |} (state m !! engineId) in
      let remaining := Z.max 0 (monthlyQuota config - used record) in
      ret {| engineId := engineId;
             quota := monthlyQuota config;
             snapshot_used := used record;
             remaining := remaining;
             isExhausted := remaining <? creditCostPerSearch config |}
  end.

Definition saveState_ : M (CreditManager P) unit :=
  do m <- get; on_provider (saveState (state m)).

Fixpoint mapM {A B} (f : A -> M (CreditManager P) B) (l : list A)
  : M (CreditManager P) (list B) :=
  match l with
  | [] => ret []
  | a :: rest => do b <- f a; do bs <- mapM f rest; ret (b :: bs)
  end.

Definition listSnapshots (now : string) : M (CreditManager P) (list CreditSnapshot) :=
  do m <- get; mapM (getSnapshot now) (Map_keys (engines m)).

End CreditManager.

(** The text of the [Error] that the ledger throws. *)
Definition Error_message (e : Error) : string :=
  match e with
  | UnknownEngine engineId => "Unknown engine: " +:+ engineId
  | NoCreditRecord engineId => "No credit record for engine: " +:+ engineId
  | PersistenceError message => message
  end.

(** The record that one pass of the loop of [resetIfNeeded] leaves for an
    engine, from the record found ([None] when there is none). *)
Definition resetRecord (now : string) (found : option UsageRecord) : UsageRecord :=
  match found with
  | None => {| used := 0; lastReset := now |}
  | Some record =>
      if negb (String.eqb (slice_0_7 (lastReset record)) (slice_0_7 now))
      then {| used := 0; lastReset := now |}
      else record
  end.

(** ** Sample configuration

    One engine with a monthly quota of 10 credits and a cost of 3 credits a
    search, its usage record, and a manager over each of the two providers. *)

Definition sample_config : EngineConfig :=
  {| id := "tavily"; monthlyQuota := 10; creditCostPerSearch := 3 |}.

Definition sample_record (n : Z) (since : string) : UsageRecord :=
  {| used := n; lastReset := since |}.

Definition sample_state (n : Z) (since : string) : CreditState :=
  {[ "tavily"%string := sample_record n since ]}.

Definition sample_manager (n : Z) : CreditManager MemoryCreditStateProvider :=
  {| engines := Map_new [("tavily"%string, sample_config)];
     state := sample_state n "2024-01-15T10:30:00.000Z";
     stateProvider := {| memory_state := ∅ |} |}.

Definition sample_recording (n : Z) (fails : bool) : CreditManager RecordingProvider :=
  {| engines := Map_new [("tavily"%string, sample_config)];
     state := sample_state n "2024-01-15T10:30:00.000Z";
     stateProvider := {| stored := ∅; saved := []; failing := fails |} |}.

(** ** Search strategies *)

Module Strategy.

(** [SearchFailureReason], as the tests of [core/types] list it. *)
Inductive SearchFailureReason : Type :=
  | network_error
  | api_error
  | no_results
  | low_credit
  | config_error
  | no_provider
  | provider_unavailable
  | unknown.

Definition reason_string (r : SearchFailureReason) : string :=
  match r with
  | network_error => "network_error"
  | api_error => "api_error"
  | no_results => "no_results"
  | low_credit => "low_credit"
  | config_error => "config_error"
  | no_provider => "no_provider"
  | provider_unavailable => "provider_unavailable"
  | unknown => "unknown"
  end.

(** [EngineAttempt] of [ISearchStrategy.ts]; [reason] is optional. *)
Record EngineAttempt : Type := {
  engineId : EngineId;
  success : bool;
  reason : option string;
}.

(** [StrategyOptions] of [StrategyFactory.ts]: every field is optional. *)
Record RetryOptions : Type := {
  retry_attempts : option nat;
  retry_delay : option Z;
}.

Record StrategyOptions : Type := {
  timeout : option Z;
  maxConcurrent : option Z;
  retry : option RetryOptions;
}.

(** The options left out, and the documented default of [retry.attempts]. *)
Definition defaultOptions : StrategyOptions :=
  {| timeout := None; maxConcurrent := None; retry := None |}.

Definition retryAttempts (options : StrategyOptions) : nat :=
  default 2%nat (retry options ≫= retry_attempts).

(** The two strategies that [StrategyFactory] registers at the start, under
    the names [all] and [first-success]. *)
Inductive StrategyName : Type :=
  | AllProviders
  | FirstSuccess.

Section Execute.

(** [SearchResultItem]: the strategies only collect items. *)
Context {Item : Type}.
Context {P : Type} `{CreditStateProvider P}.

(** [StrategyResult] of [ISearchStrategy.ts]. *)
Record StrategyResult : Type := {
  results : list Item;
  attempts : list EngineAttempt;
}.

(** Modelled from the spec: the back-end search capability of section 6,
    whose providers are reached through a registry that is not among the
    sources. One call of [search] comes to the items of its response, or to
    the reason of the error it fails with (a timeout included). *)
Inductive SearchOutcome : Type :=
  | Found (items : list Item)
  | Failed (why : SearchFailureReason).

(** [StrategyContext] of [ISearchStrategy.ts]: the registry and the credit
    manager. A back-end of the registry is the outcomes of its successive
    calls; [issued] logs the search calls made, in order. *)
Record StrategyContext : Type := {
  registry : EngineId -> nat -> SearchOutcome;
  issued : list EngineId;
  credits : CreditManager P;
}.

Definition on_credits {A} (c : M (CreditManager P) A) : M StrategyContext A :=
  fun ctx =>
    let (r, m) := c (credits ctx) in
    (r, {| registry := registry ctx; issued := issued ctx; credits := m |}).

Definition calls_to (engineId : EngineId) (log : list EngineId) : nat :=
  length (List.filter (fun i => String.eqb i engineId) log).

(** Modelled from the spec: one call of [search] on the back-end
    [engineId], looked up in the registry. *)
Definition search (engineId : EngineId) : M StrategyContext SearchOutcome :=
  fun ctx =>
    (Ok (registry ctx engineId (calls_to engineId (issued ctx))),
     {| registry := registry ctx;
        issued := issued ctx ++ [engineId];
        credits := credits ctx |}).

(** Modelled from the spec: a response with no item counts as the failure
    [no_results] (section 4.3: a failure is a timeout, a thrown error, or an
    empty result). *)
Definition classify (outcome : SearchOutcome) : list Item + SearchFailureReason :=
  match outcome with
  | Found [] => inr no_results
  | Found items => inl items
  | Failed why => inr why
  end.

(** Modelled from the spec: the call of one back-end under the retry
    policy of section 4.3, whose code ([AllProvidersStrategy.ts],
    [FirstSuccessStrategy.ts]) is not among the sources. After a failure
    the call is repeated while retries are left, and the reason of the
    last failure is the one reported. *)
Fixpoint searchWithRetry (engineId : EngineId) (retries : nat)
  : M StrategyContext (list Item + SearchFailureReason) :=
  do outcome <- search engineId;
  match classify outcome, retries with
  | inl items, _ => ret (inl items)
  | inr why, S fewer => searchWithRetry engineId fewer
  | inr why, O => ret (inr why)
  end.

(** Modelled from the spec: the shared contract of
    [ISearchStrategy.execute] of section 4.3, run one back-end at a time
    in the order of [engineIds]; the two strategy classes are not among
    the sources. A back-end without sufficient credits is logged as
    [low_credit] and skipped; otherwise it is called, and on success it
    is charged through [chargeAndSave], logged as a success and its items
    are appended; on failure it is logged with the reason.
    [FirstSuccess] stops at the first success, [AllProviders] goes
    through every back-end. *)
Fixpoint run (strategy : StrategyName) (options : StrategyOptions)
    (engineIds : list EngineId) (acc : StrategyResult)
  : M StrategyContext StrategyResult :=
  match engineIds with
  | [] => ret acc
  | engineId :: rest =>
      do sufficient <- on_credits (hasSufficientCredits engineId);
      if negb sufficient
      then
        run strategy options rest
          {| results := results acc;
             attempts := attempts acc ++
               [{| engineId := engineId; success := false;
                   reason := Some (reason_string low_credit) |}] |}
      else
        do response <- searchWithRetry engineId (retryAttempts options);
        match response with
        | inl items =>
            on_credits (chargeAndSave engineId) ;;
            let acc' :=
              {| results := results acc ++ items;
                 attempts := attempts acc ++
                   [{| engineId := engineId; success := true; reason := None |}] |} in
            match strategy with
            | FirstSuccess => ret acc'
            | AllProviders => run strategy options rest acc'
            end
        | inr why =>
            run strategy options rest
              {| results := results acc;
                 attempts := attempts acc ++
                   [{| engineId := engineId; success := false;
                       reason := Some (reason_string why) |}] |}
        end
  end.

Definition execute (strategy : StrategyName) (options : StrategyOptions)
    (engineIds : list EngineId) : M StrategyContext StrategyResult :=
  run strategy options engineIds {| results := []; attempts := [] |}.

(** A call that does not yield a result: an error, or no item. *)
Definition fails (outcome : SearchOutcome) : Prop :=
  match outcome with
  | Found (_ :: _) => False
  | _ => True
  end.

(** Modelled from the spec: the search calls that section 4.3 asks for
    when no call yields a result. A back-end with sufficient credits is
    called once and once more for each retry, a back-end without them is
    not called. *)
Definition callsWhenAllFail (options : StrategyOptions) (m : CreditManager P)
    (engineIds : list EngineId) : list EngineId :=
  flat_map (fun e => match fst (hasSufficientCredits e m) with
                     | Ok true => repeat e (S (retryAttempts options))
                     | _ => []
                     end)
    engineIds.

(** Modelled from the spec: what the attempt logged for [e] says when the
    calls [before] had been issued: a failure, [low_credit] for a back-end without sufficient
    credits, and otherwise the reason of the failure that the last call of
    the back-end came to. *)
Definition explains (options : StrategyOptions) (ctx : StrategyContext)
    (before : list EngineId) (e : EngineId) (a : EngineAttempt) : Prop :=
  engineId a = e
  /\ success a = false
  /\ (fst (hasSufficientCredits e (credits ctx)) = Ok false ->
      reason a = Some "low_credit"%string)
  /\ (fst (hasSufficientCredits e (credits ctx)) = Ok true ->
      exists why,
        classify (registry ctx e (calls_to e before + retryAttempts options)) = inr why
        /\ reason a = Some (reason_string why)).

End Execute.

Arguments StrategyResult : clear implicits.
Arguments SearchOutcome : clear implicits.
Arguments StrategyContext : clear implicits.
Arguments callsWhenAllFail : simpl never.

End Strategy.

(** ** The lifecycle supervisor *)

Module Supervisor.

(** Modelled from the spec: [LifecycleState] of section 3; the supervisor
    class is not among the sources. *)
Inductive LifecycleState : Type :=
  | Uninitialized
  | Starting
  | Healthy
  | Unhealthy
  | ShuttingDown
  | Stopped
  | Failed.

(** Modelled from the spec: how a call of [init()] ends for its caller. It
    resolves, the caller finding the supervisor in a state, or it fails with
    [InitializationTimeout]. *)
Inductive InitOutcome : Type :=
  | Resolved (found : LifecycleState)
  | InitializationTimeout.

Definition Caller := nat.

(** Modelled from the spec: the attempt in flight, which polls the health
    endpoint until it answers or the init timeout elapses ([autoStart]
    enabled), or verifies the current health once ([autoStart] disabled). *)
Inductive Attempt : Type :=
  | Polling
  | Verifying.

(** Modelled from the spec: the supervisor of one service. [running] is the
    status of the process, [inFlight] the attempt under way with the callers
    awaiting it, [startCommands] counts the start commands issued,
    [observed] logs how each call of [init()] ended. *)
Record Supervisor : Type := {
  autoStart : bool;
  running : bool;
  lifecycle : LifecycleState;
  inFlight : option (Attempt * list Caller);
  startCommands : nat;
  observed : list (Caller * InitOutcome);
}.

(** Modelled from the spec: what happens on the event loop. A caller
    invokes [init()], a health probe of the attempt in flight returns, or
    the init timeout elapses. *)
Inductive Event : Type :=
  | CallInit (caller : Caller)
  | Probe (healthy : bool)
  | Deadline.

Definition created (autoStart : bool) : Supervisor :=
  {| autoStart := autoStart; running := false; lifecycle := Uninitialized;
     inFlight := None; startCommands := 0; observed := [] |}.

(** Modelled from the spec: the attempt in flight ends. The state is set
    and every caller awaiting it gets the outcome of the attempt. *)
Definition settle (s : Supervisor) (waiting : list Caller)
    (next : LifecycleState) (outcome : InitOutcome) : Supervisor :=
  {| autoStart := autoStart s; running := running s; lifecycle := next;
     inFlight := None; startCommands := startCommands s;
     observed := observed s ++ map (fun c => (c, outcome)) waiting |}.

(** Modelled from the spec: [init()] of section 4.2 on the event loop; the
    class behind [ILifecycleProvider] ([dockerLifecycleManager.ts]) is not
    among the sources. A call of [init()] while an attempt is in flight
    joins that attempt. Otherwise, with [autoStart] disabled the current
    health is verified and nothing is launched; with [autoStart] enabled a
    start command is issued unless the process is already running, and the
    health endpoint is polled until it answers (state [Healthy]) or the
    init timeout elapses (state [Failed], [InitializationTimeout]). *)
Definition step (s : Supervisor) (e : Event) : Supervisor :=
  match e, inFlight s with
  | CallInit c, Some (attempt, waiting) =>
      {| autoStart := autoStart s; running := running s; lifecycle := lifecycle s;
         inFlight := Some (attempt, waiting ++ [c]);
         startCommands := startCommands s; observed := observed s |}
  | CallInit c, None =>
      if autoStart s
      then
        {| autoStart := autoStart s; running := true; lifecycle := Starting;
           inFlight := Some (Polling, [c]);
           startCommands :=
             if running s then startCommands s else S (startCommands s);
           observed := observed s |}
      else
        {| autoStart := autoStart s; running := running s; lifecycle := lifecycle s;
           inFlight := Some (Verifying, [c]);
           startCommands := startCommands s; observed := observed s |}
  | Probe true, Some (_, waiting) => settle s waiting Healthy (Resolved Healthy)
  | Probe false, Some (Polling, _) => s
  | Probe false, Some (Verifying, waiting) =>
      settle s waiting Unhealthy (Resolved Unhealthy)
  | Deadline, Some (Polling, waiting) =>
      settle s waiting Failed InitializationTimeout
  | Deadline, Some (Verifying, _) => s
  | Probe _, None => s
  | Deadline, None => s
  end.

Definition steps (events : list Event) (s : Supervisor) : Supervisor :=
  fold_left step events s.

(** The events that leave a polling attempt in flight: further calls of
    [init()] and probes that fail. *)
Definition pending (e : Event) : bool :=
  match e with
  | CallInit _ => true
  | Probe healthy => negb healthy
  | Deadline => false
  end.

(** The events that end a polling attempt, and the state and outcome they
    end it with. *)
Definition ending (e : Event) : option (LifecycleState * InitOutcome) :=
  match e with
  | Probe true => Some (Healthy, Resolved Healthy)
  | Deadline => Some (Failed, InitializationTimeout)
  | _ => None
  end.

Definition callers (events : list Event) : list Caller :=
  flat_map (fun e => match e with CallInit c => [c] | _ => [] end) events.

End Supervisor.

(** ** Sample strategy context

    Two configured engines: [tavily] (quota 10, cost 3, [n] credits used)
    and [brave] (quota 100, cost 1, nothing used). The back-end [brave]
    answers with one item, every other back-end fails with [api_error];
    in [failing_registry] every back-end fails, [brave] with an empty
    response. *)

Definition brave_config : EngineConfig :=
  {| id := "brave"; monthlyQuota := 100; creditCostPerSearch := 1 |}.

Definition sample_pair (n : Z) : CreditManager MemoryCreditStateProvider :=
  {| engines := Map_new [("tavily"%string, sample_config); ("brave"%string, brave_config)];
     state := <["brave"%string := sample_record 0 "2024-01-15T10:30:00.000Z"]>
                (sample_state n "2024-01-15T10:30:00.000Z");
     stateProvider := {| memory_state := ∅ |} |}.

Definition sample_registry (engineId : EngineId) (call : nat)
  : Strategy.SearchOutcome string :=
  if String.eqb engineId "brave"
  then Strategy.Found ["https://example.org"%string]
  else Strategy.Failed Strategy.api_error.

Definition failing_registry (engineId : EngineId) (call : nat)
  : Strategy.SearchOutcome string :=
  if String.eqb engineId "brave"
  then Strategy.Found []
  else Strategy.Failed Strategy.api_error.

Definition sample_context (n : Z)
  : Strategy.StrategyContext string MemoryCreditStateProvider :=
  {| Strategy.registry := sample_registry;
     Strategy.issued := [];
     Strategy.credits := sample_pair n |}.

Definition failing_context (n : Z)
  : Strategy.StrategyContext string MemoryCreditStateProvider :=
  {| Strategy.registry := failing_registry;
     Strategy.issued := [];
     Strategy.credits := sample_pair n |}.

(** ** Staying within the quota *)

(** Every record of a configured engine is within the quota of its engine. *)
Definition within_quota {P : Type} (m : CreditManager P) : Prop :=
  forall engineId config record,
    Map_get (engines m) engineId = Some config ->
    state m !! engineId = Some record ->
    used record <= monthlyQuota config.

(** ** JavaScript maps and thrown errors

    [JsMap V] is a [Map<string, V>], or the own properties of an object used
    as a dictionary, as the list of its entries in insertion order. For an
    object this is the order of [Object.keys] as long as no name is
    [integer_like], and a lookup is the read [object[name]] for the names
    that are not [inherited]: the properties of an object used as a
    dictionary assume such names. [Outcome A] is what a call that may throw
    an [Error] comes to: the value returned, or the message of the error. *)

Module JsMap.

Definition t (V : Type) : Type := list (string * V).

Fixpoint get {V} (m : t V) (k : string) : option V :=
  match m with
  | [] => None
  | (k', v) :: rest => if String.eqb k' k then Some v else get rest k
  end.

Definition has {V} (m : t V) (k : string) : bool :=
  match get m k with Some _ => true | None => false end.

(** [set]: the entry of an existing key is replaced where it is, a new key
    goes to the end. *)
Fixpoint set {V} (m : t V) (k : string) (v : V) : t V :=
  match m with
  | [] => [(k, v)]
  | (k', v') :: rest =>
      if String.eqb k' k then (k', v) :: rest else (k', v') :: set rest k v
  end.

(** [delete], without the boolean it returns (which is [has] before):
    no entry of the key is left. *)
Fixpoint delete {V} (m : t V) (k : string) : t V :=
  match m with
  | [] => []
  | (k', v') :: rest =>
      if String.eqb k' k then delete rest k else (k', v') :: delete rest k
  end.

Definition keys {V} (m : t V) : list string := map fst m.

Definition values {V} (m : t V) : list V := map snd m.

End JsMap.

Inductive Outcome (A : Type) : Type :=
  | Returns (value : A)
  | Throws (message : string).
Arguments Returns {A} value.
Arguments Throws {A} message.

(** The double quote, for the messages that quote a name. *)
Definition dquote : string := String (Ascii.ascii_of_nat 34) EmptyString.

(** ** The strategy factory ([StrategyFactory.ts]) *)

Module StrategyFactory.

(** The classes that can be registered: the two built-in ones and the
    classes of the caller, told apart by a tag. *)
Inductive StrategyClass : Type :=
  | AllProvidersStrategy
  | FirstSuccessStrategy
  | UserStrategy (tag : string).

(** [new StrategyClass(options)]: the instance remembers its class and the
    options it was made with; the constructor is taken to return. *)
Record Instance : Type := {
  instanceOf : StrategyClass;
  constructedWith : option Strategy.StrategyOptions;
}.

(** The module variable [strategies], a plain object: its own properties. *)
Definition StrategyMap : Type := JsMap.t StrategyClass.

(** The names for which the own properties tell what [strategies[name]],
    [name in strategies] and [Object.keys(strategies)] give: neither
    inherited from [Object.prototype] nor written as an integer. *)
Definition ordinary (name : string) : bool :=
  negb (inherited name) && negb (integer_like name).

Definition initial : StrategyMap :=
  [("all"%string, AllProvidersStrategy);
   ("first-success"%string, FirstSuccessStrategy)].

(** [Object.keys(strategies)], [strategies[strategyName]] and
    [strategyName in strategies], read off the own properties: what the
    source computes for the names that are [ordinary]. *)
Definition getAvailableStrategies (strategies : StrategyMap) : list string :=
  JsMap.keys strategies.

Definition createStrategy (strategyName : string)
    (options : option Strategy.StrategyOptions) (strategies : StrategyMap)
  : Outcome Instance :=
  match JsMap.get strategies strategyName with
  | None =>
      Throws ("Unknown strategy: " +:+ dquote +:+ strategyName +:+ dquote
              +:+ ". Available strategies: ["
              +:+ String.concat ", " (JsMap.keys strategies) +:+ "]")
  | Some StrategyClass =>
      Returns {| instanceOf := StrategyClass; constructedWith := options |}
  end.

Definition registerStrategy (name : string) (strategyClass : StrategyClass)
    (strategies : StrategyMap) : Outcome unit * StrategyMap :=
  match JsMap.get strategies name with
  | Some _ =>
      (Throws ("Strategy " +:+ dquote +:+ name +:+ dquote
               +:+ " is already registered"),
       strategies)
  | None => (Returns tt, JsMap.set strategies name strategyClass)
  end.

Definition hasStrategy (strategyName : string) (strategies : StrategyMap) : bool :=
  JsMap.has strategies strategyName.

Definition reset (strategies : StrategyMap) : StrategyMap := initial.

(** The calls that change [strategies], and a sequence of them from the
    state the module starts in. *)
Inductive Call : Type :=
  | Register (name : string) (strategyClass : StrategyClass)
  | Reset.

Definition call (strategies : StrategyMap) (c : Call) : StrategyMap :=
  match c with
  | Register name strategyClass => snd (registerStrategy name strategyClass strategies)
  | Reset => reset strategies
  end.

Definition after (calls : list Call) : StrategyMap := fold_left call calls initial.

End StrategyFactory.

(** ** The provider registry ([core/provider.ts]) *)

Module ProviderRegistry.

Section Registry.

(** A [SearchProvider] and its [id]. *)
Context {SearchProvider : Type} (providerId : SearchProvider -> EngineId).

Definition Providers : Type := JsMap.t SearchProvider.

Definition register (provider : SearchProvider) (providers : Providers)
  : Outcome unit * Providers :=
  if JsMap.has providers (providerId provider)
  then (Throws ("Provider already registered: " +:+ providerId provider), providers)
  else (Returns tt, JsMap.set providers (providerId provider) provider).

Definition get (id : EngineId) (providers : Providers) : option SearchProvider :=
  JsMap.get providers id.

Definition list_ (providers : Providers) : list SearchProvider :=
  JsMap.values providers.

Definition has (id : EngineId) (providers : Providers) : bool :=
  JsMap.has providers id.

(** Every entry of the registry is stored under the id of its provider. *)
Definition own_ids (providers : Providers) : Prop :=
  Forall (fun entry => providerId (snd entry) = fst entry) providers.

(** The registry after a sequence of [register] calls on a new registry,
    the calls that throw leaving it as it is. *)
Definition registered (calls : list SearchProvider) : Providers :=
  fold_left (fun providers provider => snd (register provider providers)) calls [].

End Registry.

End ProviderRegistry.

(** ** The plugin registry ([plugin/PluginRegistry.ts], [plugin/builtin.ts])

    The declarations of [plugin/types.ts] are not among the sources: the
    configuration, provider and container types are parameters, and a
    lifecycle hook of a plugin is given by what awaiting it comes to (it
    returns, or it throws with a message), a hook being taken not to call
    the registry itself. *)

Module PluginRegistry.

Section Plugins.

Context {Config Provider Container : Type} (configType : Config -> string).

Record PluginDefinition : Type := {
  type : string;
  displayName : string;
  description : option string;
  docsUrl : option string;
  version : option string;
  hasLifecycle : bool;
  configSchema : option (Config -> Outcome Config);
  factory : Config -> option Container -> Provider;
  onRegister : option (Outcome unit);
  onUnregister : option (Outcome unit);
}.

Record PluginRegistrationResult : Type := {
  success : bool;
  registered_type : string;
  message : option string;
  overwritten : option bool;
}.

Record PluginInfo : Type := {
  info_type : string;
  info_displayName : string;
  info_description : option string;
  info_docsUrl : option string;
  info_version : option string;
  info_hasLifecycle : bool;
  isBuiltIn : bool;
}.

(** The fields [plugins] and [builtInTypes], and what [console.warn] has
    been called with. *)
Record Registry : Type := {
  plugins : JsMap.t PluginDefinition;
  builtInTypes : gset string;
  warned : list (string * string);
}.

Definition empty : Registry :=
  {| plugins := []; builtInTypes := ∅; warned := [] |}.

Definition with_plugins (reg : Registry) (ps : JsMap.t PluginDefinition) : Registry :=
  {| plugins := ps; builtInTypes := builtInTypes reg; warned := warned reg |}.

Definition warn (reg : Registry) (text error : string) : Registry :=
  {| plugins := plugins reg; builtInTypes := builtInTypes reg;
     warned := warned reg ++ [(text, error)] |}.

Definition has (t : string) (reg : Registry) : bool := JsMap.has (plugins reg) t.

Definition get (t : string) (reg : Registry) : option PluginDefinition :=
  JsMap.get (plugins reg) t.

Definition getTypes (reg : Registry) : list string := JsMap.keys (plugins reg).

Definition size (reg : Registry) : nat := length (plugins reg).

(** [register]: [overwrite] is the option of that name, false when left
    out. *)
Definition register (plugin : PluginDefinition) (overwrite : bool) (reg : Registry)
  : PluginRegistrationResult * Registry :=
  if has (type plugin) reg && negb overwrite
  then
    ({| success := false; registered_type := type plugin;
        message := Some ("Plugin type '" +:+ type plugin
                         +:+ "' is already registered. Use overwrite option to replace.");
        overwritten := None |},
     reg)
  else
    let reg1 :=
      match get (type plugin) reg with
      | Some existing =>
          match onUnregister existing with
          | Some (Throws error) =>
              warn reg ("Error during onUnregister for plugin '" +:+ type plugin +:+ "':")
                error
          | _ => reg
          end
      | None => reg
      end in
    let reg2 := with_plugins reg1 (JsMap.set (plugins reg1) (type plugin) plugin) in
    match onRegister plugin with
    | Some (Throws error) =>
        ({| success := false; registered_type := type plugin;
            message := Some ("Plugin onRegister failed: " +:+ error);
            overwritten := None |},
         with_plugins reg2 (JsMap.delete (plugins reg2) (type plugin)))
    | _ =>
        ({| success := true; registered_type := type plugin; message := None;
            overwritten := Some (overwrite && has (type plugin) reg2) |},
         reg2)
    end.

Definition registerSync (plugin : PluginDefinition) (overwrite : bool) (reg : Registry)
  : PluginRegistrationResult * Registry :=
  if has (type plugin) reg && negb overwrite
  then
    ({| success := false; registered_type := type plugin;
        message := Some ("Plugin type '" +:+ type plugin +:+ "' is already registered.");
        overwritten := None |},
     reg)
  else
    let reg' := with_plugins reg (JsMap.set (plugins reg) (type plugin) plugin) in
    ({| success := true; registered_type := type plugin; message := None;
        overwritten := Some (overwrite && has (type plugin) reg') |},
     reg').

Definition markBuiltIn (t : string) (reg : Registry) : Registry :=
  {| plugins := plugins reg; builtInTypes := {[ t ]} ∪ builtInTypes reg;
     warned := warned reg |}.

Definition unregister (t : string) (reg : Registry) : Outcome bool * Registry :=
  match get t reg with
  | None => (Returns false, reg)
  | Some plugin =>
      match onUnregister plugin with
      | Some (Throws error) => (Throws error, reg)
      | _ =>
          (Returns true,
           {| plugins := JsMap.delete (plugins reg) t;
              builtInTypes := builtInTypes reg ∖ {[ t ]};
              warned := warned reg |})
      end
  end.

Definition info (reg : Registry) (builtInKey : string) (plugin : PluginDefinition)
  : PluginInfo :=
  {| info_type := type plugin;
     info_displayName := displayName plugin;
     info_description := description plugin;
     info_docsUrl := docsUrl plugin;
     info_version := version plugin;
     info_hasLifecycle := hasLifecycle plugin;
     isBuiltIn := bool_decide (builtInKey ∈ builtInTypes reg) |}.

Definition listPlugins (reg : Registry) : list PluginInfo :=
  map (fun plugin => info reg (type plugin) plugin) (JsMap.values (plugins reg)).

Definition getPluginInfo (t : string) (reg : Registry) : option PluginInfo :=
  match get t reg with
  | None => None
  | Some plugin => Some (info reg t plugin)
  end.

(** [createProvider]: [container] and [skipValidation] are the options of
    those names. *)
Definition createProvider (config : Config) (container : option Container)
    (skipValidation : bool) (reg : Registry) : Outcome Provider :=
  match get (configType config) reg with
  | None =>
      let joined := String.concat ", " (getTypes reg) in
      Throws ("No plugin registered for type '" +:+ configType config +:+ "'. "
              +:+ "Available types: "
              +:+ (if String.eqb joined EmptyString then "none"%string else joined))
  | Some plugin =>
      match configSchema plugin, skipValidation with
      | Some validate, false =>
          match validate config with
          | Returns validatedConfig => Returns (factory plugin validatedConfig container)
          | Throws error =>
              Throws ("Config validation failed for plugin '" +:+ configType config
                      +:+ "': " +:+ error)
          end
      | _, _ => Returns (factory plugin config container)
      end
  end.

(** [createProviders]: the first configuration that throws ends the map. *)
Fixpoint createProviders (configs : list Config) (container : option Container)
    (skipValidation : bool) (reg : Registry) : Outcome (list Provider) :=
  match configs with
  | [] => Returns []
  | config :: rest =>
      match createProvider config container skipValidation reg with
      | Throws error => Throws error
      | Returns provider =>
          match createProviders rest container skipValidation reg with
          | Throws error => Throws error
          | Returns providers => Returns (provider :: providers)
          end
      end
  end.

Definition clear (reg : Registry) : Registry :=
  let reg' :=
    fold_left
      (fun r plugin =>
         match onUnregister plugin with
         | Some (Throws error) =>
             warn r ("Error during onUnregister for plugin '" +:+ type plugin +:+ "':")
               error
         | _ => r
         end)
      (JsMap.values (plugins reg)) reg in
  {| plugins := []; builtInTypes := ∅; warned := warned reg' |}.

(** *** The built-in plugins ([plugin/builtin.ts]) *)

(** The constructors of the four provider classes. *)
Context (newTavilyProvider newBraveProvider newLinkupProvider newSearchxngProvider
         : Config -> Provider).

Definition builtIn (t name about docs : string) (lifecycle : bool)
    (new : Config -> Provider) : PluginDefinition :=
  {| type := t; displayName := name; description := Some about;
     docsUrl := Some docs; version := Some "1.0.0"%string;
     hasLifecycle := lifecycle; configSchema := None;
     factory := fun config _ => new config;
     onRegister := None; onUnregister := None |}.

Definition tavilyPlugin : PluginDefinition :=
  builtIn "tavily" "Tavily" "AI-powered search API with high-quality results"
    "https://docs.tavily.com/" false newTavilyProvider.

Definition bravePlugin : PluginDefinition :=
  builtIn "brave" "Brave Search" "Privacy-focused search engine API"
    "https://api.search.brave.com/app/documentation" false newBraveProvider.

Definition linkupPlugin : PluginDefinition :=
  builtIn "linkup" "Linkup" "Web search API with Docker support"
    "https://docs.linkup.ai/" true newLinkupProvider.

Definition searchxngPlugin : PluginDefinition :=
  builtIn "searchxng" "SearXNG (Local)"
    "Self-hosted meta search engine with Docker auto-start"
    "https://docs.searxng.org/" true newSearchxngProvider.

Definition builtInPlugins : list PluginDefinition :=
  [tavilyPlugin; bravePlugin; linkupPlugin; searchxngPlugin].

Definition registerBuiltInPlugins (reg : Registry) : Registry :=
  fold_left
    (fun r plugin =>
       let (result, r') := registerSync plugin false r in
       if success result then markBuiltIn (type plugin) r' else r')
    builtInPlugins reg.

Definition areBuiltInPluginsRegistered (reg : Registry) : bool :=
  forallb (fun plugin => has (type plugin) reg) builtInPlugins.

Definition getBuiltInPluginTypes : list string := map type builtInPlugins.

End Plugins.

End PluginRegistry.

(** ** The provider factory ([ProviderFactory], which creates providers
    through the plugin registry) *)

Module ProviderFactory.

Section Factory.

Context {Config Provider Container : Type} (configType : Config -> string).
Context (newTavilyProvider newBraveProvider newLinkupProvider newSearchxngProvider
         : Config -> Provider).

Local Abbreviation Registry := (@PluginRegistry.Registry Config Provider Container).

(** The module variable [initialized] and the static field
    [PluginRegistry.instance]. *)
Record Globals : Type := {
  initialized : bool;
  instance : option Registry;
}.

(** [PluginRegistry.getInstance()]. *)
Definition getInstance (g : Globals) : Registry :=
  match instance g with
  | Some registry => registry
  | None => PluginRegistry.empty
  end.

Definition ensurePluginsRegisteredSync (g : Globals) : Globals :=
  if initialized g
  then g
  else
    let registry := getInstance g in
    {| initialized := true;
       instance :=
         Some (if PluginRegistry.areBuiltInPluginsRegistered
                    newTavilyProvider newBraveProvider newLinkupProvider
                    newSearchxngProvider registry
               then registry
               else PluginRegistry.registerBuiltInPlugins
                      newTavilyProvider newBraveProvider newLinkupProvider
                      newSearchxngProvider registry) |}.

Definition createProvider (config : Config) (container : Container) (g : Globals)
  : Outcome Provider * Globals :=
  let g' := ensurePluginsRegisteredSync g in
  (PluginRegistry.createProvider configType config (Some container) false
     (getInstance g'),
   {| initialized := initialized g'; instance := Some (getInstance g') |}).

Definition isTypeSupported (t : string) (g : Globals) : bool * Globals :=
  let g' := ensurePluginsRegisteredSync g in
  (PluginRegistry.has t (getInstance g'),
   {| initialized := initialized g'; instance := Some (getInstance g') |}).

Definition getSupportedTypes (g : Globals) : list string * Globals :=
  let g' := ensurePluginsRegisteredSync g in
  (PluginRegistry.getTypes (getInstance g'),
   {| initialized := initialized g'; instance := Some (getInstance g') |}).

Definition reset (g : Globals) : Globals :=
  {| initialized := false; instance := instance g |}.

End Factory.

End ProviderFactory.

(** ** Sample plugins

    Configurations are pairs of a type and an id, a provider is the text
    that names its class and its id, and there is one container. *)

Definition sample_plugin (t name : string) (hook : option (Outcome unit))
  : @PluginRegistry.PluginDefinition (string * string) string unit :=
  {| PluginRegistry.type := t;
     PluginRegistry.displayName := name;
     PluginRegistry.description := None;
     PluginRegistry.docsUrl := None;
     PluginRegistry.version := None;
     PluginRegistry.hasLifecycle := false;
     PluginRegistry.configSchema := None;
     PluginRegistry.factory := fun config _ => name +:+ ":" +:+ snd config;
     PluginRegistry.onRegister := hook;
     PluginRegistry.onUnregister := hook |}.

Definition sample_plugins : @PluginRegistry.Registry (string * string) string unit :=
  PluginRegistry.markBuiltIn "tavily"
    (snd (PluginRegistry.registerSync (sample_plugin "tavily" "Tavily" None) false
            PluginRegistry.empty)).

(** ** The dependency injection container ([core/container.ts])

    A service instance is a value of [V], or [undefined]. A factory is
    given by what it does with the container it is handed: it returns an
    instance, it throws, or it resolves another service with [get] and goes
    on with the outcome of that call (which it may catch). Factories that
    bind or unbind services while they run are not covered. *)

Module Container.

Section Services.

Context {V : Type}.

(** What is thrown: an [Error] with its message, or another value. *)
Inductive Raised : Type :=
  | ErrorOf (message : string)
  | Other (what : string).

Inductive Answer (A : Type) : Type :=
  | Got (value : A)
  | Raise (raised : Raised).
Arguments Got {A} value.
Arguments Raise {A} raised.

Inductive Factory : Type :=
  | Return (instance : option V)
  | Throw (raised : Raised)
  | Resolve (id : string) (andThen : Answer (option V) -> Factory).

(** [ContainerBinding]; [cached] is [None] while it is [undefined]. *)
Record ContainerBinding : Type := {
  factory : Factory;
  singleton_ : bool;
  cached : option V;
}.

(** The fields [bindings] and [resolutionStack], a [Set] in insertion
    order. *)
Record Container : Type := {
  bindings : JsMap.t ContainerBinding;
  resolutionStack : list string;
}.

Definition new : Container := {| bindings := []; resolutionStack := [] |}.

Definition bind (id : string) (f : Factory) (c : Container) : Container :=
  {| bindings :=
       JsMap.set (bindings c) id {| factory := f; singleton_ := false; cached := None |};
     resolutionStack := resolutionStack c |}.

Definition singleton (id : string) (f : Factory) (c : Container) : Container :=
  {| bindings :=
       JsMap.set (bindings c) id {| factory := f; singleton_ := true; cached := None |};
     resolutionStack := resolutionStack c |}.

Definition has (id : string) (c : Container) : bool := JsMap.has (bindings c) id.

Definition unbind (id : string) (c : Container) : bool * Container :=
  (JsMap.has (bindings c) id,
   {| bindings := JsMap.delete (bindings c) id;
      resolutionStack := resolutionStack c |}).

Definition reset (c : Container) : Container := new.

Definition getRegisteredServices (c : Container) : list string :=
  JsMap.keys (bindings c).

Record ServiceInfo : Type := {
  info_singleton : bool;
  info_cached : bool;
  info_factory : Factory;
}.

Definition getServiceInfo (id : string) (c : Container) : option ServiceInfo :=
  match JsMap.get (bindings c) id with
  | None => None
  | Some binding =>
      Some {| info_singleton := singleton_ binding;
              info_cached := match cached binding with Some _ => true | None => false end;
              info_factory := factory binding |}
  end.

Definition on_stack (id : string) (c : Container) : bool :=
  existsb (String.eqb id) (resolutionStack c).

(** [resolutionStack.add(id)] and [resolutionStack.delete(id)]. *)
Definition push (id : string) (c : Container) : Container :=
  {| bindings := bindings c;
     resolutionStack :=
       if on_stack id c then resolutionStack c else resolutionStack c ++ [id] |}.

Definition pop (id : string) (c : Container) : Container :=
  {| bindings := bindings c;
     resolutionStack := List.filter (fun i => negb (String.eqb i id)) (resolutionStack c) |}.

(** What a container offers, whatever it has cached: each id with its
    factory and lifetime; and how many of its ids are not being resolved. *)
Definition services (c : Container) : list (string * (Factory * bool)) :=
  map (fun entry => (fst entry, (factory (snd entry), singleton_ (snd entry))))
    (bindings c).

Definition unresolved (c : Container) : nat :=
  length (List.filter (fun id => negb (on_stack id c)) (map fst (services c))).

(** [binding.cached = instance], on the binding of [id]. *)
Definition cache (id : string) (instance : option V) (c : Container) : Container :=
  match JsMap.get (bindings c) id with
  | None => c
  | Some binding =>
      {| bindings :=
           JsMap.set (bindings c) id
             {| factory := factory binding; singleton_ := singleton_ binding;
                cached := instance |};
         resolutionStack := resolutionStack c |}
  end.

(** The run of a factory on the container, [resolve] being the [get] it
    calls. *)
Fixpoint run (resolve : string -> Container -> option (Answer (option V) * Container))
    (f : Factory) (c : Container) : option (Answer (option V) * Container) :=
  match f with
  | Return instance => Some (Got instance, c)
  | Throw raised => Some (Raise raised, c)
  | Resolve id andThen =>
      match resolve id c with
      | None => None
      | Some (answer, c') => run resolve (andThen answer) c'
      end
  end.

(** [get], with a bound on the depth of the nested resolutions: [None] when
    the bound is reached. *)
Fixpoint get_within (depth : nat) (id : string) (c : Container)
  : option (Answer (option V) * Container) :=
  match depth with
  | O => None
  | S depth' =>
      if on_stack id c
      then
        Some (Raise (ErrorOf ("Circular dependency detected: "
                              +:+ String.concat " -> " (resolutionStack c ++ [id]))),
              c)
      else
        match JsMap.get (bindings c) id with
        | None =>
            Some (Raise (ErrorOf ("No binding found for '" +:+ id
                                  +:+ "'. Registered services: ["
                                  +:+ String.concat ", " (JsMap.keys (bindings c))
                                  +:+ "]")),
                  c)
        | Some binding =>
            match singleton_ binding, cached binding with
            | true, Some instance => Some (Got (Some instance), c)
            | _, _ =>
                match run (get_within depth') (factory binding) (push id c) with
                | None => None
                | Some (Got instance, c') =>
                    Some (Got instance,
                          pop id (if singleton_ binding then cache id instance c' else c'))
                | Some (Raise (ErrorOf message), c') =>
                    Some (Raise (ErrorOf ("Failed to resolve service '" +:+ id +:+ "': "
                                          +:+ message)),
                          pop id c')
                | Some (Raise (Other what), c') => Some (Raise (Other what), pop id c')
                end
            end
        end
  end.

(** [get]: the nesting cannot go deeper than there are bindings. *)
Definition get (id : string) (c : Container)
  : option (Answer (option V) * Container) :=
  get_within (S (length (bindings c))) id c.

(** A factory that resolves [id] and hands the instance to [build], letting
    an error of [get] pass. *)
Definition needs (id : string) (build : option V -> Factory) : Factory :=
  Resolve id (fun answer =>
                match answer with
                | Got instance => build instance
                | Raise raised => Throw raised
                end).

End Services.

Arguments Raised : clear implicits.
Arguments Factory : clear implicits.
Arguments ContainerBinding : clear implicits.
Arguments Container : clear implicits.
Arguments ServiceInfo : clear implicits.
Arguments Got {A} value.
Arguments Raise {A} raised.

End Container.

(** ** Sample services

    [config] is a singleton, [strategy] a transient service built from
    [config]; [ping] and [pong] need each other. *)

Definition sample_container : Container.Container string :=
  Container.bind "pong" (Container.needs "ping" Container.Return)
    (Container.bind "ping" (Container.needs "pong" Container.Return)
       (Container.bind "strategy"
          (Container.needs "config"
             (fun config =>
                Container.Return (option_map (fun c => ("strategy of " +:+ c)%string) config)))
          (Container.singleton "config" (Container.Return (Some "loaded"%string))
             Container.new))).

(** ** The items of a Tavily response ([providers/tavily.ts])

    The part of [TavilyProvider.search] that follows the request: the raw
    results are filtered and mapped to items. A field that is [null] or
    [undefined] is [None]; so is a result that is [null] or not an object.
    The declarations of [providers/types.ts] are not among the sources: the
    type of scores is a parameter. *)

Module Tavily.

Section Items.

Context {Score : Type}.

Record TavilySearchResult : Type := {
  title : option string;
  url : option string;
  content : option string;
  snippet : option string;
  score : option Score;
}.

Record SearchResultItem : Type := {
  item_title : string;
  item_url : string;
  item_snippet : string;
  item_score : option Score;
  sourceEngine : EngineId;
}.

Definition given {A} (field : option A) : bool :=
  match field with Some _ => true | None => false end.

(** The predicate of [filter]. *)
Definition kept (result : option TavilySearchResult) : bool :=
  match result with
  | None => false
  | Some r =>
      (given (title r) || given (url r))
      && (given (title r) || given (content r) || given (snippet r))
  end.

(** The function of [map], on a result that is an object. *)
Definition toItem (id : EngineId) (r : TavilySearchResult) : SearchResultItem :=
  {| item_title :=
       match title r with
       | Some t => t
       | None => match url r with Some u => u | None => "Untitled"%string end
       end;
     item_url := match url r with Some u => u | None => EmptyString end;
     item_snippet :=
       match content r with
       | Some text => text
       | None => match snippet r with Some text => text | None => EmptyString end
       end;
     item_score := score r;
     sourceEngine := id |}.

Fixpoint items (id : EngineId) (results : list (option TavilySearchResult))
  : list SearchResultItem :=
  match results with
  | [] => []
  | result :: rest =>
      match result with
      | Some r => if kept result then toItem id r :: items id rest else items id rest
      | None => items id rest
      end
  end.

End Items.

Arguments TavilySearchResult : clear implicits.
Arguments SearchResultItem : clear implicits.

End Tavily.

(** ** The logger ([core/logger.ts]) *)

Module Logger.

Inductive LogLevel : Type := debug | info | warn | error | none.

Definition LOG_LEVELS (level : LogLevel) : Z :=
  match level with
  | debug => 0
  | info => 1
  | warn => 2
  | error => 3
  | none => 4
  end.

(** [LoggerConfig], as the constructor leaves it. *)
Record Logger : Type := {
  level : LogLevel;
  prefix : option string;
  timestamp : bool;
}.

(** A string in a condition: the empty string counts as false. *)
Definition truthy (s : option string) : bool :=
  match s with
  | Some text => negb (String.eqb text EmptyString)
  | None => false
  end.

(** [new Logger(config)]; [envDEBUG] is [process.env.DEBUG]. *)
Definition new (configLevel : option LogLevel) (configPrefix : option string)
    (configTimestamp : option bool) (envDEBUG : option string) : Logger :=
  {| level := match configLevel with
              | Some l => l
              | None => if truthy envDEBUG then debug else info
              end;
     prefix := configPrefix;
     timestamp := match configTimestamp with Some t => t | None => false end |}.

Definition shouldLog (l : LogLevel) (logger : Logger) : bool :=
  LOG_LEVELS (level logger) <=? LOG_LEVELS l.

(** [format]; [now] is [new Date().toISOString()]. *)
Definition format (now : string) (message : string) (logger : Logger) : string :=
  String.concat " "
    ((if timestamp logger then [now] else [])
     ++ (if truthy (prefix logger)
         then ["[" +:+ match prefix logger with Some p => p | None => EmptyString end
               +:+ "]"]
         else [])
     ++ [message]).

(** The console: what has been written, and by which of its methods. *)
Inductive Stream : Type := console_log | console_warn | console_error.

Definition Console : Type := list (Stream * string).

Definition write (l : LogLevel) (stream : Stream) (now message : string)
    (logger : Logger) (console : Console) : Console :=
  if shouldLog l logger
  then console ++ [(stream, format now message logger)]
  else console.

Definition log_debug := write debug console_log.
Definition log_info := write info console_log.
Definition log_warn := write warn console_warn.
Definition log_error := write error console_error.

Definition child (childPrefix : string) (logger : Logger) : Logger :=
  new (Some (level logger))
    (if truthy (prefix logger)
     then Some (match prefix logger with Some p => p | None => EmptyString end
                +:+ ":" +:+ childPrefix)
     else Some childPrefix)
    (Some (timestamp logger)) None.

Definition setLevel (l : LogLevel) (logger : Logger) : Logger :=
  {| level := l; prefix := prefix logger; timestamp := timestamp logger |}.

End Logger.

(** * Properties *)

(** ** Properties of the engine map *)

Lemma Map_get_Some_keys (m : EngineMap) (k : EngineId) (v : EngineConfig) :
  Map_get m k = Some v -> k ∈ Map_keys m.
Proof.
  induction m as [|[k' v'] rest IH]; simpl; [discriminate|].
  destruct (String.eqb k' k) eqn:E.
  - apply String.eqb_eq in E. subst. intros _. left.
  - intros Hget. right. now apply IH.
Qed.

Lemma Map_get_None_keys (m : EngineMap) (k : EngineId) :
  Map_get m k = None -> k ∉ Map_keys m.
Proof.
  induction m as [|[k' v'] rest IH]; simpl.
  - intros _ Hin. inversion Hin.
  - destruct (String.eqb k' k) eqn:E; [discriminate|].
    apply String.eqb_neq in E. intros Hget Hin.
    apply elem_of_cons in Hin as [->|Hin]; [congruence|]. now apply IH.
Qed.

Lemma Map_set_get_eq (m : EngineMap) (k : EngineId) (v : EngineConfig) :
  Map_get (Map_set m k v) k = Some v.
Proof.
  induction m as [|[k' v'] rest IH]; simpl.
  - now rewrite String.eqb_refl.
  - destruct (String.eqb k' k) eqn:E; simpl; now rewrite E.
Qed.

(** ** The monthly reset *)

Lemma resetEngine_lookup_eq (now : string) (st : CreditState) (k : EngineId) :
  resetEngine now st k !! k = Some (resetRecord now (st !! k)).
Proof.
  unfold resetEngine, resetRecord.
  destruct (st !! k) as [record|] eqn:E.
  - destruct (negb _); [apply lookup_insert_eq | exact E].
  - apply lookup_insert_eq.
Qed.

Lemma resetEngine_lookup_ne (now : string) (st : CreditState) (k i : EngineId) :
  k ≠ i -> resetEngine now st k !! i = st !! i.
Proof.
  intros Hne. unfold resetEngine.
  destruct (st !! k) as [record|].
  - destruct (negb _); [now apply lookup_insert_ne | reflexivity].
  - now apply lookup_insert_ne.
Qed.

(** Within one month a record that has been through the reset is left alone
    by a later reset. *)
Lemma resetRecord_again (now1 now2 : string) (found : option UsageRecord) :
  slice_0_7 now1 = slice_0_7 now2 ->
  resetRecord now2 (Some (resetRecord now1 found)) = resetRecord now1 found.
Proof.
  intros Hmonth.
  assert (Hfresh : resetRecord now2 (Some {| used := 0; lastReset := now1 |})
                   = {| used := 0; lastReset := now1 |}).
  { simpl. rewrite Hmonth, String.eqb_refl. reflexivity. }
  destruct found as [record|]; simpl resetRecord at 2 3; [|exact Hfresh].
  destruct (String.eqb (slice_0_7 (lastReset record)) (slice_0_7 now1)) eqn:E;
    simpl negb; cbv iota; [|exact Hfresh].
  simpl. rewrite <- Hmonth, E. reflexivity.
Qed.

Lemma resetLoop_lookup (now : string) (keys : list EngineId) :
  forall (st : CreditState) (i : EngineId),
    fold_left (resetEngine now) keys st !! i
    = if decide (i ∈ keys) then Some (resetRecord now (st !! i)) else st !! i.
Proof.
  induction keys as [|k keys IH]; intros st i; simpl.
  - destruct (decide (i ∈ [])) as [Hin|_]; [inversion Hin | reflexivity].
  - rewrite IH. destruct (decide (k = i)) as [->|Hne].
    + rewrite resetEngine_lookup_eq.
      rewrite (resetRecord_again now now) by reflexivity.
      destruct (decide (i ∈ keys)), (decide (i ∈ i :: keys)) as [|Hn];
        try reflexivity; exfalso; apply Hn; left.
    + rewrite resetEngine_lookup_ne by exact Hne.
      destruct (decide (i ∈ keys)) as [Hin|Hnin],
               (decide (i ∈ k :: keys)) as [Hin'|Hnin']; try reflexivity.
      * exfalso. apply Hnin'. now right.
      * exfalso. apply elem_of_cons in Hin' as [->|Hin']; [now apply Hne | now apply Hnin].
Qed.

Lemma resetLoop_again (now1 now2 : string) (keys : list EngineId) (st : CreditState) :
  slice_0_7 now1 = slice_0_7 now2 ->
  fold_left (resetEngine now2) keys (fold_left (resetEngine now1) keys st)
  = fold_left (resetEngine now1) keys st.
Proof.
  intros Hmonth. apply map_eq. intros i.
  rewrite (resetLoop_lookup now2), !(resetLoop_lookup now1).
  repeat case_decide; try done.
  now rewrite resetRecord_again.
Qed.

(** ** Charging *)

(** C1. For a configured engine that has a usage record: when
    [used + creditCostPerSearch <= monthlyQuota], [charge] returns [true] and
    the record's [used] grows by exactly [creditCostPerSearch], nothing else
    of the manager changing; when [used + creditCostPerSearch > monthlyQuota],
    [charge] returns [false] and the manager is left as it was. *)
Theorem charge_within_quota_or_refused
    {P : Type} `{CreditStateProvider P}
    (m : CreditManager P) (engineId : EngineId)
    (config : EngineConfig) (record : UsageRecord) :
  Map_get (engines m) engineId = Some config ->
  state m !! engineId = Some record ->
  (used record + creditCostPerSearch config <= monthlyQuota config ->
   exists m',
     charge engineId m = (Ok true, m')
     /\ state m' !! engineId
        = Some {| used := used record + creditCostPerSearch config;
                  lastReset := lastReset record |}
     /\ (forall other, other ≠ engineId -> state m' !! other = state m !! other)
     /\ engines m' = engines m
     /\ stateProvider m' = stateProvider m)
  /\ (used record + creditCostPerSearch config > monthlyQuota config ->
      charge engineId m = (Ok false, m)).
Proof.
  intros Hconfig Hrecord.
  unfold charge, bind, get. rewrite Hconfig, Hrecord.
  destruct (Z.gtb_spec (used record + creditCostPerSearch config) (monthlyQuota config))
    as [Hover|Hwithin].
  - split; [lia | reflexivity].
  - split; [intros _ | lia].
    eexists. split; [reflexivity|]. simpl.
    split; [apply lookup_insert_eq|].
    split; [|split; reflexivity].
    intros other Hne. now apply lookup_insert_ne.
Qed.

Lemma charge_within_quota_or_refused_witness :
  (exists m',
     charge "tavily" (sample_manager 6) = (Ok true, m')
     /\ state m' !! "tavily"%string
        = Some {| used := 9; lastReset := "2024-01-15T10:30:00.000Z" |}
     /\ (forall other, other ≠ "tavily"%string ->
           state m' !! other = state (sample_manager 6) !! other)
     /\ engines m' = engines (sample_manager 6)
     /\ stateProvider m' = stateProvider (sample_manager 6))
  /\ charge "tavily" (sample_manager 9) = (Ok false, sample_manager 9).
Proof.
  split.
  - apply (charge_within_quota_or_refused (sample_manager 6) "tavily"
             sample_config (sample_record 6 "2024-01-15T10:30:00.000Z")
             eq_refl eq_refl).
    simpl. lia.
  - apply (charge_within_quota_or_refused (sample_manager 9) "tavily"
             sample_config (sample_record 9 "2024-01-15T10:30:00.000Z")
             eq_refl eq_refl).
    simpl. lia.
Defined.

(** ** The sufficiency check and the snapshot *)

(** C2, as the specification words it, fails: for an id outside the configured
    engines [hasSufficientCredits] answers [false] and throws nothing. *)
Lemma hasSufficientCredits_unconfigured_counterexample :
  Map_get (engines (sample_manager 0)) "ghost" = None
  /\ hasSufficientCredits "ghost" (sample_manager 0) = (Ok false, sample_manager 0)
  /\ ~ (forall (m : CreditManager MemoryCreditStateProvider) (engineId : EngineId),
          Map_get (engines m) engineId = None ->
          exists m', hasSufficientCredits engineId m = (Throw (UnknownEngine engineId), m')).
Proof.
  split; [reflexivity|]. split; [reflexivity|].
  intros Hclaim.
  destruct (Hclaim (sample_manager 0) "ghost"%string eq_refl) as [m' Hthrow].
  discriminate Hthrow.
Qed.

(** C2, amended. [hasSufficientCredits] never throws and never changes the
    manager. For an id that is not configured it returns [false]; for a
    configured engine it returns [true] when there is no usage record yet
    and the id is not a property name that the state object inherits from
    [Object.prototype], and with a record it returns [true] exactly when
    [used + creditCostPerSearch <= monthlyQuota]. *)
Theorem hasSufficientCredits_decides
    {P : Type} `{CreditStateProvider P}
    (m : CreditManager P) (engineId : EngineId) :
  (Map_get (engines m) engineId = None ->
   hasSufficientCredits engineId m = (Ok false, m))
  /\ (forall config, Map_get (engines m) engineId = Some config ->
       (inherited engineId = false ->
        state m !! engineId = None ->
        hasSufficientCredits engineId m = (Ok true, m))
       /\ (forall record, state m !! engineId = Some record ->
            exists b, hasSufficientCredits engineId m = (Ok b, m)
                      /\ (b = true <->
                          used record + creditCostPerSearch config
                          <= monthlyQuota config))).
Proof.
  unfold hasSufficientCredits, bind, get. split.
  - intros ->. reflexivity.
  - intros config ->. split.
    + intros _ ->. reflexivity.
    + intros record ->. eexists. split; [reflexivity|]. apply Z.leb_le.
Qed.

Lemma hasSufficientCredits_decides_witness :
  hasSufficientCredits "ghost" (sample_manager 0) = (Ok false, sample_manager 0)
  /\ hasSufficientCredits "tavily" (newCreditManager [sample_config] {| memory_state := ∅ |})
     = (Ok true, newCreditManager [sample_config] {| memory_state := ∅ |})
  /\ (exists b, hasSufficientCredits "tavily" (sample_manager 9) = (Ok b, sample_manager 9)
                /\ (b = true <-> 9 + 3 <= 10)).
Proof.
  split; [|split].
  - exact (proj1 (hasSufficientCredits_decides (sample_manager 0) "ghost") eq_refl).
  - exact (proj1 (proj2 (hasSufficientCredits_decides
                           (newCreditManager [sample_config] {| memory_state := ∅ |})
                           "tavily")
                    sample_config eq_refl)
             eq_refl eq_refl).
  - exact (proj2 (proj2 (hasSufficientCredits_decides (sample_manager 9) "tavily")
                    sample_config eq_refl)
             (sample_record 9 "2024-01-15T10:30:00.000Z") eq_refl).
Defined.

(** C10. For an id that is not configured, [getSnapshot] throws
    [Unknown engine: <id>] and returns no snapshot, while
    [hasSufficientCredits] on the same id returns the boolean [false] and
    throws nothing. *)
Theorem getSnapshot_throws_hasSufficientCredits_answers
    {P : Type} `{CreditStateProvider P}
    (now : string) (m : CreditManager P) (engineId : EngineId) :
  Map_get (engines m) engineId = None ->
  getSnapshot now engineId m = (Throw (UnknownEngine engineId), m)
  /\ Error_message (UnknownEngine engineId) = "Unknown engine: " +:+ engineId
  /\ hasSufficientCredits engineId m = (Ok false, m).
Proof.
  intros Hnone. unfold getSnapshot, hasSufficientCredits, bind, get.
  rewrite Hnone. repeat split.
Qed.

Lemma getSnapshot_throws_hasSufficientCredits_answers_witness :
  getSnapshot "2024-01-20T08:00:00.000Z" "ghost" (sample_manager 0)
  = (Throw (UnknownEngine "ghost"), sample_manager 0)
  /\ Error_message (UnknownEngine "ghost") = "Unknown engine: ghost"%string
  /\ hasSufficientCredits "ghost" (sample_manager 0) = (Ok false, sample_manager 0).
Proof.
  exact (getSnapshot_throws_hasSufficientCredits_answers
           "2024-01-20T08:00:00.000Z" (sample_manager 0) "ghost" eq_refl).
Defined.

(** Three charges, a snapshot and a fourth charge, in sequence. *)
Lemma three_charges_then_refusal
    {P : Type} `{CreditStateProvider P}
    (now : string) (m : CreditManager P) (engineId : EngineId)
    (config : EngineConfig) (record : UsageRecord) :
  Map_get (engines m) engineId = Some config ->
  monthlyQuota config = 10 ->
  creditCostPerSearch config = 3 ->
  state m !! engineId = Some record ->
  used record = 0 ->
  fst ((do c1 <- charge engineId;
        do c2 <- charge engineId;
        do c3 <- charge engineId;
        do snapshot <- getSnapshot now engineId;
        do c4 <- charge engineId;
        ret (c1, c2, c3, snapshot, c4)) m)
  = Ok (true, true, true,
        {| engineId := engineId; quota := 10; snapshot_used := 9;
           remaining := 1; isExhausted := true |},
        false).
Proof.
  destruct config as [cid q c], record as [u since]. simpl.
  intros Hconfig -> -> Hrecord ->.
  unfold charge, getSnapshot, set_state, bind, get, ret. simpl.
  rewrite Hconfig, Hrecord. simpl.
  repeat (progress (rewrite ?Hconfig, ?lookup_insert_eq; simpl)).
  reflexivity.
Qed.

(** C5. For a configured engine whose id is not a property name that the
    state object inherits from [Object.prototype], [getSnapshot] returns,
    without changing the manager, a snapshot with
    [remaining = max(0, quota - used)] ([used] being 0 when the engine has
    no record) and [isExhausted = (remaining < creditCostPerSearch)]. For a
    configured engine that has a record, with a quota of 10, a
    cost of 3 and nothing used, three charges in sequence succeed and leave
    [used = 9], [remaining = 1], [isExhausted = true], and a fourth charge
    returns [false]. *)
Theorem getSnapshot_remaining_and_exhaustion
    {P : Type} `{CreditStateProvider P}
    (now : string) (m : CreditManager P) (engineId' : EngineId)
    (config : EngineConfig) :
  Map_get (engines m) engineId' = Some config ->
  (inherited engineId' = false ->
   exists snapshot,
     getSnapshot now engineId' m = (Ok snapshot, m)
     /\ engineId snapshot = engineId'
     /\ quota snapshot = monthlyQuota config
     /\ snapshot_used snapshot = from_option used 0 (state m !! engineId')
     /\ remaining snapshot = Z.max 0 (quota snapshot - snapshot_used snapshot)
     /\ isExhausted snapshot = (remaining snapshot <? creditCostPerSearch config))
  /\ (forall record,
        monthlyQuota config = 10 ->
        creditCostPerSearch config = 3 ->
        state m !! engineId' = Some record ->
        used record = 0 ->
        fst ((do c1 <- charge engineId';
              do c2 <- charge engineId';
              do c3 <- charge engineId';
              do snapshot <- getSnapshot now engineId';
              do c4 <- charge engineId';
              ret (c1, c2, c3, snapshot, c4)) m)
        = Ok (true, true, true,
              {| engineId := engineId'; quota := 10; snapshot_used := 9;
                 remaining := 1; isExhausted := true |},
              false)).
Proof.
  intros Hconfig. split.
  - intros _. unfold getSnapshot, bind, get. rewrite Hconfig.
    eexists. split; [reflexivity|]. simpl.
    destruct (state m !! engineId'); simpl; repeat split.
  - intros record Hquota Hcost Hrecord Hused.
    now apply (three_charges_then_refusal now m engineId' config record).
Qed.

Lemma getSnapshot_remaining_and_exhaustion_witness :
  (exists snapshot,
     getSnapshot "2024-01-20T08:00:00.000Z" "tavily" (sample_manager 12)
     = (Ok snapshot, sample_manager 12)
     /\ engineId snapshot = "tavily"%string
     /\ quota snapshot = 10
     /\ snapshot_used snapshot = 12
     /\ remaining snapshot = Z.max 0 (quota snapshot - snapshot_used snapshot)
     /\ isExhausted snapshot = (remaining snapshot <? 3))
  /\ (exists snapshot,
        getSnapshot "2024-01-20T08:00:00.000Z" "tavily"
          (newCreditManager [sample_config] {| memory_state := ∅ |})
        = (Ok snapshot, newCreditManager [sample_config] {| memory_state := ∅ |})
        /\ engineId snapshot = "tavily"%string
        /\ quota snapshot = 10
        /\ snapshot_used snapshot = 0
        /\ remaining snapshot = Z.max 0 (quota snapshot - snapshot_used snapshot)
        /\ isExhausted snapshot = (remaining snapshot <? 3))
  /\ fst ((do c1 <- charge "tavily";
           do c2 <- charge "tavily";
           do c3 <- charge "tavily";
           do snapshot <- getSnapshot "2024-01-20T08:00:00.000Z" "tavily";
           do c4 <- charge "tavily";
           ret (c1, c2, c3, snapshot, c4)) (sample_manager 0))
     = Ok (true, true, true,
           {| engineId := "tavily"; quota := 10; snapshot_used := 9;
              remaining := 1; isExhausted := true |},
           false).
Proof.
  split; [|split].
  - exact (proj1 (getSnapshot_remaining_and_exhaustion
                    "2024-01-20T08:00:00.000Z" (sample_manager 12) "tavily"
                    sample_config eq_refl)
             eq_refl).
  - exact (proj1 (getSnapshot_remaining_and_exhaustion
                    "2024-01-20T08:00:00.000Z"
                    (newCreditManager [sample_config] {| memory_state := ∅ |}) "tavily"
                    sample_config eq_refl)
             eq_refl).
  - exact (proj2 (getSnapshot_remaining_and_exhaustion
                    "2024-01-20T08:00:00.000Z" (sample_manager 0) "tavily"
                    sample_config eq_refl)
             (sample_record 0 "2024-01-15T10:30:00.000Z")
             eq_refl eq_refl eq_refl eq_refl).
Defined.

(** ** Charging and persisting *)

Lemma charge_refusal_changes_nothing
    {P : Type} `{CreditStateProvider P}
    (m m1 : CreditManager P) (engineId : EngineId) (r : Result bool) :
  charge engineId m = (r, m1) -> r <> Ok true -> m1 = m.
Proof.
  unfold charge, bind, get.
  destruct (Map_get (engines m) engineId) as [config|]; [|now intros [= _ <-]].
  destruct (state m !! engineId) as [record|]; [|now intros [= _ <-]].
  destruct (_ >? _); [now intros [= _ <-]|].
  simpl. intros [= <- _] Hr. now contradiction Hr.
Qed.

(** C6. [chargeAndSave] runs [charge]; when [charge] returns [false] (or
    throws) nothing is charged, the provider is not called and the same
    outcome is returned; when [charge] returns [true] the whole state is
    handed to [saveState] of the provider, and [true] is returned once that
    call has returned (its exception is passed on otherwise). *)
Theorem chargeAndSave_saves_iff_charged
    {P : Type} `{CreditStateProvider P}
    (m : CreditManager P) (engineId : EngineId) :
  (forall m1, charge engineId m = (Ok false, m1) ->
     m1 = m /\ chargeAndSave engineId m = (Ok false, m))
  /\ (forall m1 r p,
        charge engineId m = (Ok true, m1) ->
        saveState (state m1) (stateProvider m1) = (r, p) ->
        chargeAndSave engineId m
        = (match r with Ok _ => Ok true | Throw e => Throw e end,
           {| engines := engines m1; state := state m1; stateProvider := p |}))
  /\ (forall e m1, charge engineId m = (Throw e, m1) ->
        m1 = m /\ chargeAndSave engineId m = (Throw e, m)).
Proof.
  split; [|split].
  - intros m1 Hcharge.
    assert (m1 = m) as -> by (eapply charge_refusal_changes_nothing; [eassumption|discriminate]).
    split; [reflexivity|]. unfold chargeAndSave, bind. now rewrite Hcharge.
  - intros m1 r p Hcharge Hsave.
    unfold chargeAndSave, bind. rewrite Hcharge. unfold get, on_provider.
    rewrite Hsave. destruct r as [[]|e]; reflexivity.
  - intros e m1 Hcharge.
    assert (m1 = m) as -> by (eapply charge_refusal_changes_nothing; [eassumption|discriminate]).
    split; [reflexivity|]. unfold chargeAndSave, bind. now rewrite Hcharge.
Qed.

Lemma chargeAndSave_saves_iff_charged_witness :
  chargeAndSave "tavily" (sample_recording 9 false)
  = (Ok false, sample_recording 9 false)
  /\ chargeAndSave "tavily" (sample_recording 6 false)
     = (Ok true,
        {| engines := engines (sample_recording 6 false);
           state := sample_state 9 "2024-01-15T10:30:00.000Z";
           stateProvider :=
             {| stored := sample_state 9 "2024-01-15T10:30:00.000Z";
                saved := [sample_state 9 "2024-01-15T10:30:00.000Z"];
                failing := false |} |})
  /\ chargeAndSave "ghost" (sample_recording 6 false)
     = (Throw (UnknownEngine "ghost"), sample_recording 6 false).
Proof.
  split; [|split].
  - exact (proj2 (proj1 (chargeAndSave_saves_iff_charged (sample_recording 9 false) "tavily")
                    (sample_recording 9 false) eq_refl)).
  - exact (proj1 (proj2 (chargeAndSave_saves_iff_charged (sample_recording 6 false) "tavily"))
             {| engines := engines (sample_recording 6 false);
                state := sample_state 9 "2024-01-15T10:30:00.000Z";
                stateProvider := stateProvider (sample_recording 6 false) |}
             (Ok tt)
             {| stored := sample_state 9 "2024-01-15T10:30:00.000Z";
                saved := [sample_state 9 "2024-01-15T10:30:00.000Z"];
                failing := false |}
             eq_refl eq_refl).
  - exact (proj2 (proj2 (proj2 (chargeAndSave_saves_iff_charged (sample_recording 6 false) "ghost"))
                    (UnknownEngine "ghost") (sample_recording 6 false) eq_refl)).
Defined.

(** On the recording provider: the log of saved snapshots grows by the state
    after the charge exactly when [chargeAndSave] returns [true]. *)
Lemma chargeAndSave_recorded_saves
    (m m' : CreditManager RecordingProvider) (engineId : EngineId) (r : Result bool) :
  failing (stateProvider m) = false ->
  chargeAndSave engineId m = (r, m') ->
  saved (stateProvider m')
  = saved (stateProvider m) ++ (if r is Ok true then [state m'] else []).
Proof.
  intros Hworks. unfold chargeAndSave, bind at 1.
  destruct (charge engineId m) as [[[|]|e] m1] eqn:Hcharge.
  - unfold bind, get, on_provider, saveState. simpl.
    assert (Hp : stateProvider m1 = stateProvider m).
    { revert Hcharge. unfold charge, bind, get.
      destruct (Map_get _ _); [|discriminate].
      destruct (state m !! engineId); [|discriminate].
      destruct (_ >? _); [discriminate|]. simpl. now intros [= <-]. }
    rewrite Hp, Hworks. simpl. now intros [= <- <-].
  - apply charge_refusal_changes_nothing in Hcharge as ->; [|discriminate].
    simpl. unfold bind, ret. intros [= <- <-]. now rewrite app_nil_r.
  - apply charge_refusal_changes_nothing in Hcharge as ->; [|discriminate].
    intros [= <- <-]. now rewrite app_nil_r.
Qed.

(** ** Initialisation and the monthly reset *)

(** What [initialize] does once [loadState] has returned [st]: the loop runs
    over the loaded state, the result becomes the manager's state and is
    handed to [saveState], whose outcome is the outcome of [initialize]. *)
Lemma initialize_loaded
    {P : Type} `{CreditStateProvider P}
    (now : string) (m : CreditManager P) (st : CreditState) (p1 : P) :
  loadState (stateProvider m) = (Ok st, p1) ->
  initialize now m
  = (let (r, p2) :=
       saveState (fold_left (resetEngine now) (Map_keys (engines m)) st) p1 in
     (r, {| engines := engines m;
            state := fold_left (resetEngine now) (Map_keys (engines m)) st;
            stateProvider := p2 |})).
Proof.
  intros Hload.
  unfold initialize, resetIfNeeded, bind, on_provider, set_state, get.
  rewrite Hload. simpl. reflexivity.
Qed.

(** C3. When no configured engine goes by a property name that the state
    object inherits from [Object.prototype], [initialize], once the provider
    has returned the persisted state, resets every configured engine whose
    record has a [lastReset] with a [YYYY-MM] prefix other than the current
    one to [used = 0] with [lastReset] the current time, keeps the records
    of the current month as they are, and hands the resulting state to
    [saveState]. *)
Theorem initialize_month_rollover
    {P : Type} `{CreditStateProvider P}
    (now : string) (m : CreditManager P) (st : CreditState) (p1 : P) :
  plain_engine_ids (engines m) = true ->
  loadState (stateProvider m) = (Ok st, p1) ->
  exists st' r p2,
    saveState st' p1 = (r, p2)
    /\ initialize now m
       = (r, {| engines := engines m; state := st'; stateProvider := p2 |})
    /\ forall engineId config record,
         Map_get (engines m) engineId = Some config ->
         st !! engineId = Some record ->
         (slice_0_7 (lastReset record) <> slice_0_7 now ->
          st' !! engineId = Some {| used := 0; lastReset := now |})
         /\ (slice_0_7 (lastReset record) = slice_0_7 now ->
             st' !! engineId = Some record).
Proof.
  intros _ Hload.
  exists (fold_left (resetEngine now) (Map_keys (engines m)) st).
  destruct (saveState (fold_left (resetEngine now) (Map_keys (engines m)) st) p1)
    as [r p2] eqn:Hsave.
  exists r, p2. split; [reflexivity|]. split.
  - rewrite (initialize_loaded now m st p1 Hload), Hsave. reflexivity.
  - intros engineId config record Hconfig Hrecord.
    rewrite resetLoop_lookup, Hrecord.
    apply Map_get_Some_keys in Hconfig.
    destruct (decide (engineId ∈ Map_keys (engines m))) as [_|Hnin]; [|contradiction].
    simpl. split; intros Hmonth.
    + apply String.eqb_neq in Hmonth. now rewrite Hmonth.
    + apply String.eqb_eq in Hmonth. now rewrite Hmonth.
Qed.

Lemma initialize_month_rollover_witness :
  let m := {| engines := Map_new [("tavily"%string, sample_config)];
              state := ∅;
              stateProvider :=
                {| memory_state := sample_state 7 "2023-12-31T23:59:59.000Z" |} |} in
  let now := "2024-01-01T00:00:00.000Z"%string in
  exists st' r p2,
    saveState st' (stateProvider m) = (r, p2)
    /\ initialize now m
       = (r, {| engines := engines m; state := st'; stateProvider := p2 |})
    /\ forall engineId config record,
         Map_get (engines m) engineId = Some config ->
         sample_state 7 "2023-12-31T23:59:59.000Z" !! engineId = Some record ->
         (slice_0_7 (lastReset record) <> slice_0_7 now ->
          st' !! engineId = Some {| used := 0; lastReset := now |})
         /\ (slice_0_7 (lastReset record) = slice_0_7 now ->
             st' !! engineId = Some record).
Proof.
  exact (initialize_month_rollover
           "2024-01-01T00:00:00.000Z"
           {| engines := Map_new [("tavily"%string, sample_config)];
              state := ∅;
              stateProvider :=
                {| memory_state := sample_state 7 "2023-12-31T23:59:59.000Z" |} |}
           (sample_state 7 "2023-12-31T23:59:59.000Z")
           {| memory_state := sample_state 7 "2023-12-31T23:59:59.000Z" |}
           eq_refl eq_refl).
Defined.

(** The run of the witness, evaluated: a record of December is reset on the
    first of January, and the reset state is what the provider holds. *)
Example initialize_new_month_run :
  initialize "2024-01-01T00:00:00.000Z"
    {| engines := Map_new [("tavily"%string, sample_config)];
       state := ∅;
       stateProvider :=
         {| memory_state := sample_state 7 "2023-12-31T23:59:59.000Z" |} |}
  = (Ok tt,
     {| engines := [("tavily"%string, sample_config)];
        state := sample_state 0 "2024-01-01T00:00:00.000Z";
        stateProvider :=
          {| memory_state := sample_state 0 "2024-01-01T00:00:00.000Z" |} |}).
Proof. vm_compute. reflexivity. Qed.

Example initialize_same_month_run :
  initialize "2024-01-31T23:59:59.000Z"
    {| engines := Map_new [("tavily"%string, sample_config)];
       state := ∅;
       stateProvider :=
         {| memory_state := sample_state 7 "2024-01-01T00:00:00.000Z" |} |}
  = (Ok tt,
     {| engines := [("tavily"%string, sample_config)];
        state := sample_state 7 "2024-01-01T00:00:00.000Z";
        stateProvider :=
          {| memory_state := sample_state 7 "2024-01-01T00:00:00.000Z" |} |}).
Proof. vm_compute. reflexivity. Qed.

(** C4. With a provider that keeps what it saves, after one [initialize]
    that returned, a second [initialize] in the same month finds the state
    the first one left, leaves the manager's engines and state as they are
    and hands that same state to [saveState]; once that call returns, the
    provider holds the snapshot it held after the first call. *)
Theorem initialize_twice_same_month
    {P : Type} `{CreditStateProvider P}
    (now1 now2 : string) (m m1 : CreditManager P) :
  keeps_saved P ->
  slice_0_7 now1 = slice_0_7 now2 ->
  initialize now1 m = (Ok tt, m1) ->
  loadState (stateProvider m1) = (Ok (state m1), stateProvider m1)
  /\ exists r p3,
       saveState (state m1) (stateProvider m1) = (r, p3)
       /\ initialize now2 m1
          = (r, {| engines := engines m1; state := state m1; stateProvider := p3 |})
       /\ (r = Ok tt -> loadState p3 = (Ok (state m1), p3)).
Proof.
  intros Hkeeps Hmonth Hfirst.
  destruct (loadState (stateProvider m)) as [[st|e] p1] eqn:Hload.
  2:{ unfold initialize, bind, on_provider in Hfirst. rewrite Hload in Hfirst.
      discriminate Hfirst. }
  rewrite (initialize_loaded now1 m st p1 Hload) in Hfirst.
  destruct (saveState (fold_left (resetEngine now1) (Map_keys (engines m)) st) p1)
    as [r1 p2] eqn:Hsave1.
  injection Hfirst as -> <-. simpl.
  pose proof (Hkeeps _ _ _ Hsave1) as Hload2.
  split; [exact Hload2|].
  destruct (saveState (fold_left (resetEngine now1) (Map_keys (engines m)) st) p2)
    as [r p3] eqn:Hsave2.
  exists r, p3. split; [reflexivity|]. split.
  - rewrite (initialize_loaded now2
               {| engines := engines m;
                  state := fold_left (resetEngine now1) (Map_keys (engines m)) st;
                  stateProvider := p2 |} _ p2 Hload2). simpl.
    rewrite (resetLoop_again now1 now2) by exact Hmonth.
    now rewrite Hsave2.
  - intros ->. exact (Hkeeps _ _ _ Hsave2).
Qed.

Lemma MemoryProvider_keeps_saved : keeps_saved MemoryCreditStateProvider.
Proof. intros st p p' [= <-]. reflexivity. Qed.

Lemma RecordingProvider_keeps_saved : keeps_saved RecordingProvider.
Proof.
  intros st p p'. simpl. destruct (failing p); [discriminate|].
  intros [= <-]. reflexivity.
Qed.

Lemma initialize_twice_same_month_witness :
  let m1 := {| engines := [("tavily"%string, sample_config)];
               state := sample_state 0 "2024-01-01T00:00:00.000Z";
               stateProvider :=
                 {| memory_state := sample_state 0 "2024-01-01T00:00:00.000Z" |} |} in
  loadState (stateProvider m1) = (Ok (state m1), stateProvider m1)
  /\ exists r p3,
       saveState (state m1) (stateProvider m1) = (r, p3)
       /\ initialize "2024-01-31T23:59:59.000Z" m1
          = (r, {| engines := engines m1; state := state m1; stateProvider := p3 |})
       /\ (r = Ok tt -> loadState p3 = (Ok (state m1), p3)).
Proof.
  exact (initialize_twice_same_month
           "2024-01-01T00:00:00.000Z" "2024-01-31T23:59:59.000Z"
           {| engines := Map_new [("tavily"%string, sample_config)];
              state := ∅;
              stateProvider :=
                {| memory_state := sample_state 7 "2023-12-31T23:59:59.000Z" |} |}
           {| engines := [("tavily"%string, sample_config)];
              state := sample_state 0 "2024-01-01T00:00:00.000Z";
              stateProvider :=
                {| memory_state := sample_state 0 "2024-01-01T00:00:00.000Z" |} |}
           MemoryProvider_keeps_saved eq_refl eq_refl).
Defined.

(** ** The supervisor: concurrent calls of [init()] *)

(** While a polling attempt is in flight, calls of [init()] and failing
    probes only add callers to it. *)
Lemma polling_stays_in_flight (events : list Supervisor.Event) :
  forall (s : Supervisor.Supervisor) (waiting : list Supervisor.Caller),
    Supervisor.inFlight s = Some (Supervisor.Polling, waiting) ->
    forallb Supervisor.pending events = true ->
    Supervisor.inFlight (Supervisor.steps events s)
    = Some (Supervisor.Polling, waiting ++ Supervisor.callers events)
    /\ Supervisor.startCommands (Supervisor.steps events s) = Supervisor.startCommands s
    /\ Supervisor.observed (Supervisor.steps events s) = Supervisor.observed s.
Proof.
  induction events as [|e events IH]; intros s waiting Hflight Hpending.
  - simpl. now rewrite app_nil_r.
  - change (Supervisor.steps (e :: events) s)
      with (Supervisor.steps events (Supervisor.step s e)).
    simpl in Hpending. apply andb_true_iff in Hpending as [He Hrest].
    destruct e as [c|[|]|]; try discriminate He.
    + destruct (IH (Supervisor.step s (Supervisor.CallInit c)) (waiting ++ [c]))
        as (Hf & Hs & Ho); [|exact Hrest|].
      * unfold Supervisor.step. now rewrite Hflight.
      * rewrite Hf, Hs, Ho. unfold Supervisor.step. rewrite Hflight. simpl.
        now rewrite <- app_assoc.
    + assert (Hsame : Supervisor.step s (Supervisor.Probe false) = s).
      { unfold Supervisor.step. now rewrite Hflight. }
      rewrite Hsame. now apply IH.
Qed.

(** C9. With [autoStart] enabled and the process not running, a call of
    [init()] followed, while its attempt is in flight, by any number of
    further calls of [init()] interleaved with failing probes, and then by
    the event that ends the attempt (a probe that succeeds, or the init
    timeout), issues exactly one start command, and every caller observes
    the outcome of that one attempt. *)
Theorem concurrent_init_coalesced
    (s : Supervisor.Supervisor) (first : Supervisor.Caller)
    (during : list Supervisor.Event) (final : Supervisor.Event)
    (next : Supervisor.LifecycleState) (outcome : Supervisor.InitOutcome) :
  Supervisor.autoStart s = true ->
  Supervisor.running s = false ->
  Supervisor.inFlight s = None ->
  forallb Supervisor.pending during = true ->
  Supervisor.ending final = Some (next, outcome) ->
  let s' := Supervisor.steps (Supervisor.CallInit first :: during ++ [final]) s in
  Supervisor.startCommands s' = S (Supervisor.startCommands s)
  /\ Supervisor.observed s'
     = Supervisor.observed s
       ++ map (fun c => (c, outcome)) (first :: Supervisor.callers during)
  /\ Supervisor.lifecycle s' = next
  /\ Supervisor.inFlight s' = None.
Proof.
  intros Hauto Hstopped Hidle Hpending Hending s'.
  set (s1 := Supervisor.step s (Supervisor.CallInit first)).
  assert (Hflight1 : Supervisor.inFlight s1 = Some (Supervisor.Polling, [first])).
  { unfold s1, Supervisor.step. now rewrite Hidle, Hauto. }
  assert (Hstart1 : Supervisor.startCommands s1 = S (Supervisor.startCommands s)).
  { unfold s1, Supervisor.step. now rewrite Hidle, Hauto, Hstopped. }
  assert (Hobs1 : Supervisor.observed s1 = Supervisor.observed s).
  { unfold s1, Supervisor.step. now rewrite Hidle, Hauto. }
  destruct (polling_stays_in_flight during s1 [first] Hflight1 Hpending)
    as (Hflight2 & Hstart2 & Hobs2).
  assert (Hs' : s' = Supervisor.step (Supervisor.steps during s1) final).
  { unfold s', Supervisor.steps. simpl. now rewrite fold_left_app. }
  rewrite Hs'. unfold Supervisor.step. rewrite Hflight2.
  destruct final as [c|[|]|]; try discriminate Hending;
    injection Hending as <- <-; simpl;
    rewrite Hstart2, Hstart1, Hobs2, Hobs1; repeat split.
Qed.

(** Two callers, a service that answers at the third probe. *)
Lemma concurrent_init_coalesced_witness :
  let s' :=
    Supervisor.steps
      (Supervisor.CallInit 1%nat
       :: [Supervisor.Probe false; Supervisor.CallInit 2%nat; Supervisor.Probe false]
       ++ [Supervisor.Probe true])
      (Supervisor.created true) in
  Supervisor.startCommands s' = 1%nat
  /\ Supervisor.observed s'
     = [] ++ map (fun c => (c, Supervisor.Resolved Supervisor.Healthy))
               (1%nat :: Supervisor.callers
                  [Supervisor.Probe false; Supervisor.CallInit 2%nat; Supervisor.Probe false])
  /\ Supervisor.lifecycle s' = Supervisor.Healthy
  /\ Supervisor.inFlight s' = None.
Proof.
  exact (concurrent_init_coalesced
           (Supervisor.created true) 1%nat
           [Supervisor.Probe false; Supervisor.CallInit 2%nat; Supervisor.Probe false]
           (Supervisor.Probe true)
           Supervisor.Healthy (Supervisor.Resolved Supervisor.Healthy)
           eq_refl eq_refl eq_refl eq_refl eq_refl).
Defined.

Example two_concurrent_inits :
  Supervisor.steps
    [Supervisor.CallInit 1%nat; Supervisor.Probe false; Supervisor.CallInit 2%nat;
     Supervisor.Probe false; Supervisor.Probe true]
    (Supervisor.created true)
  = {| Supervisor.autoStart := true; Supervisor.running := true;
       Supervisor.lifecycle := Supervisor.Healthy;
       Supervisor.inFlight := None;
       Supervisor.startCommands := 1%nat;
       Supervisor.observed :=
         [(1%nat, Supervisor.Resolved Supervisor.Healthy);
          (2%nat, Supervisor.Resolved Supervisor.Healthy)] |}.
Proof. reflexivity. Qed.

(** ** The strategies and the credit gate *)

Section StrategyProperties.

Import Strategy.

Context {Item : Type} {P : Type} `{CreditStateProvider P}.

Lemma hasSufficientCredits_readonly (m : CreditManager P) (e : EngineId) :
  exists b, hasSufficientCredits e m = (Ok b, m).
Proof.
  unfold hasSufficientCredits, bind, get.
  destruct (Map_get (engines m) e); [|now eexists].
  destruct (state m !! e); now eexists.
Qed.




Lemma on_credits_readonly {A} (c : M (CreditManager P) A) (a : A)
    (ctx : StrategyContext Item P) :
  c (credits ctx) = (Ok a, credits ctx) -> on_credits c ctx = (Ok a, ctx).
Proof. intros Hc. unfold on_credits. rewrite Hc. now destruct ctx. Qed.


Lemma calls_to_app (e : EngineId) (log more : list EngineId) :
  calls_to e (log ++ more) = (calls_to e log + calls_to e more)%nat.
Proof. unfold calls_to. now rewrite List.filter_app, length_app. Qed.


Lemma classify_fails (outcome : SearchOutcome Item) :
  fails outcome -> exists why, classify outcome = inr why.
Proof.
  destruct outcome as [[|item items]|why]; simpl; intros Hfails;
    [now eexists | contradiction | now eexists].
Qed.

(** Against a back-end all of whose calls fail, the call under the retry
    policy makes the call and every retry, and ends with the failure of the
    last of these calls. *)
Lemma searchWithRetry_fails (e : EngineId) (retries : nat) :
  forall ctx : StrategyContext Item P,
    (forall n, fails (registry ctx e n)) ->
    exists why,
      searchWithRetry e retries ctx
      = (Ok (inr why),
         {| registry := registry ctx;
            issued := issued ctx ++ repeat e (S retries);
            credits := credits ctx |})
      /\ classify (registry ctx e (calls_to e (issued ctx) + retries)) = inr why.
Proof.
  induction retries as [|retries IH]; intros ctx Hfails; simpl;
    unfold bind, search;
    destruct (classify_fails _ (Hfails (calls_to e (issued ctx)))) as [why0 Hwhy0];
    rewrite Hwhy0.
  - exists why0. split; [reflexivity|]. now rewrite Nat.add_0_r.
  - destruct (IH {| registry := registry ctx; issued := issued ctx ++ [e];
                    credits := credits ctx |} Hfails) as (why & Hrun & Hwhy).
    exists why. simpl in Hrun, Hwhy. split.
    + rewrite Hrun, <- app_assoc. reflexivity.
    + rewrite calls_to_app in Hwhy. unfold calls_to at 2 in Hwhy. simpl in Hwhy.
      rewrite String.eqb_refl in Hwhy. simpl in Hwhy.
      now replace (calls_to e (issued ctx) + S retries)%nat
        with (calls_to e (issued ctx) + 1 + retries)%nat by lia.
Qed.

(** The attempt logged for a back-end that is skipped. *)
Lemma run_nil (strategy : StrategyName) (options : StrategyOptions)
    (acc : StrategyResult Item) (ctx : StrategyContext Item P) :
  run strategy options [] acc ctx = (Ok acc, ctx).
Proof. reflexivity. Qed.



Lemma callsWhenAllFail_cons (options : StrategyOptions) (m : CreditManager P)
    (e : EngineId) (rest : list EngineId) (b : bool) :
  hasSufficientCredits e m = (Ok b, m) ->
  callsWhenAllFail options m (e :: rest)
  = (if b then repeat e (S (retryAttempts options)) else [])
    ++ callsWhenAllFail options m rest.
Proof.
  intros Hb. unfold callsWhenAllFail. simpl. rewrite Hb. simpl. now destruct b.
Qed.

(** Whatever the strategy, when every call of every back-end of the input
    fails, the run ends normally: nothing is added to the results, the
    credits are as they were, every back-end with sufficient credits has
    been called with all its retries, and one failed attempt is logged for
    each back-end, in order, with the reason of its failure. *)
Lemma run_all_fail (strategy : StrategyName) (options : StrategyOptions)
    (engineIds : list EngineId) :
  forall (acc : StrategyResult Item) (ctx : StrategyContext Item P),
    (forall e n, e ∈ engineIds -> fails (registry ctx e n)) ->
    exists new ctx',
      run strategy options engineIds acc ctx
      = (Ok {| results := results acc; attempts := attempts acc ++ new |}, ctx')
      /\ map engineId new = engineIds
      /\ Forall (fun a => success a = false
                          /\ exists why, reason a = Some (reason_string why)) new
      /\ credits ctx' = credits ctx
      /\ registry ctx' = registry ctx
      /\ issued ctx' = issued ctx ++ callsWhenAllFail options (credits ctx) engineIds
      /\ forall before e after,
           engineIds = before ++ e :: after ->
           exists a,
             new !! length before = Some a
             /\ explains options ctx
                  (issued ctx ++ callsWhenAllFail options (credits ctx) before) e a.
Proof.
  induction engineIds as [|e rest IH]; intros acc ctx Hfail.
  - exists [], ctx. rewrite run_nil, !app_nil_r. destruct acc.
    repeat split; [constructor|].
    intros [|? ?] ? ? Heq; discriminate Heq.
  - simpl. unfold bind at 1.
    destruct (hasSufficientCredits_readonly (credits ctx) e) as [b Hb].
    rewrite (on_credits_readonly _ _ _ Hb).
    destruct b; simpl.
    + unfold bind at 1.
      destruct (searchWithRetry_fails e (retryAttempts options) ctx)
        as (why & -> & Hwhy).
      { intros n. apply Hfail. left. }
      destruct (IH {| results := results acc;
                      attempts := attempts acc ++
                        [{| engineId := e; success := false;
                            reason := Some (reason_string why) |}] |}
                   {| registry := registry ctx;
                      issued := issued ctx ++ repeat e (S (retryAttempts options));
                      credits := credits ctx |})
        as (new & ctx' & -> & Hmap & Hall & Hcredits & Hregistry & Hissued & Hlog).
      { intros e' n Hin. apply Hfail. now right. }
      simpl in Hcredits, Hregistry, Hissued, Hlog.
      exists ({| engineId := e; success := false;
                 reason := Some (reason_string why) |} :: new), ctx'.
      simpl. rewrite <- app_assoc. simpl.
      split; [reflexivity|]. split; [now rewrite Hmap|]. split.
      { constructor; [|exact Hall]. simpl. split; [reflexivity|now exists why]. }
      split; [exact Hcredits|]. split; [exact Hregistry|]. split.
      { rewrite (callsWhenAllFail_cons options _ e rest true Hb), Hissued.
        now rewrite <- app_assoc. }
      intros [|e0 before] e' after Heq; simpl in Heq; injection Heq as <- Hrest.
      * eexists. split; [reflexivity|]. simpl. rewrite app_nil_r.
        split; [reflexivity|]. split; [reflexivity|]. split.
        -- rewrite Hb. discriminate.
        -- intros _. now exists why.
      * destruct (Hlog before e' after Hrest) as (a & Ha & Hexplains).
        exists a. split; [exact Ha|].
        rewrite (callsWhenAllFail_cons options _ e before true Hb), app_assoc.
        exact Hexplains.
    + destruct (IH {| results := results acc;
                      attempts := attempts acc ++
                        [{| engineId := e; success := false;
                            reason := Some "low_credit"%string |}] |} ctx)
        as (new & ctx' & -> & Hmap & Hall & Hcredits & Hregistry & Hissued & Hlog).
      { intros e' n Hin. apply Hfail. now right. }
      exists ({| engineId := e; success := false;
                 reason := Some (reason_string low_credit) |} :: new), ctx'.
      simpl. rewrite <- app_assoc. simpl.
      split; [reflexivity|]. split; [now rewrite Hmap|]. split.
      { constructor; [|exact Hall]. simpl. split; [reflexivity|now exists low_credit]. }
      split; [exact Hcredits|]. split; [exact Hregistry|]. split.
      { now rewrite (callsWhenAllFail_cons options _ e rest false Hb). }
      intros [|e0 before] e' after Heq; simpl in Heq; injection Heq as <- Hrest.
      * eexists. split; [reflexivity|]. simpl.
        split; [reflexivity|]. split; [reflexivity|]. split.
        -- reflexivity.
        -- rewrite Hb. discriminate.
      * destruct (Hlog before e' after Hrest) as (a & Ha & Hexplains).
        exists a. split; [exact Ha|].
        now rewrite (callsWhenAllFail_cons options _ e before false Hb).
Qed.

(** C8. When every call of every back-end of the input fails,
    [FirstSuccess] returns normally, with no result item and with one
    attempt for each back-end, in order, each a failure that explains
    itself: [low_credit] for a back-end without sufficient credits, which
    is not called, and for every other back-end, which is called once and
    once more for each retry, the reason of the failure that the last of
    its calls came to. Nothing is charged. *)
Theorem first_success_all_fail
    (options : StrategyOptions) (engineIds : list EngineId)
    (ctx : StrategyContext Item P) :
  (forall e n, e ∈ engineIds -> fails (registry ctx e n)) ->
  exists res ctx',
    execute FirstSuccess options engineIds ctx = (Ok res, ctx')
    /\ results res = []
    /\ map engineId (attempts res) = engineIds
    /\ Forall (fun a => success a = false
                        /\ exists why, reason a = Some (reason_string why))
              (attempts res)
    /\ credits ctx' = credits ctx
    /\ issued ctx' = issued ctx ++ callsWhenAllFail options (credits ctx) engineIds
    /\ forall before e after,
         engineIds = before ++ e :: after ->
         exists a,
           attempts res !! length before = Some a
           /\ engineId a = e
           /\ success a = false
           /\ (fst (hasSufficientCredits e (credits ctx)) = Ok false ->
               reason a = Some "low_credit"%string)
           /\ (fst (hasSufficientCredits e (credits ctx)) = Ok true ->
               exists why,
                 classify
                   (registry ctx e
                      (calls_to e
                         (issued ctx ++ callsWhenAllFail options (credits ctx) before)
                       + retryAttempts options))
                 = inr why
                 /\ reason a = Some (reason_string why)).
Proof.
  intros Hfail. unfold execute.
  destruct (run_all_fail FirstSuccess options engineIds
              {| results := []; attempts := [] |} ctx Hfail)
    as (new & ctx' & -> & Hmap & Hall & Hcredits & _ & Hissued & Hlog).
  do 2 eexists. split; [reflexivity|]. simpl.
  repeat (split; [assumption || reflexivity|]).
  intros before e after Heq.
  destruct (Hlog before e after Heq) as (a & Ha & Hexplains).
  exists a. split; [exact Ha|]. exact Hexplains.
Qed.

End StrategyProperties.


(** The run of the witness: [tavily], out of credits, is logged and skipped;
    [brave] is called once, charged one credit, and the charge is saved. *)
Example all_providers_run :
  let out :=
    Strategy.execute Strategy.AllProviders Strategy.defaultOptions
      ["tavily"%string; "brave"%string] (sample_context 9) in
  fst out
  = Ok {| Strategy.results := ["https://example.org"%string];
          Strategy.attempts :=
            [{| Strategy.engineId := "tavily"; Strategy.success := false;
                Strategy.reason := Some "low_credit"%string |};
             {| Strategy.engineId := "brave"; Strategy.success := true;
                Strategy.reason := None |}] |}
  /\ Strategy.issued (snd out) = ["brave"%string]
  /\ used <$> state (Strategy.credits (snd out)) !! "tavily"%string = Some 9
  /\ used <$> state (Strategy.credits (snd out)) !! "brave"%string = Some 1
  /\ memory_state (stateProvider (Strategy.credits (snd out)))
     = state (Strategy.credits (snd out)).
Proof. vm_compute. repeat split. Qed.

Lemma first_success_all_fail_witness :
  let ctx := failing_context 0 in
  let engineIds := ["tavily"%string; "brave"%string] in
  exists res ctx',
    Strategy.execute Strategy.FirstSuccess Strategy.defaultOptions engineIds ctx
    = (Ok res, ctx')
    /\ Strategy.results res = []
    /\ map Strategy.engineId (Strategy.attempts res) = engineIds
    /\ Forall (fun a => Strategy.success a = false
                        /\ exists why, Strategy.reason a
                                       = Some (Strategy.reason_string why))
              (Strategy.attempts res)
    /\ Strategy.credits ctx' = Strategy.credits ctx
    /\ Strategy.issued ctx'
       = Strategy.issued ctx
         ++ Strategy.callsWhenAllFail Strategy.defaultOptions (Strategy.credits ctx)
              engineIds
    /\ forall before e after,
         engineIds = before ++ e :: after ->
         exists a,
           Strategy.attempts res !! length before = Some a
           /\ Strategy.engineId a = e
           /\ Strategy.success a = false
           /\ (fst (hasSufficientCredits e (Strategy.credits ctx)) = Ok false ->
               Strategy.reason a = Some "low_credit"%string)
           /\ (fst (hasSufficientCredits e (Strategy.credits ctx)) = Ok true ->
               exists why,
                 Strategy.classify
                   (Strategy.registry ctx e
                      (Strategy.calls_to e
                         (Strategy.issued ctx
                          ++ Strategy.callsWhenAllFail Strategy.defaultOptions
                               (Strategy.credits ctx) before)
                       + Strategy.retryAttempts Strategy.defaultOptions))
                 = inr why
                 /\ Strategy.reason a = Some (Strategy.reason_string why)).
Proof.
  apply (first_success_all_fail Strategy.defaultOptions
           ["tavily"%string; "brave"%string] (failing_context 0)).
  intros e n _. simpl. unfold failing_registry.
  destruct (String.eqb e "brave"); exact I.
Defined.

(** The run of the witness: each back-end is called three times (the call
    and two retries) and logged with the reason of its failure. *)
Example first_success_all_fail_run :
  let out :=
    Strategy.execute Strategy.FirstSuccess Strategy.defaultOptions
      ["tavily"%string; "brave"%string] (failing_context 0) in
  fst out
  = Ok {| Strategy.results := [];
          Strategy.attempts :=
            [{| Strategy.engineId := "tavily"; Strategy.success := false;
                Strategy.reason := Some "api_error"%string |};
             {| Strategy.engineId := "brave"; Strategy.success := false;
                Strategy.reason := Some "no_results"%string |}] |}
  /\ Strategy.issued (snd out)
     = ["tavily"; "tavily"; "tavily"; "brave"; "brave"; "brave"]%string
  /\ Strategy.credits (snd out) = sample_pair 0.
Proof. vm_compute. repeat split. Qed.

(** [FirstSuccess] stops at its first success: the back-end after the winner
    is neither called nor logged. *)
Example first_success_stops_run :
  let out :=
    Strategy.execute Strategy.FirstSuccess Strategy.defaultOptions
      ["brave"%string; "tavily"%string] (sample_context 0) in
  fst out
  = Ok {| Strategy.results := ["https://example.org"%string];
          Strategy.attempts :=
            [{| Strategy.engineId := "brave"; Strategy.success := true;
                Strategy.reason := None |}] |}
  /\ Strategy.issued (snd out) = ["brave"%string].
Proof. vm_compute. repeat split. Qed.

(** * Further properties of the credit manager *)

Lemma Map_keys_get (m : EngineMap) (k : EngineId) :
  k ∈ Map_keys m -> exists v, Map_get m k = Some v.
Proof.
  induction m as [|[k' v'] rest IH]; simpl; intros Hin.
  - inversion Hin.
  - destruct (String.eqb k' k) eqn:E; [now eexists|].
    apply String.eqb_neq in E.
    apply elem_of_cons in Hin as [->|Hin]; [contradiction|now apply IH].
Qed.

Lemma mapM_getSnapshot
    {P : Type} `{CreditStateProvider P}
    (now : string) (m : CreditManager P) (keys : list EngineId) :
  (forall k, k ∈ keys -> exists config, Map_get (engines m) k = Some config) ->
  exists snapshots,
    mapM (getSnapshot now) keys m = (Ok snapshots, m)
    /\ map engineId snapshots = keys
    /\ Forall (fun s => getSnapshot now (engineId s) m = (Ok s, m)) snapshots.
Proof.
  induction keys as [|k keys IH]; intros Hconfigured.
  - exists []. repeat split. constructor.
  - destruct IH as (snapshots & Hrun & Hids & Hall).
    { intros k' Hin. apply Hconfigured. now right. }
    destruct (Hconfigured k) as [config Hconfig]; [left|].
    assert (Hsnap : exists s, getSnapshot now k m = (Ok s, m) /\ engineId s = k).
    { unfold getSnapshot, bind, get. rewrite Hconfig. now eexists. }
    destruct Hsnap as (s & Hs & Hk).
    exists (s :: snapshots). simpl. unfold bind at 1. rewrite Hs.
    unfold bind at 1. rewrite Hrun. simpl.
    split; [reflexivity|]. split; [now rewrite Hk, Hids|].
    constructor; [now rewrite Hk|exact Hall].
Qed.

(** X1. [listSnapshots] never throws and changes nothing: it returns one
    snapshot for each key of the engine map, in the order of the map, each
    the snapshot that [getSnapshot] returns for that engine. *)
Theorem listSnapshots_total
    {P : Type} `{CreditStateProvider P}
    (now : string) (m : CreditManager P) :
  exists snapshots,
    listSnapshots now m = (Ok snapshots, m)
    /\ map engineId snapshots = Map_keys (engines m)
    /\ Forall (fun s => getSnapshot now (engineId s) m = (Ok s, m)) snapshots.
Proof.
  unfold listSnapshots, bind, get.
  apply mapM_getSnapshot. intros k. apply Map_keys_get.
Qed.

(** X2. When no configured engine goes by a property name that the state
    object inherits from [Object.prototype], once [loadState] has returned,
    [initialize] leaves a record for every configured engine, a fresh
    [{used: 0, lastReset: now}] where the loaded state had none, so that
    [charge] of a configured engine then returns a boolean and does not
    throw. *)
Theorem initialize_gives_every_engine_a_record
    {P : Type} `{CreditStateProvider P}
    (now : string) (m : CreditManager P) (st : CreditState) (p1 : P)
    (engineId : EngineId) (config : EngineConfig) :
  plain_engine_ids (engines m) = true ->
  loadState (stateProvider m) = (Ok st, p1) ->
  Map_get (engines m) engineId = Some config ->
  let m' := snd (initialize now m) in
  (exists record, state m' !! engineId = Some record)
  /\ (st !! engineId = None ->
      state m' !! engineId = Some {| used := 0; lastReset := now |})
  /\ exists b m'', charge engineId m' = (Ok b, m'').
Proof.
  intros _ Hload Hconfig m'.
  assert (Hm' : engines m' = engines m
                /\ state m' = fold_left (resetEngine now) (Map_keys (engines m)) st).
  { unfold m'. rewrite (initialize_loaded now m st p1 Hload).
    destruct (saveState _ p1) as [r p2]. now split. }
  destruct Hm' as [Hengines Hstate].
  assert (Hrecord : state m' !! engineId = Some (resetRecord now (st !! engineId))).
  { rewrite Hstate, resetLoop_lookup.
    destruct (decide (engineId ∈ Map_keys (engines m))) as [_|Hnin]; [reflexivity|].
    exfalso. apply Hnin. eapply Map_get_Some_keys, Hconfig. }
  split; [exists (resetRecord now (st !! engineId)); exact Hrecord|]. split.
  - intros Hnone. now rewrite Hrecord, Hnone.
  - unfold charge, bind, get. rewrite Hengines, Hconfig, Hrecord.
    destruct (_ >? _); now do 2 eexists.
Qed.

Lemma initialize_gives_every_engine_a_record_witness :
  let m := {| engines := Map_new [("tavily"%string, sample_config)];
              state := ∅;
              stateProvider := {| memory_state := ∅ |} |} in
  let m' := snd (initialize "2024-01-01T00:00:00.000Z" m) in
  (exists record, state m' !! "tavily"%string = Some record)
  /\ ((∅ : CreditState) !! "tavily"%string = None ->
      state m' !! "tavily"%string
      = Some {| used := 0; lastReset := "2024-01-01T00:00:00.000Z" |})
  /\ exists b m'', charge "tavily" m' = (Ok b, m'').
Proof.
  exact (initialize_gives_every_engine_a_record
           "2024-01-01T00:00:00.000Z"
           {| engines := Map_new [("tavily"%string, sample_config)];
              state := ∅;
              stateProvider := {| memory_state := ∅ |} |}
           ∅ {| memory_state := ∅ |} "tavily" sample_config eq_refl eq_refl eq_refl).
Defined.

(** X3. When no configured engine goes by a property name that the state
    object inherits from [Object.prototype], [initialize] leaves the loaded
    entries of ids that are not configured as they are: they stay in the
    manager's state, which is the state handed back to [saveState]. *)
Theorem initialize_keeps_unconfigured_entries
    {P : Type} `{CreditStateProvider P}
    (now : string) (m : CreditManager P) (st : CreditState) (p1 : P)
    (engineId : EngineId) :
  plain_engine_ids (engines m) = true ->
  loadState (stateProvider m) = (Ok st, p1) ->
  Map_get (engines m) engineId = None ->
  exists st' r p2,
    saveState st' p1 = (r, p2)
    /\ initialize now m
       = (r, {| engines := engines m; state := st'; stateProvider := p2 |})
    /\ st' !! engineId = st !! engineId.
Proof.
  intros _ Hload Hnone.
  exists (fold_left (resetEngine now) (Map_keys (engines m)) st).
  destruct (saveState (fold_left (resetEngine now) (Map_keys (engines m)) st) p1)
    as [r p2] eqn:Hsave.
  exists r, p2. split; [reflexivity|]. split.
  - rewrite (initialize_loaded now m st p1 Hload), Hsave. reflexivity.
  - rewrite resetLoop_lookup.
    destruct (decide (engineId ∈ Map_keys (engines m))) as [Hin|_]; [|reflexivity].
    exfalso. now apply (Map_get_None_keys _ _ Hnone).
Qed.

Lemma initialize_keeps_unconfigured_entries_witness :
  let p := {| memory_state := sample_state 7 "2023-12-31T23:59:59.000Z" |} in
  let m := {| engines := Map_new [("brave"%string, brave_config)];
              state := ∅; stateProvider := p |} in
  exists st' r p2,
    saveState st' p = (r, p2)
    /\ initialize "2024-01-01T00:00:00.000Z" m
       = (r, {| engines := engines m; state := st'; stateProvider := p2 |})
    /\ st' !! "tavily"%string
       = sample_state 7 "2023-12-31T23:59:59.000Z" !! "tavily"%string.
Proof.
  exact (initialize_keeps_unconfigured_entries
           "2024-01-01T00:00:00.000Z"
           {| engines := Map_new [("brave"%string, brave_config)];
              state := ∅;
              stateProvider :=
                {| memory_state := sample_state 7 "2023-12-31T23:59:59.000Z" |} |}
           (sample_state 7 "2023-12-31T23:59:59.000Z")
           {| memory_state := sample_state 7 "2023-12-31T23:59:59.000Z" |}
           "tavily" eq_refl eq_refl eq_refl).
Defined.

(** X4. For a configured engine that has a record, [charge] returns the very
    boolean that [hasSufficientCredits] returns on the same manager. *)
Theorem hasSufficientCredits_predicts_charge
    {P : Type} `{CreditStateProvider P}
    (m : CreditManager P) (engineId : EngineId)
    (config : EngineConfig) (record : UsageRecord) :
  Map_get (engines m) engineId = Some config ->
  state m !! engineId = Some record ->
  exists b m',
    hasSufficientCredits engineId m = (Ok b, m)
    /\ charge engineId m = (Ok b, m').
Proof.
  intros Hconfig Hrecord.
  unfold hasSufficientCredits, charge, bind, get. rewrite Hconfig, Hrecord.
  rewrite Z.gtb_ltb, Z.ltb_antisym.
  destruct (_ <=? _); simpl; now do 2 eexists.
Qed.

Lemma hasSufficientCredits_predicts_charge_witness :
  exists b m',
    hasSufficientCredits "tavily" (sample_manager 6) = (Ok b, sample_manager 6)
    /\ charge "tavily" (sample_manager 6) = (Ok b, m').
Proof.
  exact (hasSufficientCredits_predicts_charge
           (sample_manager 6) "tavily" sample_config
           (sample_record 6 "2024-01-15T10:30:00.000Z") eq_refl eq_refl).
Defined.

Lemma charge_keeps_within_quota
    {P : Type} `{CreditStateProvider P}
    (m m' : CreditManager P) (engineId : EngineId) (r : Result bool) :
  within_quota m -> charge engineId m = (r, m') -> within_quota m'.
Proof.
  intros Hwithin. unfold charge, bind, get.
  destruct (Map_get (engines m) engineId) as [config|] eqn:Hconfig;
    [|now intros [= _ <-]].
  destruct (state m !! engineId) as [record|] eqn:Hrecord; [|now intros [= _ <-]].
  destruct (Z.gtb_spec (used record + creditCostPerSearch config) (monthlyQuota config))
    as [Hover|Hfits]; [now intros [= _ <-]|].
  simpl. intros [= _ <-]. intros e config' record'. simpl.
  destruct (decide (engineId = e)) as [<-|Hne].
  - rewrite Hconfig, lookup_insert_eq. intros [= <-] [= <-]. simpl. exact Hfits.
  - rewrite lookup_insert_ne by exact Hne. apply Hwithin.
Qed.

Lemma chargeAndSave_keeps_within_quota
    {P : Type} `{CreditStateProvider P}
    (m m' : CreditManager P) (engineId : EngineId) (r : Result bool) :
  within_quota m -> chargeAndSave engineId m = (r, m') -> within_quota m'.
Proof.
  intros Hwithin. unfold chargeAndSave, bind at 1.
  destruct (charge engineId m) as [[[|]|err] m1] eqn:Hcharge;
    pose proof (charge_keeps_within_quota _ _ _ _ Hwithin Hcharge) as Hwithin1.
  - unfold bind, get, on_provider.
    destruct (saveState (state m1) (stateProvider m1)) as [[[]|err] p];
      simpl; intros [= _ <-]; exact Hwithin1.
  - simpl. unfold bind, ret. now intros [= _ <-].
  - now intros [= _ <-].
Qed.

Lemma mapM_keeps {P : Type} {A B : Type}
    (f : A -> M (CreditManager P) B) (Inv : CreditManager P -> Prop) :
  (forall a m r m', Inv m -> f a m = (r, m') -> Inv m') ->
  forall (l : list A) (m : CreditManager P), Inv m -> Inv (snd (mapM f l m)).
Proof.
  intros Hstep. induction l as [|a l IH]; intros m Hinv; [exact Hinv|].
  simpl. unfold bind at 1.
  destruct (f a m) as [[b|err] m1] eqn:Hf;
    pose proof (Hstep _ _ _ _ Hinv Hf) as Hinv1; [|exact Hinv1].
  unfold bind at 1. specialize (IH m1 Hinv1).
  destruct (mapM f l m1) as [[bs|err] m2]; exact IH.
Qed.

(** X5. Charging never overspends: if every record of a configured engine is
    within its quota, it still is after any sequence of [charge] calls and
    after any sequence of [chargeAndSave] calls, whether they return [true],
    [false] or throw. *)
Theorem charges_stay_within_quota
    {P : Type} `{CreditStateProvider P}
    (m : CreditManager P) (engineIds : list EngineId) :
  within_quota m ->
  within_quota (snd (mapM charge engineIds m))
  /\ within_quota (snd (mapM chargeAndSave engineIds m)).
Proof.
  intros Hwithin. split.
  - apply mapM_keeps; [|exact Hwithin].
    intros a m0 r m' Hinv. now apply charge_keeps_within_quota.
  - apply mapM_keeps; [|exact Hwithin].
    intros a m0 r m' Hinv. now apply chargeAndSave_keeps_within_quota.
Qed.

Lemma sample_manager_within_quota : within_quota (sample_manager 6).
Proof.
  intros e config record.
  change (engines (sample_manager 6)) with [("tavily"%string, sample_config)].
  cbn [Map_get].
  destruct (String.eqb_spec "tavily" e) as [<-|Hne]; [|intros [=]].
  intros [= <-]. cbn [state sample_manager]. unfold sample_state.
  rewrite lookup_singleton_eq. intros [= <-]. simpl. lia.
Qed.

Lemma charges_stay_within_quota_witness :
  within_quota (snd (mapM charge ["tavily"; "tavily"; "ghost"; "tavily"]%string
                       (sample_manager 6)))
  /\ within_quota (snd (mapM chargeAndSave ["tavily"; "tavily"; "ghost"; "tavily"]%string
                          (sample_manager 6))).
Proof.
  exact (charges_stay_within_quota (sample_manager 6)
           ["tavily"; "tavily"; "ghost"; "tavily"]%string
           sample_manager_within_quota).
Defined.

(** X6. For a configured engine whose record is within its quota, the
    snapshot's [isExhausted] is the negation of what [hasSufficientCredits]
    returns. *)
Theorem isExhausted_negates_hasSufficientCredits
    {P : Type} `{CreditStateProvider P}
    (now : string) (m : CreditManager P) (engineId' : EngineId)
    (config : EngineConfig) (record : UsageRecord) :
  Map_get (engines m) engineId' = Some config ->
  state m !! engineId' = Some record ->
  used record <= monthlyQuota config ->
  exists snapshot b,
    getSnapshot now engineId' m = (Ok snapshot, m)
    /\ hasSufficientCredits engineId' m = (Ok b, m)
    /\ isExhausted snapshot = negb b.
Proof.
  intros Hconfig Hrecord Hwithin.
  unfold getSnapshot, hasSufficientCredits, bind, get. rewrite Hconfig, Hrecord.
  do 2 eexists. split; [reflexivity|]. split; [reflexivity|]. simpl.
  rewrite Z.max_r by lia.
  destruct (Z.ltb_spec (monthlyQuota config - used record) (creditCostPerSearch config)),
           (Z.leb_spec (used record + creditCostPerSearch config) (monthlyQuota config));
    simpl; try reflexivity; lia.
Qed.

Lemma isExhausted_negates_hasSufficientCredits_witness :
  exists snapshot b,
    getSnapshot "2024-01-20T08:00:00.000Z" "tavily" (sample_manager 9)
    = (Ok snapshot, sample_manager 9)
    /\ hasSufficientCredits "tavily" (sample_manager 9) = (Ok b, sample_manager 9)
    /\ isExhausted snapshot = negb b.
Proof.
  apply (isExhausted_negates_hasSufficientCredits
           "2024-01-20T08:00:00.000Z" (sample_manager 9) "tavily" sample_config
           (sample_record 9 "2024-01-15T10:30:00.000Z") eq_refl eq_refl).
  simpl. lia.
Defined.

(** Outside the quota the two can disagree: with a cost of 0 and more used
    than the quota, the check refuses while the snapshot is not exhausted. *)
Example isExhausted_over_quota_run :
  let m := {| engines := Map_new [("searxng"%string,
                                   {| id := "searxng"; monthlyQuota := 5;
                                      creditCostPerSearch := 0 |})];
              state := {[ "searxng"%string := sample_record 6 "2024-01-15T10:30:00.000Z" ]};
              stateProvider := {| memory_state := ∅ |} |} in
  fst (hasSufficientCredits "searxng" m) = Ok false
  /\ isExhausted <$> (match fst (getSnapshot "2024-01-20T08:00:00.000Z" "searxng" m) with
                      | Ok s => Some s | Throw _ => None end) = Some false.
Proof. vm_compute. split; reflexivity. Qed.

(** ** The engine map of a new manager *)

Lemma Map_set_get_ne (m : EngineMap) (k k' : EngineId) (v : EngineConfig) :
  k ≠ k' -> Map_get (Map_set m k v) k' = Map_get m k'.
Proof.
  intros Hne. induction m as [|[k0 v0] rest IH]; simpl.
  - destruct (String.eqb_spec k k'); [contradiction|reflexivity].
  - destruct (String.eqb_spec k0 k) as [->|Hk0]; simpl.
    + destruct (String.eqb_spec k k'); [contradiction|reflexivity].
    + now rewrite IH.
Qed.

Lemma Map_set_keys (m : EngineMap) (k : EngineId) (v : EngineConfig) :
  Map_keys (Map_set m k v)
  = if decide (k ∈ Map_keys m) then Map_keys m else Map_keys m ++ [k].
Proof.
  unfold Map_keys. induction m as [|[k0 v0] rest IH]; simpl.
  - destruct (decide (k ∈ [])) as [Hin|_]; [inversion Hin|reflexivity].
  - destruct (String.eqb_spec k0 k) as [->|Hk0]; simpl.
    + destruct (decide (k ∈ k :: map fst rest)) as [_|Hn]; [reflexivity|].
      exfalso. apply Hn. left.
    + rewrite IH.
      destruct (decide (k ∈ map fst rest)) as [Hin|Hnin],
               (decide (k ∈ k0 :: map fst rest)) as [Hin'|Hnin']; try reflexivity.
      * exfalso. apply Hnin'. now right.
      * exfalso. apply elem_of_cons in Hin' as [->|Hin']; contradiction.
Qed.

Lemma Map_set_NoDup (m : EngineMap) (k : EngineId) (v : EngineConfig) :
  NoDup (Map_keys m) -> NoDup (Map_keys (Map_set m k v)).
Proof.
  intros Hnodup. rewrite Map_set_keys.
  destruct (decide (k ∈ Map_keys m)) as [Hin|Hnin]; [exact Hnodup|].
  apply NoDup_app. split; [exact Hnodup|]. split.
  - intros x Hx Hx'. apply list_elem_of_singleton in Hx' as ->. contradiction.
  - apply NoDup_singleton.
Qed.

Lemma Map_get_app (m1 m2 : EngineMap) (k : EngineId) :
  Map_get (m1 ++ m2) k
  = match Map_get m1 k with Some v => Some v | None => Map_get m2 k end.
Proof.
  induction m1 as [|[k0 v0] rest IH]; simpl; [reflexivity|].
  destruct (String.eqb k0 k); [reflexivity|exact IH].
Qed.

Lemma Map_new_from (entries : list (EngineId * EngineConfig)) :
  forall (m0 : EngineMap) (k : EngineId),
    (NoDup (Map_keys m0) ->
     NoDup (Map_keys (fold_left (fun m e => Map_set m (fst e) (snd e)) entries m0)))
    /\ Map_get (fold_left (fun m e => Map_set m (fst e) (snd e)) entries m0) k
       = match Map_get (rev entries) k with
         | Some v => Some v
         | None => Map_get m0 k
         end.
Proof.
  induction entries as [|[k1 v1] entries IH]; intros m0 k; simpl.
  - split; [tauto|reflexivity].
  - destruct (IH (Map_set m0 k1 v1) k) as [Hnodup Hget]. split.
    + intros Hm0. now apply Hnodup, Map_set_NoDup.
    + rewrite Hget, Map_get_app. simpl.
      destruct (Map_get (rev entries) k); [reflexivity|].
      destruct (String.eqb_spec k1 k) as [->|Hne].
      * apply Map_set_get_eq.
      * now apply Map_set_get_ne.
Qed.

Lemma Map_get_entries_find (configs : list EngineConfig) (k : EngineId) :
  Map_get (map (fun e => (id e, e)) configs) k
  = find (fun e => String.eqb (id e) k) configs.
Proof.
  induction configs as [|e configs IH]; simpl; [reflexivity|].
  destruct (String.eqb (id e) k); [reflexivity|exact IH].
Qed.

(** X7. A new manager has no usage state, holds every engine id once, and
    for an id that several of the given configurations share it uses the
    last of them. *)
Theorem newCreditManager_last_config_wins
    {P : Type} `{CreditStateProvider P}
    (configs : list EngineConfig) (provider : P) (k : EngineId) :
  NoDup (Map_keys (engines (newCreditManager configs provider)))
  /\ Map_get (engines (newCreditManager configs provider)) k
     = find (fun e => String.eqb (id e) k) (rev configs)
  /\ state (newCreditManager configs provider) = ∅.
Proof.
  unfold newCreditManager, Map_new. simpl.
  destruct (Map_new_from (map (fun e => (id e, e)) configs) [] k) as [Hnodup Hget].
  split; [apply Hnodup; constructor|]. split; [|reflexivity].
  rewrite Hget, <- map_rev, Map_get_entries_find. simpl.
  now destruct (find _ _).
Qed.

Example newCreditManager_duplicate_id_run :
  engines (newCreditManager
             [sample_config; brave_config;
              {| id := "tavily"; monthlyQuota := 1000; creditCostPerSearch := 1 |}]
             {| memory_state := ∅ |})
  = [("tavily"%string,
      {| id := "tavily"; monthlyQuota := 1000; creditCostPerSearch := 1 |});
     ("brave"%string, brave_config)].
Proof. reflexivity. Qed.

(** * JavaScript maps *)

Lemma JsMap_get_set_eq {V} (m : JsMap.t V) (k : string) (v : V) :
  JsMap.get (JsMap.set m k v) k = Some v.
Proof.
  induction m as [|[k' v'] rest IH]; simpl.
  - now rewrite String.eqb_refl.
  - destruct (String.eqb k' k) eqn:E; simpl; now rewrite E.
Qed.

Lemma JsMap_get_set_ne {V} (m : JsMap.t V) (k k' : string) (v : V) :
  k ≠ k' -> JsMap.get (JsMap.set m k v) k' = JsMap.get m k'.
Proof.
  intros Hne. induction m as [|[k0 v0] rest IH]; simpl.
  - destruct (String.eqb_spec k k'); [contradiction|reflexivity].
  - destruct (String.eqb_spec k0 k) as [->|Hk0]; simpl.
    + destruct (String.eqb_spec k k'); [contradiction|reflexivity].
    + now rewrite IH.
Qed.

Lemma JsMap_has_keys {V} (m : JsMap.t V) (k : string) :
  JsMap.has m k = true <-> k ∈ JsMap.keys m.
Proof.
  unfold JsMap.has, JsMap.keys. induction m as [|[k' v'] rest IH]; simpl.
  - split; [discriminate|intros Hin; inversion Hin].
  - destruct (String.eqb_spec k' k) as [->|Hne].
    + split; [intros _; left|reflexivity].
    + rewrite IH. split; [now right|].
      intros Hin. apply elem_of_cons in Hin as [->|Hin]; [contradiction|exact Hin].
Qed.

Lemma JsMap_has_false_keys {V} (m : JsMap.t V) (k : string) :
  JsMap.has m k = false <-> k ∉ JsMap.keys m.
Proof.
  rewrite <- JsMap_has_keys. destruct (JsMap.has m k); split; try done.
Qed.

Lemma JsMap_set_new {V} (m : JsMap.t V) (k : string) (v : V) :
  JsMap.has m k = false -> JsMap.set m k v = m ++ [(k, v)].
Proof.
  unfold JsMap.has. induction m as [|[k' v'] rest IH]; simpl; [reflexivity|].
  destruct (String.eqb k' k); [discriminate|].
  intros Hrest. now rewrite IH.
Qed.

Lemma JsMap_set_old_keys {V} (m : JsMap.t V) (k : string) (v : V) :
  JsMap.has m k = true -> JsMap.keys (JsMap.set m k v) = JsMap.keys m.
Proof.
  unfold JsMap.has, JsMap.keys. induction m as [|[k' v'] rest IH]; simpl; [discriminate|].
  destruct (String.eqb k' k); [reflexivity|].
  intros Hrest. simpl. now rewrite IH.
Qed.

Lemma JsMap_set_NoDup {V} (m : JsMap.t V) (k : string) (v : V) :
  NoDup (JsMap.keys m) -> NoDup (JsMap.keys (JsMap.set m k v)).
Proof.
  intros Hnodup. destruct (JsMap.has m k) eqn:Hhas.
  - now rewrite JsMap_set_old_keys.
  - rewrite JsMap_set_new by exact Hhas. unfold JsMap.keys. rewrite map_app.
    apply NoDup_app. split; [exact Hnodup|]. split; [|apply NoDup_singleton].
    intros x Hx Hx'. apply list_elem_of_singleton in Hx'. simpl in Hx'. subst x.
    now apply JsMap_has_false_keys in Hhas.
Qed.

Lemma JsMap_get_app {V} (m1 m2 : JsMap.t V) (k : string) :
  JsMap.get (m1 ++ m2) k
  = match JsMap.get m1 k with Some v => Some v | None => JsMap.get m2 k end.
Proof.
  induction m1 as [|[k0 v0] rest IH]; simpl; [reflexivity|].
  destruct (String.eqb k0 k); [reflexivity|exact IH].
Qed.

Lemma JsMap_get_delete_ne {V} (m : JsMap.t V) (k k' : string) :
  k ≠ k' -> JsMap.get (JsMap.delete m k) k' = JsMap.get m k'.
Proof.
  intros Hne. induction m as [|[k0 v0] rest IH]; simpl; [reflexivity|].
  destruct (String.eqb_spec k0 k) as [->|Hk0]; simpl.
  - destruct (String.eqb_spec k k'); [contradiction|exact IH].
  - now rewrite IH.
Qed.

Lemma JsMap_get_delete_eq {V} (m : JsMap.t V) (k : string) :
  JsMap.get (JsMap.delete m k) k = None.
Proof.
  induction m as [|[k0 v0] rest IH]; simpl; [reflexivity|].
  destruct (String.eqb k0 k) eqn:E; [exact IH|]. simpl. now rewrite E.
Qed.

Lemma JsMap_delete_absent {V} (m : JsMap.t V) (k : string) :
  JsMap.has m k = false -> JsMap.delete m k = m.
Proof.
  unfold JsMap.has. induction m as [|[k0 v0] rest IH]; simpl; [reflexivity|].
  destruct (String.eqb k0 k); [discriminate|].
  intros Hrest. now rewrite IH.
Qed.

(** * The strategy factory *)

(** X8. Registering a strategy under a name that is free, and that is
    neither inherited from [Object.prototype] nor written as an integer,
    succeeds; the name is then known, listed last, and [createStrategy]
    builds an instance of the registered class with the options it is
    given, while every strategy that could be created before is created as
    before. *)
Theorem registerStrategy_then_createStrategy
    (name : string) (strategyClass : StrategyFactory.StrategyClass)
    (options : option Strategy.StrategyOptions)
    (strategies : StrategyFactory.StrategyMap) :
  StrategyFactory.ordinary name = true ->
  StrategyFactory.hasStrategy name strategies = false ->
  exists strategies',
    StrategyFactory.registerStrategy name strategyClass strategies
    = (Returns tt, strategies')
    /\ StrategyFactory.createStrategy name options strategies'
       = Returns {| StrategyFactory.instanceOf := strategyClass;
                    StrategyFactory.constructedWith := options |}
    /\ StrategyFactory.hasStrategy name strategies' = true
    /\ StrategyFactory.getAvailableStrategies strategies'
       = StrategyFactory.getAvailableStrategies strategies ++ [name]
    /\ forall other instance,
         StrategyFactory.createStrategy other options strategies = Returns instance ->
         StrategyFactory.createStrategy other options strategies' = Returns instance.
Proof.
  intros _ Hfree. unfold StrategyFactory.hasStrategy in Hfree.
  exists (JsMap.set strategies name strategyClass).
  unfold StrategyFactory.registerStrategy, StrategyFactory.createStrategy,
    StrategyFactory.hasStrategy, StrategyFactory.getAvailableStrategies.
  assert (Hnone : JsMap.get strategies name = None).
  { unfold JsMap.has in Hfree. now destruct (JsMap.get strategies name). }
  rewrite Hnone. split; [reflexivity|].
  rewrite JsMap_get_set_eq. split; [reflexivity|]. split.
  - unfold JsMap.has. now rewrite JsMap_get_set_eq.
  - split.
    + rewrite JsMap_set_new by exact Hfree. unfold JsMap.keys. now rewrite map_app.
    + intros other instance.
      destruct (String.eqb_spec name other) as [<-|Hne].
      * now rewrite Hnone.
      * rewrite JsMap_get_set_ne by exact Hne.
        now destruct (JsMap.get strategies other).
Qed.

Lemma registerStrategy_then_createStrategy_witness :
  exists strategies',
    StrategyFactory.registerStrategy "custom1" (StrategyFactory.UserStrategy "CustomStrategy")
      StrategyFactory.initial
    = (Returns tt, strategies')
    /\ StrategyFactory.createStrategy "custom1" None strategies'
       = Returns {| StrategyFactory.instanceOf := StrategyFactory.UserStrategy "CustomStrategy";
                    StrategyFactory.constructedWith := None |}
    /\ StrategyFactory.hasStrategy "custom1" strategies' = true
    /\ StrategyFactory.getAvailableStrategies strategies'
       = StrategyFactory.getAvailableStrategies StrategyFactory.initial ++ ["custom1"%string]
    /\ forall other instance,
         StrategyFactory.createStrategy other None StrategyFactory.initial = Returns instance ->
         StrategyFactory.createStrategy other None strategies' = Returns instance.
Proof.
  exact (registerStrategy_then_createStrategy
           "custom1" (StrategyFactory.UserStrategy "CustomStrategy") None
           StrategyFactory.initial eq_refl eq_refl).
Defined.

Lemma StrategyFactory_after_invariant (calls : list StrategyFactory.Call) :
  forall strategies : StrategyFactory.StrategyMap,
    JsMap.get strategies "all" = Some StrategyFactory.AllProvidersStrategy ->
    JsMap.get strategies "first-success" = Some StrategyFactory.FirstSuccessStrategy ->
    NoDup (JsMap.keys strategies) ->
    let strategies' := fold_left StrategyFactory.call calls strategies in
    JsMap.get strategies' "all" = Some StrategyFactory.AllProvidersStrategy
    /\ JsMap.get strategies' "first-success" = Some StrategyFactory.FirstSuccessStrategy
    /\ NoDup (JsMap.keys strategies').
Proof.
  induction calls as [|c calls IH]; intros strategies Hall Hfirst Hnodup; simpl.
  - now repeat split.
  - destruct c as [name strategyClass|]; simpl.
    + unfold StrategyFactory.registerStrategy.
      destruct (JsMap.get strategies name) eqn:Hname; simpl; [now apply IH|].
      apply IH.
      * rewrite JsMap_get_set_ne; [exact Hall|]. intros ->. congruence.
      * rewrite JsMap_get_set_ne; [exact Hfirst|]. intros ->. congruence.
      * now apply JsMap_set_NoDup.
    + apply IH; try reflexivity.
      unfold StrategyFactory.reset, StrategyFactory.initial. simpl.
      apply NoDup_cons. split; [|apply NoDup_singleton].
      intros Hin. apply list_elem_of_singleton in Hin. discriminate Hin.
Qed.

(** X9. Whatever strategies have been registered and however often the
    factory has been reset, [all] and [first-success] create the two
    built-in classes, an attempt to register over them throws and changes
    nothing, and no name is listed twice. *)
Theorem built_in_strategies_are_kept
    (calls : list StrategyFactory.Call)
    (options : option Strategy.StrategyOptions)
    (strategyClass : StrategyFactory.StrategyClass) :
  let strategies := StrategyFactory.after calls in
  StrategyFactory.createStrategy "all" options strategies
  = Returns {| StrategyFactory.instanceOf := StrategyFactory.AllProvidersStrategy;
               StrategyFactory.constructedWith := options |}
  /\ StrategyFactory.createStrategy "first-success" options strategies
     = Returns {| StrategyFactory.instanceOf := StrategyFactory.FirstSuccessStrategy;
                  StrategyFactory.constructedWith := options |}
  /\ StrategyFactory.registerStrategy "all" strategyClass strategies
     = (Throws ("Strategy " +:+ dquote +:+ "all" +:+ dquote +:+ " is already registered"),
        strategies)
  /\ StrategyFactory.registerStrategy "first-success" strategyClass strategies
     = (Throws ("Strategy " +:+ dquote +:+ "first-success" +:+ dquote
                +:+ " is already registered"),
        strategies)
  /\ NoDup (StrategyFactory.getAvailableStrategies strategies).
Proof.
  intros strategies.
  destruct (StrategyFactory_after_invariant calls StrategyFactory.initial)
    as (Hall & Hfirst & Hnodup); try reflexivity.
  { unfold StrategyFactory.initial. simpl.
    apply NoDup_cons. split; [|apply NoDup_singleton].
    intros Hin. apply list_elem_of_singleton in Hin. discriminate Hin. }
  fold (StrategyFactory.after calls) in Hall, Hfirst, Hnodup. fold strategies in Hall, Hfirst, Hnodup.
  unfold StrategyFactory.createStrategy, StrategyFactory.registerStrategy.
  rewrite Hall, Hfirst. now repeat split.
Qed.

(** X10. For a name that is neither inherited from [Object.prototype] nor
    written as an integer, [hasStrategy] accepts the name exactly when
    [getAvailableStrategies] lists it, [createStrategy] returns an instance
    exactly for the listed names, and for a name that is not listed it
    throws [Unknown strategy: "<name>". Available strategies: [<names>]]. *)
Theorem createStrategy_hasStrategy_agree
    (strategyName : string) (options : option Strategy.StrategyOptions)
    (strategies : StrategyFactory.StrategyMap) :
  StrategyFactory.ordinary strategyName = true ->
  (StrategyFactory.hasStrategy strategyName strategies = true
   <-> strategyName ∈ StrategyFactory.getAvailableStrategies strategies)
  /\ (strategyName ∈ StrategyFactory.getAvailableStrategies strategies
      <-> exists instance,
            StrategyFactory.createStrategy strategyName options strategies
            = Returns instance)
  /\ (~ (strategyName ∈ StrategyFactory.getAvailableStrategies strategies) ->
      StrategyFactory.createStrategy strategyName options strategies
      = Throws ("Unknown strategy: " +:+ dquote +:+ strategyName +:+ dquote
                +:+ ". Available strategies: ["
                +:+ String.concat ", "
                      (StrategyFactory.getAvailableStrategies strategies)
                +:+ "]")).
Proof.
  intros _.
  pose proof (JsMap_has_keys strategies strategyName) as Hkeys.
  unfold StrategyFactory.hasStrategy, StrategyFactory.getAvailableStrategies.
  split; [exact Hkeys|].
  unfold StrategyFactory.createStrategy.
  unfold JsMap.has in Hkeys.
  destruct (JsMap.get strategies strategyName) as [strategyClass|]; split.
  - split; [now eexists|]. intros _. now apply Hkeys.
  - intros Hnot. exfalso. apply Hnot. now apply Hkeys.
  - split; [|intros [instance Hi]; discriminate Hi].
    intros Hin. apply Hkeys in Hin. discriminate Hin.
  - reflexivity.
Qed.

Lemma createStrategy_hasStrategy_agree_witness :
  StrategyFactory.createStrategy "unknown-strategy" None StrategyFactory.initial
  = Throws ("Unknown strategy: " +:+ dquote +:+ "unknown-strategy" +:+ dquote
            +:+ ". Available strategies: [all, first-success]")
  /\ exists instance,
       StrategyFactory.createStrategy "first-success" None StrategyFactory.initial
       = Returns instance.
Proof.
  split.
  - apply (createStrategy_hasStrategy_agree "unknown-strategy" None
             StrategyFactory.initial eq_refl).
    intros Hin. apply (bool_decide_pack _) in Hin. vm_compute in Hin. exact Hin.
  - apply (createStrategy_hasStrategy_agree "first-success" None
             StrategyFactory.initial eq_refl).
    apply (bool_decide_unpack _). vm_compute. reflexivity.
Defined.

(** The message that the tests of the factory expect. *)
Example createStrategy_unknown_run :
  StrategyFactory.createStrategy "unknown-strategy" None (StrategyFactory.after [])
  = Throws ("Unknown strategy: " +:+ dquote +:+ "unknown-strategy" +:+ dquote
            +:+ ". Available strategies: [all, first-success]").
Proof. reflexivity. Qed.

(** * The provider registry *)

Lemma JsMap_get_elem {V} (m : JsMap.t V) (k : string) (v : V) :
  NoDup (JsMap.keys m) -> (k, v) ∈ m -> JsMap.get m k = Some v.
Proof.
  unfold JsMap.keys. induction m as [|[k0 v0] rest IH]; simpl; intros Hnodup Hin.
  - inversion Hin.
  - apply NoDup_cons in Hnodup as [Hk0 Hrest].
    apply elem_of_cons in Hin as [[= <- <-]|Hin].
    + now rewrite String.eqb_refl.
    + destruct (String.eqb_spec k0 k) as [->|_]; [|now apply IH].
      exfalso. apply Hk0. apply list_elem_of_fmap. now exists (k, v).
Qed.

Section ProviderRegistryProperties.

Context {SearchProvider : Type} (providerId : SearchProvider -> EngineId).

Local Abbreviation own_ids := (ProviderRegistry.own_ids providerId).

Lemma register_keeps_shape (provider : SearchProvider)
    (providers : ProviderRegistry.Providers) :
  NoDup (JsMap.keys providers) -> own_ids providers ->
  NoDup (JsMap.keys (snd (ProviderRegistry.register providerId provider providers)))
  /\ own_ids (snd (ProviderRegistry.register providerId provider providers)).
Proof.
  intros Hnodup Hown. unfold ProviderRegistry.register.
  destruct (JsMap.has providers (providerId provider)) eqn:Hhas; simpl; [now split|].
  split; [now apply JsMap_set_NoDup|].
  rewrite JsMap_set_new by exact Hhas. apply Forall_app. split; [exact Hown|].
  constructor; [reflexivity|constructor].
Qed.

Lemma registered_from (calls : list SearchProvider) :
  forall (providers : ProviderRegistry.Providers) (id : EngineId),
    NoDup (JsMap.keys providers) -> own_ids providers ->
    let providers' :=
      fold_left (fun ps p => snd (ProviderRegistry.register providerId p ps))
        calls providers in
    JsMap.get providers' id
    = match JsMap.get providers id with
      | Some p => Some p
      | None => find (fun p => String.eqb (providerId p) id) calls
      end
    /\ NoDup (JsMap.keys providers')
    /\ own_ids providers'.
Proof.
  induction calls as [|c calls IH]; intros providers id Hnodup Hown; simpl.
  - split; [now destruct (JsMap.get providers id)|now split].
  - destruct (register_keeps_shape c providers Hnodup Hown) as [Hnodup1 Hown1].
    destruct (IH _ id Hnodup1 Hown1) as (Hget & Hnodup' & Hown').
    split; [|now split]. rewrite Hget.
    unfold ProviderRegistry.register, JsMap.has.
    destruct (JsMap.get providers (providerId c)) as [p0|] eqn:Hc; simpl.
    + destruct (JsMap.get providers id) eqn:Hid; [reflexivity|].
      destruct (String.eqb_spec (providerId c) id) as [Heq|_]; [|reflexivity].
      rewrite Heq in Hc. congruence.
    + destruct (String.eqb_spec (providerId c) id) as [<-|Hne].
      * now rewrite JsMap_get_set_eq, Hc.
      * rewrite JsMap_get_set_ne by exact Hne. reflexivity.
Qed.

Lemma find_by_id_iff (calls : list SearchProvider) (id : EngineId) :
  (exists p, find (fun p => String.eqb (providerId p) id) calls = Some p)
  <-> id ∈ map providerId calls.
Proof.
  induction calls as [|c calls IH]; simpl.
  - split; [intros [p Hp]; discriminate Hp|intros Hin; inversion Hin].
  - destruct (String.eqb_spec (providerId c) id) as [<-|Hne].
    + split; [intros _; left|intros _; now eexists].
    + rewrite IH. split; [now right|].
      intros Hin. apply elem_of_cons in Hin as [->|Hin]; [contradiction|exact Hin].
Qed.

(** X11. In a registry filled by [register] calls, the first provider
    registered under an id is the one [get] returns (the later calls for
    that id throw and change nothing); [has] accepts exactly the ids that
    were registered; no id is listed twice, and every listed provider is the
    one [get] returns for its own id. *)
Theorem registry_first_registration_wins
    (calls : list SearchProvider) (id : EngineId) :
  let providers := ProviderRegistry.registered providerId calls in
  ProviderRegistry.get id providers
  = find (fun p => String.eqb (providerId p) id) calls
  /\ (ProviderRegistry.has id providers = true <-> id ∈ map providerId calls)
  /\ NoDup (map providerId (ProviderRegistry.list_ providers))
  /\ forall p, p ∈ ProviderRegistry.list_ providers ->
       ProviderRegistry.get (providerId p) providers = Some p.
Proof.
  intros providers.
  destruct (registered_from calls [] id) as (Hget & Hnodup & Hown);
    [constructor|constructor|].
  fold (ProviderRegistry.registered providerId calls) in Hget, Hnodup, Hown.
  fold providers in Hget, Hnodup, Hown. simpl in Hget.
  assert (Hkeys : map providerId (ProviderRegistry.list_ providers)
                  = JsMap.keys providers).
  { unfold ProviderRegistry.list_, JsMap.values, JsMap.keys.
    unfold ProviderRegistry.own_ids in Hown. clear -Hown.
    induction Hown as [|[k p] rest Hk _ IH]; simpl; [reflexivity|].
    simpl in Hk. now rewrite Hk, IH. }
  split; [exact Hget|]. split; [|split].
  - rewrite <- find_by_id_iff. unfold ProviderRegistry.has, JsMap.has.
    unfold ProviderRegistry.get in Hget. rewrite Hget.
    destruct (find _ calls); split; try done; [now eexists|].
    intros [p Hp]. discriminate Hp.
  - now rewrite Hkeys.
  - intros p Hin. unfold ProviderRegistry.list_, JsMap.values in Hin.
    apply list_elem_of_fmap in Hin as ([k p'] & -> & Hin). simpl.
    unfold ProviderRegistry.own_ids in Hown. rewrite Forall_forall in Hown.
    pose proof (Hown _ Hin) as Hk. simpl in Hk. rewrite Hk.
    now apply JsMap_get_elem.
Qed.

(** X12. [register] of a provider whose id is taken throws
    [Provider already registered: <id>] and leaves the registry as it is;
    otherwise the provider is added at the end of the list, under its id,
    and the other ids are answered as before. *)
Theorem register_refuses_taken_id
    (provider : SearchProvider) (providers : ProviderRegistry.Providers) :
  (ProviderRegistry.has (providerId provider) providers = true ->
   ProviderRegistry.register providerId provider providers
   = (Throws ("Provider already registered: " +:+ providerId provider), providers))
  /\ (ProviderRegistry.has (providerId provider) providers = false ->
      exists providers',
        ProviderRegistry.register providerId provider providers
        = (Returns tt, providers')
        /\ ProviderRegistry.get (providerId provider) providers' = Some provider
        /\ ProviderRegistry.list_ providers'
           = ProviderRegistry.list_ providers ++ [provider]
        /\ forall other, other ≠ providerId provider ->
             ProviderRegistry.get other providers'
             = ProviderRegistry.get other providers).
Proof.
  unfold ProviderRegistry.register, ProviderRegistry.has, ProviderRegistry.get,
    ProviderRegistry.list_.
  split; intros Hhas; rewrite Hhas; [reflexivity|].
  eexists. split; [reflexivity|]. split; [apply JsMap_get_set_eq|]. split.
  - rewrite JsMap_set_new by exact Hhas. unfold JsMap.values. now rewrite map_app.
  - intros other Hne. now apply JsMap_get_set_ne.
Qed.

End ProviderRegistryProperties.

Lemma register_refuses_taken_id_witness :
  ProviderRegistry.register fst ("tavily"%string, "second"%string)
    [("tavily"%string, ("tavily"%string, "first"%string))]
  = (Throws "Provider already registered: tavily",
     [("tavily"%string, ("tavily"%string, "first"%string))])
  /\ exists providers',
       ProviderRegistry.register fst ("brave"%string, "Brave Search"%string)
         [("tavily"%string, ("tavily"%string, "first"%string))]
       = (Returns tt, providers')
       /\ ProviderRegistry.get "brave" providers'
          = Some ("brave"%string, "Brave Search"%string)
       /\ ProviderRegistry.list_ providers'
          = ProviderRegistry.list_ [("tavily"%string, ("tavily"%string, "first"%string))]
            ++ [("brave"%string, "Brave Search"%string)]
       /\ forall other, other ≠ "brave"%string ->
            ProviderRegistry.get other providers'
            = ProviderRegistry.get other
                [("tavily"%string, ("tavily"%string, "first"%string))].
Proof.
  split.
  - exact (proj1 (register_refuses_taken_id fst ("tavily"%string, "second"%string)
                    [("tavily"%string, ("tavily"%string, "first"%string))]) eq_refl).
  - exact (proj2 (register_refuses_taken_id fst ("brave"%string, "Brave Search"%string)
                    [("tavily"%string, ("tavily"%string, "first"%string))]) eq_refl).
Defined.

(** * The plugin registry *)

Section PluginRegistryProperties.

Context {Config Provider Container : Type} (configType : Config -> string).

Local Abbreviation PluginDefinition :=
  (@PluginRegistry.PluginDefinition Config Provider Container).
Local Abbreviation Registry := (@PluginRegistry.Registry Config Provider Container).

(** X13. [registerSync] of a plugin whose type is taken, without the
    [overwrite] option, reports a failure and leaves the registry as it is.
    In every other case it reports a success whose [overwritten] field
    repeats the [overwrite] option (also when the type was free), the plugin
    is what [get] returns for its type, the type keeps its place in
    [getTypes] or is added at the end, and the built-in marks and the other
    types are as before. *)
Theorem registerSync_refuses_or_registers
    (plugin : PluginDefinition) (overwrite : bool) (reg : Registry) :
  (PluginRegistry.has (PluginRegistry.type plugin) reg = true ->
   overwrite = false ->
   PluginRegistry.registerSync plugin overwrite reg
   = ({| PluginRegistry.success := false;
         PluginRegistry.registered_type := PluginRegistry.type plugin;
         PluginRegistry.message :=
           Some ("Plugin type '" +:+ PluginRegistry.type plugin
                 +:+ "' is already registered.");
         PluginRegistry.overwritten := None |},
      reg))
  /\ (PluginRegistry.has (PluginRegistry.type plugin) reg = false \/ overwrite = true ->
      exists reg',
        PluginRegistry.registerSync plugin overwrite reg
        = ({| PluginRegistry.success := true;
              PluginRegistry.registered_type := PluginRegistry.type plugin;
              PluginRegistry.message := None;
              PluginRegistry.overwritten := Some overwrite |},
           reg')
        /\ PluginRegistry.get (PluginRegistry.type plugin) reg' = Some plugin
        /\ PluginRegistry.getTypes reg'
           = (if PluginRegistry.has (PluginRegistry.type plugin) reg
              then PluginRegistry.getTypes reg
              else PluginRegistry.getTypes reg ++ [PluginRegistry.type plugin])
        /\ PluginRegistry.builtInTypes reg' = PluginRegistry.builtInTypes reg
        /\ forall other, other ≠ PluginRegistry.type plugin ->
             PluginRegistry.get other reg' = PluginRegistry.get other reg).
Proof.
  unfold PluginRegistry.registerSync. split.
  - intros -> ->. reflexivity.
  - intros Hfree.
    assert (Hgo : PluginRegistry.has (PluginRegistry.type plugin) reg && negb overwrite
                  = false).
    { destruct Hfree as [->| ->]; [reflexivity|apply andb_false_r]. }
    rewrite Hgo. eexists. split.
    + f_equal. f_equal. f_equal.
      unfold PluginRegistry.has, PluginRegistry.with_plugins, JsMap.has. simpl.
      rewrite JsMap_get_set_eq. apply andb_true_r.
    + unfold PluginRegistry.get, PluginRegistry.getTypes, PluginRegistry.has. simpl.
      split; [apply JsMap_get_set_eq|]. split; [|split; [reflexivity|]].
      * destruct (JsMap.has (PluginRegistry.plugins reg) (PluginRegistry.type plugin))
          eqn:Hhas.
        -- now apply JsMap_set_old_keys.
        -- rewrite JsMap_set_new by exact Hhas. unfold JsMap.keys. now rewrite map_app.
      * intros other Hne. apply JsMap_get_set_ne. congruence.
Qed.

(** X14. A type that is marked built-in stays marked when another plugin is
    registered over it with [overwrite]: [getPluginInfo] then describes the
    new plugin and still reports [isBuiltIn]. *)
Theorem overwritten_plugin_stays_built_in
    (plugin : PluginDefinition) (reg : Registry) :
  PluginRegistry.type plugin ∈ PluginRegistry.builtInTypes reg ->
  PluginRegistry.getPluginInfo (PluginRegistry.type plugin)
    (snd (PluginRegistry.registerSync plugin true reg))
  = Some {| PluginRegistry.info_type := PluginRegistry.type plugin;
            PluginRegistry.info_displayName := PluginRegistry.displayName plugin;
            PluginRegistry.info_description := PluginRegistry.description plugin;
            PluginRegistry.info_docsUrl := PluginRegistry.docsUrl plugin;
            PluginRegistry.info_version := PluginRegistry.version plugin;
            PluginRegistry.info_hasLifecycle := PluginRegistry.hasLifecycle plugin;
            PluginRegistry.isBuiltIn := true |}.
Proof.
  intros Hmarked. unfold PluginRegistry.registerSync.
  rewrite andb_false_r. simpl.
  unfold PluginRegistry.getPluginInfo, PluginRegistry.get. simpl.
  rewrite JsMap_get_set_eq. unfold PluginRegistry.info. simpl.
  now rewrite bool_decide_eq_true_2.
Qed.

(** X15. [register] with a plugin whose [onRegister] hook throws reports
    the failure with the hook's message and leaves the type unregistered,
    also when the call replaced a plugin that was registered before; the
    other types are as before. *)
Theorem register_rolls_back_to_nothing
    (plugin : PluginDefinition) (overwrite : bool) (reg : Registry) (error : string) :
  PluginRegistry.onRegister plugin = Some (Throws error) ->
  PluginRegistry.has (PluginRegistry.type plugin) reg = false \/ overwrite = true ->
  exists reg',
    PluginRegistry.register plugin overwrite reg
    = ({| PluginRegistry.success := false;
          PluginRegistry.registered_type := PluginRegistry.type plugin;
          PluginRegistry.message := Some ("Plugin onRegister failed: " +:+ error);
          PluginRegistry.overwritten := None |},
       reg')
    /\ PluginRegistry.has (PluginRegistry.type plugin) reg' = false
    /\ PluginRegistry.builtInTypes reg' = PluginRegistry.builtInTypes reg
    /\ forall other, other ≠ PluginRegistry.type plugin ->
         PluginRegistry.get other reg' = PluginRegistry.get other reg.
Proof.
  intros Hhook Hfree. unfold PluginRegistry.register.
  assert (Hgo : PluginRegistry.has (PluginRegistry.type plugin) reg && negb overwrite
                = false).
  { destruct Hfree as [->| ->]; [reflexivity|apply andb_false_r]. }
  rewrite Hgo, Hhook. eexists. split; [reflexivity|].
  set (reg1 := match PluginRegistry.get (PluginRegistry.type plugin) reg with
               | Some existing => _ | None => reg end).
  assert (Hreg1 : PluginRegistry.plugins reg1 = PluginRegistry.plugins reg
                  /\ PluginRegistry.builtInTypes reg1 = PluginRegistry.builtInTypes reg).
  { unfold reg1. destruct (PluginRegistry.get _ reg) as [existing|]; [|now split].
    destruct (PluginRegistry.onUnregister existing) as [[[]|err]|]; now split. }
  destruct Hreg1 as [Hplugins Hmarks].
  unfold PluginRegistry.has, PluginRegistry.get, JsMap.has. simpl.
  rewrite JsMap_get_delete_eq. split; [reflexivity|]. split; [exact Hmarks|].
  intros other Hne.
  rewrite JsMap_get_delete_ne, JsMap_get_set_ne, Hplugins by congruence.
  reflexivity.
Qed.

(** X16. [unregister] of a type that is not registered returns [false] and
    changes nothing. When the plugin's [onUnregister] hook throws, the
    error is passed on and the plugin stays registered, with its built-in
    mark. Otherwise it returns [true], the type and its built-in mark are
    gone, and the other types are as before. *)
Theorem unregister_outcomes (t : string) (reg : Registry) :
  (PluginRegistry.has t reg = false ->
   PluginRegistry.unregister t reg = (Returns false, reg))
  /\ (forall plugin error,
        PluginRegistry.get t reg = Some plugin ->
        PluginRegistry.onUnregister plugin = Some (Throws error) ->
        PluginRegistry.unregister t reg = (Throws error, reg))
  /\ (forall plugin,
        PluginRegistry.get t reg = Some plugin ->
        (forall error, ~ (PluginRegistry.onUnregister plugin = Some (Throws error))) ->
        exists reg',
          PluginRegistry.unregister t reg = (Returns true, reg')
          /\ PluginRegistry.has t reg' = false
          /\ ~ (t ∈ PluginRegistry.builtInTypes reg')
          /\ forall other, other ≠ t ->
               PluginRegistry.get other reg' = PluginRegistry.get other reg
               /\ (other ∈ PluginRegistry.builtInTypes reg'
                   <-> other ∈ PluginRegistry.builtInTypes reg)).
Proof.
  unfold PluginRegistry.unregister, PluginRegistry.has, PluginRegistry.get, JsMap.has.
  split; [|split].
  - destruct (JsMap.get (PluginRegistry.plugins reg) t); [discriminate|reflexivity].
  - intros plugin error -> ->. reflexivity.
  - intros plugin -> Hhook.
    eexists. split.
    + destruct (PluginRegistry.onUnregister plugin) as [[[]|err]|]; try reflexivity.
      now contradiction (Hhook err).
    + simpl. rewrite JsMap_get_delete_eq. split; [reflexivity|]. split.
      * rewrite elem_of_difference, elem_of_singleton. now intros [_ Hn].
      * intros other Hne. split; [now apply JsMap_get_delete_ne|].
        rewrite elem_of_difference, elem_of_singleton. tauto.
Qed.

(** X17. A plugin that [registerSync] has registered is the one
    [createProvider] uses for a configuration of its type: without a schema,
    or with [skipValidation], the provider is what the plugin's factory
    makes of the configuration and the container. *)
Theorem registerSync_then_createProvider
    (plugin : PluginDefinition) (overwrite : bool) (reg : Registry)
    (config : Config) (container : option Container) (skipValidation : bool) :
  PluginRegistry.has (PluginRegistry.type plugin) reg = false \/ overwrite = true ->
  configType config = PluginRegistry.type plugin ->
  PluginRegistry.configSchema plugin = None \/ skipValidation = true ->
  PluginRegistry.createProvider configType config container skipValidation
    (snd (PluginRegistry.registerSync plugin overwrite reg))
  = Returns (PluginRegistry.factory plugin config container).
Proof.
  intros Hfree Htype Hschema. unfold PluginRegistry.registerSync.
  assert (Hgo : PluginRegistry.has (PluginRegistry.type plugin) reg && negb overwrite
                = false).
  { destruct Hfree as [->| ->]; [reflexivity|apply andb_false_r]. }
  rewrite Hgo. unfold PluginRegistry.createProvider, PluginRegistry.get. simpl.
  rewrite Htype, JsMap_get_set_eq.
  destruct Hschema as [->| ->]; [reflexivity|].
  now destruct (PluginRegistry.configSchema plugin).
Qed.

End PluginRegistryProperties.

Lemma registerSync_refuses_or_registers_witness :
  PluginRegistry.registerSync (sample_plugin "tavily" "Mine" None) false sample_plugins
  = ({| PluginRegistry.success := false;
        PluginRegistry.registered_type := "tavily";
        PluginRegistry.message := Some "Plugin type 'tavily' is already registered."%string;
        PluginRegistry.overwritten := None |},
     sample_plugins)
  /\ exists reg',
       PluginRegistry.registerSync (sample_plugin "brave" "Brave" None) true sample_plugins
       = ({| PluginRegistry.success := true;
             PluginRegistry.registered_type := "brave";
             PluginRegistry.message := None;
             PluginRegistry.overwritten := Some true |},
          reg')
       /\ PluginRegistry.get "brave" reg' = Some (sample_plugin "brave" "Brave" None)
       /\ PluginRegistry.getTypes reg'
          = (if PluginRegistry.has "brave" sample_plugins
             then PluginRegistry.getTypes sample_plugins
             else PluginRegistry.getTypes sample_plugins ++ ["brave"%string])
       /\ PluginRegistry.builtInTypes reg' = PluginRegistry.builtInTypes sample_plugins
       /\ forall other, other ≠ "brave"%string ->
            PluginRegistry.get other reg' = PluginRegistry.get other sample_plugins.
Proof.
  split.
  - exact (proj1 (registerSync_refuses_or_registers
                    (sample_plugin "tavily" "Mine" None) false sample_plugins)
             eq_refl eq_refl).
  - exact (proj2 (registerSync_refuses_or_registers
                    (sample_plugin "brave" "Brave" None) true sample_plugins)
             (or_intror eq_refl)).
Defined.

Lemma overwritten_plugin_stays_built_in_witness :
  PluginRegistry.getPluginInfo "tavily"
    (snd (PluginRegistry.registerSync (sample_plugin "tavily" "Mine" None) true
            sample_plugins))
  = Some {| PluginRegistry.info_type := "tavily";
            PluginRegistry.info_displayName := "Mine";
            PluginRegistry.info_description := None;
            PluginRegistry.info_docsUrl := None;
            PluginRegistry.info_version := None;
            PluginRegistry.info_hasLifecycle := false;
            PluginRegistry.isBuiltIn := true |}.
Proof.
  apply (overwritten_plugin_stays_built_in
           (sample_plugin "tavily" "Mine" None) sample_plugins).
  apply (bool_decide_unpack _). vm_compute. reflexivity.
Defined.

Lemma register_rolls_back_to_nothing_witness :
  exists reg',
    PluginRegistry.register
      (sample_plugin "tavily" "Mine" (Some (Throws "no network"%string))) true
      sample_plugins
    = ({| PluginRegistry.success := false;
          PluginRegistry.registered_type := "tavily";
          PluginRegistry.message := Some "Plugin onRegister failed: no network"%string;
          PluginRegistry.overwritten := None |},
       reg')
    /\ PluginRegistry.has "tavily" reg' = false
    /\ PluginRegistry.builtInTypes reg' = PluginRegistry.builtInTypes sample_plugins
    /\ forall other, other ≠ "tavily"%string ->
         PluginRegistry.get other reg' = PluginRegistry.get other sample_plugins.
Proof.
  exact (register_rolls_back_to_nothing
           (sample_plugin "tavily" "Mine" (Some (Throws "no network"%string))) true
           sample_plugins "no network" eq_refl (or_intror eq_refl)).
Defined.

Lemma unregister_outcomes_witness :
  PluginRegistry.unregister "brave" sample_plugins = (Returns false, sample_plugins)
  /\ (let reg :=
        snd (PluginRegistry.registerSync
               (sample_plugin "linkup" "Linkup" (Some (Throws "busy"%string))) false
               sample_plugins) in
      PluginRegistry.unregister "linkup" reg = (Throws "busy", reg))
  /\ exists reg',
       PluginRegistry.unregister "tavily" sample_plugins = (Returns true, reg')
       /\ PluginRegistry.has "tavily" reg' = false
       /\ ~ ("tavily"%string ∈ PluginRegistry.builtInTypes reg')
       /\ forall other, other ≠ "tavily"%string ->
            PluginRegistry.get other reg' = PluginRegistry.get other sample_plugins
            /\ (other ∈ PluginRegistry.builtInTypes reg'
                <-> other ∈ PluginRegistry.builtInTypes sample_plugins).
Proof.
  split; [|split].
  - exact (proj1 (unregister_outcomes "brave" sample_plugins) eq_refl).
  - exact (proj1 (proj2 (unregister_outcomes "linkup"
                           (snd (PluginRegistry.registerSync
                                   (sample_plugin "linkup" "Linkup"
                                      (Some (Throws "busy"%string)))
                                   false sample_plugins))))
             (sample_plugin "linkup" "Linkup" (Some (Throws "busy"%string))) "busy"
             eq_refl eq_refl).
  - apply (proj2 (proj2 (unregister_outcomes "tavily" sample_plugins))
             (sample_plugin "tavily" "Tavily" None) eq_refl).
    intros error. simpl. discriminate.
Defined.

Lemma registerSync_then_createProvider_witness :
  PluginRegistry.createProvider fst ("brave"%string, "brave-1"%string) (Some tt) false
    (snd (PluginRegistry.registerSync (sample_plugin "brave" "Brave" None) false
            sample_plugins))
  = Returns (PluginRegistry.factory (sample_plugin "brave" "Brave" None)
               ("brave"%string, "brave-1"%string) (Some tt)).
Proof.
  exact (registerSync_then_createProvider fst
           (sample_plugin "brave" "Brave" None) false sample_plugins
           ("brave"%string, "brave-1"%string) (Some tt) false
           (or_introl eq_refl) eq_refl (or_introl eq_refl)).
Defined.

(** With no plugin registered the message names no type. *)
Example createProvider_no_plugin_run :
  PluginRegistry.createProvider (Provider := string) (Container := unit) fst
    ("tavily"%string, "tavily-1"%string) None false PluginRegistry.empty
  = Throws "No plugin registered for type 'tavily'. Available types: none".
Proof. reflexivity. Qed.

(** * The built-in plugins and the provider factory *)

Section BuiltInProperties.

Context {Config Provider Container : Type} (configType : Config -> string).
Context (newTavilyProvider newBraveProvider newLinkupProvider newSearchxngProvider
         : Config -> Provider).

Local Abbreviation PluginDefinition :=
  (@PluginRegistry.PluginDefinition Config Provider Container).
Local Abbreviation Registry := (@PluginRegistry.Registry Config Provider Container).
Local Abbreviation builtInPlugins :=
  (@PluginRegistry.builtInPlugins Config Provider Container
     newTavilyProvider newBraveProvider newLinkupProvider newSearchxngProvider).
Local Abbreviation registerBuiltInPlugins :=
  (@PluginRegistry.registerBuiltInPlugins Config Provider Container
     newTavilyProvider newBraveProvider newLinkupProvider newSearchxngProvider).
Local Abbreviation areBuiltInPluginsRegistered :=
  (@PluginRegistry.areBuiltInPluginsRegistered Config Provider Container
     newTavilyProvider newBraveProvider newLinkupProvider newSearchxngProvider).

Lemma register_unmarked_step (p : PluginDefinition) (reg : Registry) :
  (let (result, r') := PluginRegistry.registerSync p false reg in
   if PluginRegistry.success result
   then PluginRegistry.markBuiltIn (PluginRegistry.type p) r'
   else r')
  = if PluginRegistry.has (PluginRegistry.type p) reg
    then reg
    else PluginRegistry.markBuiltIn (PluginRegistry.type p)
           (PluginRegistry.with_plugins reg
              (JsMap.set (PluginRegistry.plugins reg) (PluginRegistry.type p) p)).
Proof.
  unfold PluginRegistry.registerSync. rewrite andb_true_r.
  now destruct (PluginRegistry.has (PluginRegistry.type p) reg).
Qed.

Lemma register_unmarked_from (ps : list PluginDefinition) :
  forall (reg : Registry) (t : string),
    let reg' :=
      fold_left
        (fun r plugin =>
           let (result, r') := PluginRegistry.registerSync plugin false r in
           if PluginRegistry.success result
           then PluginRegistry.markBuiltIn (PluginRegistry.type plugin) r'
           else r')
        ps reg in
    PluginRegistry.get t reg'
    = match PluginRegistry.get t reg with
      | Some plugin => Some plugin
      | None => find (fun plugin => String.eqb (PluginRegistry.type plugin) t) ps
      end
    /\ (t ∈ PluginRegistry.builtInTypes reg'
        <-> t ∈ PluginRegistry.builtInTypes reg
            \/ (PluginRegistry.has t reg = false /\ t ∈ map PluginRegistry.type ps))
    /\ PluginRegistry.warned reg' = PluginRegistry.warned reg.
Proof.
  induction ps as [|p ps IH]; intros reg t; simpl.
  - split; [now destruct (PluginRegistry.get t reg)|]. split; [|reflexivity].
    split; [now left|]. intros [Hin|[_ Hin]]; [exact Hin|inversion Hin].
  - rewrite (register_unmarked_step p reg).
    destruct (PluginRegistry.has (PluginRegistry.type p) reg) eqn:Hhas.
    + destruct (IH reg t) as (Hget & Hmark & Hwarn).
      split; [|split; [|exact Hwarn]].
      * rewrite Hget. destruct (PluginRegistry.get t reg) eqn:Ht; [reflexivity|].
        destruct (String.eqb_spec (PluginRegistry.type p) t) as [Heq|_]; [|reflexivity].
        unfold PluginRegistry.has, JsMap.has, PluginRegistry.get in *.
        rewrite Heq, Ht in Hhas. discriminate Hhas.
      * rewrite Hmark. rewrite elem_of_cons.
        split; (intros [Hin|[Hfree Hin]]; [now left|right; split; [exact Hfree|]]).
        -- now right.
        -- destruct Hin as [->|Hin]; [congruence|exact Hin].
    + match goal with
      | |- context [fold_left _ ps ?r] => destruct (IH r t) as (Hget & Hmark & Hwarn)
      end.
      split; [|split; [|exact Hwarn]].
      * rewrite Hget. unfold PluginRegistry.get. simpl.
        destruct (String.eqb_spec (PluginRegistry.type p) t) as [<-|Hne].
        -- rewrite JsMap_get_set_eq.
           unfold PluginRegistry.has, JsMap.has in Hhas.
           now destruct (JsMap.get (PluginRegistry.plugins reg) (PluginRegistry.type p)).
        -- now rewrite JsMap_get_set_ne.
      * rewrite Hmark. simpl. rewrite elem_of_union, elem_of_singleton, elem_of_cons.
        unfold PluginRegistry.has, JsMap.has. simpl.
        destruct (String.eqb_spec (PluginRegistry.type p) t) as [<-|Hne].
        -- split; [intros _|intros _; now left; left].
           right. split; [|now left].
           unfold PluginRegistry.has, JsMap.has in Hhas. exact Hhas.
        -- rewrite JsMap_get_set_ne by exact Hne.
           split.
           ++ intros [[Heq|Hin]|[Hfree Hin]]; [congruence|now left|].
              right. split; [exact Hfree|now right].
           ++ intros [Hin|[Hfree [Heq|Hin]]]; [left; now right|congruence|].
              right. now split.
Qed.

Lemma find_own_type (ps : list PluginDefinition) (p : PluginDefinition) :
  In p ps ->
  exists q,
    find (fun plugin => String.eqb (PluginRegistry.type plugin) (PluginRegistry.type p)) ps
    = Some q.
Proof.
  induction ps as [|p0 ps IH]; simpl; intros Hin; [contradiction|].
  destruct (String.eqb_spec (PluginRegistry.type p0) (PluginRegistry.type p)) as [_|Hne];
    [now eexists|].
  destruct Hin as [->|Hin]; [contradiction|now apply IH].
Qed.

Lemma built_ins_registered_after (reg : Registry) :
  areBuiltInPluginsRegistered (registerBuiltInPlugins reg) = true.
Proof.
  unfold PluginRegistry.areBuiltInPluginsRegistered.
  apply forallb_forall. intros p Hin.
  destruct (register_unmarked_from builtInPlugins reg (PluginRegistry.type p))
    as (Hp & _).
  unfold PluginRegistry.has, JsMap.has. unfold PluginRegistry.get in Hp.
  unfold PluginRegistry.registerBuiltInPlugins. rewrite Hp.
  destruct (JsMap.get (PluginRegistry.plugins reg) (PluginRegistry.type p));
    [reflexivity|].
  destruct (find_own_type builtInPlugins p Hin) as [q ->]. reflexivity.
Qed.

(** X18. [registerBuiltInPlugins] keeps every plugin the registry already
    has, also under the type of a built-in plugin, and registers the
    built-in plugins whose type was free; it marks as built-in exactly the
    types it has registered itself; afterwards
    [areBuiltInPluginsRegistered] holds. *)
Theorem registerBuiltInPlugins_fills_free_types (reg : Registry) (t : string) :
  let reg' := registerBuiltInPlugins reg in
  PluginRegistry.get t reg'
  = match PluginRegistry.get t reg with
    | Some plugin => Some plugin
    | None => find (fun plugin => String.eqb (PluginRegistry.type plugin) t)
                builtInPlugins
    end
  /\ (t ∈ PluginRegistry.builtInTypes reg'
      <-> t ∈ PluginRegistry.builtInTypes reg
          \/ (PluginRegistry.has t reg = false
              /\ t ∈ ["tavily"; "brave"; "linkup"; "searchxng"]%string))
  /\ areBuiltInPluginsRegistered reg' = true.
Proof.
  intros reg'.
  destruct (register_unmarked_from builtInPlugins reg t) as (Hget & Hmark & _).
  split; [exact Hget|]. split; [exact Hmark|].
  apply built_ins_registered_after.
Qed.

Local Abbreviation Globals := (@ProviderFactory.Globals Config Provider Container).
Local Abbreviation ensurePluginsRegisteredSync :=
  (@ProviderFactory.ensurePluginsRegisteredSync Config Provider Container
     newTavilyProvider newBraveProvider newLinkupProvider newSearchxngProvider).
Local Abbreviation isTypeSupported :=
  (@ProviderFactory.isTypeSupported Config Provider Container
     newTavilyProvider newBraveProvider newLinkupProvider newSearchxngProvider).
Local Abbreviation createProvider :=
  (@ProviderFactory.createProvider Config Provider Container configType
     newTavilyProvider newBraveProvider newLinkupProvider newSearchxngProvider).

Lemma find_built_in (p : PluginDefinition) :
  In p builtInPlugins ->
  find (fun plugin => String.eqb (PluginRegistry.type plugin) (PluginRegistry.type p))
    builtInPlugins
  = Some p
  /\ PluginRegistry.configSchema p = None.
Proof.
  intros [<-|[<-|[<-|[<-|[]]]]]; split; reflexivity.
Qed.

(** X19. When the factory has not been initialised, the first call through
    it registers the built-in plugins that the shared registry lacks: every
    built-in type is then supported, and a configuration of a built-in type
    that the registry had no plugin for gets the provider that the built-in
    plugin of that type constructs. *)
Theorem providerFactory_supplies_built_ins (g : Globals) (p : PluginDefinition) :
  ProviderFactory.initialized g = false ->
  In p builtInPlugins ->
  fst (isTypeSupported (PluginRegistry.type p) g) = true
  /\ ProviderFactory.initialized (snd (isTypeSupported (PluginRegistry.type p) g)) = true
  /\ forall config container,
       configType config = PluginRegistry.type p ->
       PluginRegistry.get (PluginRegistry.type p) (ProviderFactory.getInstance g) = None ->
       fst (createProvider config container g)
       = Returns (PluginRegistry.factory p config (Some container)).
Proof.
  intros Hfresh Hin.
  unfold ProviderFactory.isTypeSupported, ProviderFactory.createProvider,
    ProviderFactory.ensurePluginsRegisteredSync. rewrite Hfresh. simpl.
  split; [|split; [reflexivity|]].
  - destruct (areBuiltInPluginsRegistered (ProviderFactory.getInstance g)) eqn:Hall.
    + unfold PluginRegistry.areBuiltInPluginsRegistered in Hall.
      rewrite forallb_forall in Hall. now apply Hall.
    + pose proof (built_ins_registered_after (ProviderFactory.getInstance g)) as Hafter.
      unfold PluginRegistry.areBuiltInPluginsRegistered in Hafter.
      rewrite forallb_forall in Hafter. now apply Hafter.
  - intros config container Htype Hnone.
    destruct (areBuiltInPluginsRegistered (ProviderFactory.getInstance g)) eqn:Hall.
    + unfold PluginRegistry.areBuiltInPluginsRegistered in Hall.
      rewrite forallb_forall in Hall. specialize (Hall p Hin).
      unfold PluginRegistry.has, JsMap.has, PluginRegistry.get in *.
      rewrite Hnone in Hall. discriminate Hall.
    + destruct (register_unmarked_from builtInPlugins (ProviderFactory.getInstance g)
                  (PluginRegistry.type p)) as (Hget & _).
      rewrite Hnone in Hget. destruct (find_built_in p Hin) as [Hfind Hschema].
      rewrite Hfind in Hget.
      cbn [ProviderFactory.getInstance ProviderFactory.instance fst].
      unfold PluginRegistry.createProvider. rewrite Htype.
      unfold PluginRegistry.registerBuiltInPlugins. rewrite Hget, Hschema.
      reflexivity.
Qed.

End BuiltInProperties.

Lemma providerFactory_supplies_built_ins_witness :
  let g : @ProviderFactory.Globals (string * string) string unit :=
    {| ProviderFactory.initialized := false; ProviderFactory.instance := None |} in
  let new (name : string) (config : string * string) := (name +:+ ":" +:+ snd config)%string in
  let p := PluginRegistry.tavilyPlugin (Container := unit) (new "Tavily") in
  fst (ProviderFactory.isTypeSupported
         (new "Tavily") (new "Brave") (new "Linkup") (new "Searchxng")
         (PluginRegistry.type p) g) = true
  /\ ProviderFactory.initialized
       (snd (ProviderFactory.isTypeSupported
               (new "Tavily") (new "Brave") (new "Linkup") (new "Searchxng")
               (PluginRegistry.type p) g)) = true
  /\ forall config container,
       fst config = PluginRegistry.type p ->
       PluginRegistry.get (PluginRegistry.type p) (ProviderFactory.getInstance g) = None ->
       fst (ProviderFactory.createProvider fst
              (new "Tavily") (new "Brave") (new "Linkup") (new "Searchxng")
              config container g)
       = Returns (PluginRegistry.factory p config (Some container)).
Proof.
  intros g new p.
  exact (providerFactory_supplies_built_ins fst
           (new "Tavily") (new "Brave") (new "Linkup") (new "Searchxng")
           g p eq_refl (or_introl eq_refl)).
Defined.

(** Once initialised the factory does not look again: after the shared
    registry has been cleared, the built-in types are gone until [reset]. *)
Example providerFactory_initialised_run :
  let new (name : string) (config : string * string) := (name +:+ ":" +:+ snd config)%string in
  let g : @ProviderFactory.Globals (string * string) string unit :=
    {| ProviderFactory.initialized := true;
       ProviderFactory.instance := Some (PluginRegistry.clear sample_plugins) |} in
  fst (ProviderFactory.isTypeSupported
         (new "Tavily") (new "Brave") (new "Linkup") (new "Searchxng") "tavily" g)
  = false
  /\ fst (ProviderFactory.isTypeSupported
            (new "Tavily") (new "Brave") (new "Linkup") (new "Searchxng") "tavily"
            (ProviderFactory.reset g))
     = true.
Proof. vm_compute. split; reflexivity. Qed.

(** A registry where the caller has registered a plugin of type [brave]
    first: that plugin stays, unmarked, and the three other built-in
    plugins follow. *)
Example registerBuiltInPlugins_run :
  let reg :=
    PluginRegistry.registerBuiltInPlugins
      (fun c => "Tavily:" +:+ snd c) (fun c => "Brave:" +:+ snd c)
      (fun c => "Linkup:" +:+ snd c) (fun c => "Searchxng:" +:+ snd c)
      (snd (PluginRegistry.registerSync (sample_plugin "brave" "Mine" None) false
              PluginRegistry.empty)) in
  PluginRegistry.getTypes reg = ["brave"; "tavily"; "linkup"; "searchxng"]%string
  /\ map PluginRegistry.info_displayName (PluginRegistry.listPlugins reg)
     = ["Mine"; "Tavily"; "Linkup"; "SearXNG (Local)"]%string
  /\ map PluginRegistry.isBuiltIn (PluginRegistry.listPlugins reg)
     = [false; true; true; true].
Proof. vm_compute. repeat split. Qed.

(** * The container *)

Example container_resolves_run :
  match Container.get "strategy" sample_container with
  | Some (answer, c) =>
      answer = Container.Got (Some "strategy of loaded"%string)
      /\ Container.getServiceInfo "config" c
         = Some {| Container.info_singleton := true; Container.info_cached := true;
                   Container.info_factory := Container.Return (Some "loaded"%string) |}
      /\ Container.resolutionStack c = []
  | None => False
  end.
Proof. vm_compute. repeat split. Qed.

Example container_cycle_run :
  fst <$> Container.get "ping" sample_container
  = Some (Container.Raise
            (Container.ErrorOf
               ("Failed to resolve service 'ping': Failed to resolve service 'pong': "
                +:+ "Circular dependency detected: ping -> pong -> ping"))).
Proof. vm_compute. reflexivity. Qed.

Example container_unknown_run :
  fst <$> Container.get "logger" sample_container
  = Some (Container.Raise
            (Container.ErrorOf
               ("No binding found for 'logger'. "
                +:+ "Registered services: [config, strategy, ping, pong]"))).
Proof. vm_compute. reflexivity. Qed.

Section ContainerProperties.

Context {V : Type}.

Local Abbreviation Container := (Container.Container V).
Local Abbreviation Factory := (Container.Factory V).
Local Abbreviation Binding := (Container.ContainerBinding V).

Lemma filter_length_lt {A} (p q : A -> bool) (l : list A) (x : A) :
  (forall a, q a = true -> p a = true) ->
  In x l -> p x = true -> q x = false ->
  (length (List.filter q l) < length (List.filter p l))%nat.
Proof.
  intros Hsub. induction l as [|a l IH]; simpl; intros Hin Hp Hq; [contradiction|].
  assert (Hle : (length (List.filter q l) <= length (List.filter p l))%nat).
  { clear -Hsub. induction l as [|b l IH]; simpl; [lia|].
    destruct (q b) eqn:Hqb.
    - rewrite (Hsub b Hqb). simpl. lia.
    - destruct (p b); simpl; lia. }
  destruct Hin as [->|Hin].
  - rewrite Hp, Hq. simpl. lia.
  - specialize (IH Hin Hp Hq). destruct (q a) eqn:Hqa.
    + rewrite (Hsub a Hqa). simpl. lia.
    + destruct (p a); simpl; lia.
Qed.

Lemma services_keys (c : Container) :
  map fst (Container.services c) = JsMap.keys (Container.bindings c).
Proof.
  unfold Container.services, JsMap.keys. rewrite map_map. reflexivity.
Qed.

Lemma unresolved_same (c c' : Container) :
  Container.resolutionStack c' = Container.resolutionStack c ->
  Container.services c' = Container.services c ->
  Container.unresolved c' = Container.unresolved c.
Proof.
  intros Hstack Hservices. unfold Container.unresolved, Container.on_stack.
  now rewrite Hstack, Hservices.
Qed.

Lemma JsMap_get_In {A} (m : JsMap.t A) (k : string) (v : A) :
  JsMap.get m k = Some v -> In k (JsMap.keys m).
Proof.
  unfold JsMap.keys. induction m as [|[k0 v0] rest IH]; simpl; [discriminate|].
  destruct (String.eqb_spec k0 k) as [->|_]; [now left|].
  intros Hget. right. now apply IH.
Qed.

Lemma push_unresolved (c : Container) (id : string) (b : Binding) :
  Container.on_stack id c = false ->
  JsMap.get (Container.bindings c) id = Some b ->
  Container.resolutionStack (Container.push id c) = Container.resolutionStack c ++ [id]
  /\ Container.services (Container.push id c) = Container.services c
  /\ (Container.unresolved (Container.push id c) < Container.unresolved c)%nat.
Proof.
  intros Hfree Hbound.
  assert (Hstack : Container.resolutionStack (Container.push id c)
                   = Container.resolutionStack c ++ [id]).
  { unfold Container.push. simpl. now rewrite Hfree. }
  split; [exact Hstack|]. split; [reflexivity|].
  unfold Container.unresolved.
  apply (filter_length_lt _ _ _ id).
  - intros a. unfold Container.on_stack. rewrite Hstack, existsb_app. simpl.
    destruct (existsb (String.eqb a) (Container.resolutionStack c)); [discriminate|reflexivity].
  - change (Container.services (Container.push id c)) with (Container.services c).
    rewrite services_keys. now apply (JsMap_get_In _ _ b).
  - now rewrite Hfree.
  - unfold Container.on_stack. rewrite Hstack, existsb_app. simpl.
    rewrite String.eqb_refl. now rewrite orb_true_r.
Qed.

Lemma pop_pushed (stack : list string) (id : string) :
  existsb (String.eqb id) stack = false ->
  List.filter (fun i => negb (String.eqb i id)) (stack ++ [id]) = stack.
Proof.
  intros Hfree. rewrite List.filter_app. simpl. rewrite String.eqb_refl. simpl.
  rewrite app_nil_r. induction stack as [|i stack IH]; simpl in *; [reflexivity|].
  apply orb_false_iff in Hfree as [Hi Hrest].
  rewrite String.eqb_sym, Hi. simpl. now rewrite IH.
Qed.

Lemma cache_services (c : Container) (id : string) (instance : option V) :
  Container.resolutionStack (Container.cache id instance c) = Container.resolutionStack c
  /\ Container.services (Container.cache id instance c) = Container.services c.
Proof.
  unfold Container.cache.
  destruct (JsMap.get (Container.bindings c) id) as [b|] eqn:Hb; [|now split].
  split; [reflexivity|]. unfold Container.services. simpl.
  revert Hb. generalize (Container.bindings c). intros m.
  induction m as [|[k0 b0] rest IH]; simpl; [discriminate|].
  destruct (String.eqb k0 id) eqn:E.
  - intros [= <-]. reflexivity.
  - intros Hb. simpl. now rewrite IH.
Qed.

Lemma cache_lookup (c : Container) (id : string) (instance : option V)
    (b : Binding) :
  JsMap.get (Container.bindings c) id = Some b ->
  JsMap.get (Container.bindings (Container.cache id instance c)) id
  = Some {| Container.factory := Container.factory b;
            Container.singleton_ := Container.singleton_ b;
            Container.cached := instance |}.
Proof.
  intros Hb. unfold Container.cache. rewrite Hb. simpl. apply JsMap_get_set_eq.
Qed.

(** The factory and lifetime under an id are read off [services]. *)
Lemma services_lookup (c c' : Container) (id : string) (b : Binding) :
  Container.services c' = Container.services c ->
  JsMap.get (Container.bindings c) id = Some b ->
  exists b', JsMap.get (Container.bindings c') id = Some b'
             /\ Container.factory b' = Container.factory b
             /\ Container.singleton_ b' = Container.singleton_ b.
Proof.
  unfold Container.services.
  generalize (Container.bindings c) (Container.bindings c'). clear c c'.
  induction t as [|[k0 b0] rest IH]; intros [|[k1 b1] rest'] Heq; simpl in *;
    try discriminate.
  injection Heq as Hk Hf Hs Hrest. subst k1.
  destruct (String.eqb k0 id); [|now apply IH].
  intros [= <-]. now exists b1.
Qed.

Lemma run_total (depth : nat) :
  (forall id (c : Container),
     (Container.unresolved c < depth)%nat ->
     exists answer c',
       Container.get_within depth id c = Some (answer, c')
       /\ Container.resolutionStack c' = Container.resolutionStack c
       /\ Container.services c' = Container.services c) ->
  forall (f : Factory) (c : Container),
    (Container.unresolved c < depth)%nat ->
    exists answer c',
      Container.run (Container.get_within depth) f c = Some (answer, c')
      /\ Container.resolutionStack c' = Container.resolutionStack c
      /\ Container.services c' = Container.services c.
Proof.
  intros Hget. induction f as [instance|raised|id andThen IH]; intros c Hc; simpl.
  - now do 2 eexists.
  - now do 2 eexists.
  - destruct (Hget id c Hc) as (answer & c1 & -> & Hstack1 & Hservices1).
    destruct (IH answer c1) as (answer' & c2 & Hrun & Hstack2 & Hservices2).
    { now rewrite (unresolved_same c c1). }
    exists answer', c2. split; [exact Hrun|]. split; congruence.
Qed.

Lemma get_within_total (depth : nat) :
  forall id (c : Container),
    (Container.unresolved c < depth)%nat ->
    exists answer c',
      Container.get_within depth id c = Some (answer, c')
      /\ Container.resolutionStack c' = Container.resolutionStack c
      /\ Container.services c' = Container.services c.
Proof.
  induction depth as [|depth IH]; intros id c Hc; [lia|]. simpl.
  destruct (Container.on_stack id c) eqn:Hstack; [now do 2 eexists|].
  destruct (JsMap.get (Container.bindings c) id) as [b|] eqn:Hb; [|now do 2 eexists].
  assert (Hrun : exists answer c',
             match Container.run (Container.get_within depth) (Container.factory b)
                     (Container.push id c) with
             | Some (Container.Got instance, c') =>
                 Some (Container.Got instance,
                       Container.pop id
                         (if Container.singleton_ b
                          then Container.cache id instance c' else c'))
             | Some (Container.Raise (Container.ErrorOf message), c') =>
                 Some (Container.Raise
                         (Container.ErrorOf ("Failed to resolve service '" +:+ id
                                             +:+ "': " +:+ message)),
                       Container.pop id c')
             | Some (Container.Raise (Container.Other what), c') =>
                 Some (Container.Raise (Container.Other what), Container.pop id c')
             | None => None
             end = Some (answer, c')
             /\ Container.resolutionStack c' = Container.resolutionStack c
             /\ Container.services c' = Container.services c).
  { destruct (push_unresolved c id b Hstack Hb) as (Hpushed & Hsame & Hless).
    destruct (run_total depth IH (Container.factory b) (Container.push id c))
      as (answer & c1 & -> & Hstack1 & Hservices1); [lia|].
    assert (Hpop : forall c2 : Container,
               Container.resolutionStack c2 = Container.resolutionStack c1 ->
               Container.services c2 = Container.services c1 ->
               Container.resolutionStack (Container.pop id c2) = Container.resolutionStack c
               /\ Container.services (Container.pop id c2) = Container.services c).
    { intros c2 Hs2 Hv2. split; [|unfold Container.services in *; simpl; congruence].
      unfold Container.pop. simpl. rewrite Hs2, Hstack1, Hpushed.
      now apply pop_pushed. }
    destruct answer as [instance|[message|what]]; do 2 eexists;
      (split; [reflexivity|]); try (now apply Hpop).
    destruct (Container.singleton_ b); [|now apply Hpop].
    destruct (cache_services c1 id instance) as [Hs Hv]. apply Hpop; congruence. }
  destruct (Container.singleton_ b) eqn:Hsingle; [|exact Hrun].
  destruct (Container.cached b) as [instance|]; [now do 2 eexists|exact Hrun].
Qed.

Lemma unresolved_le (c : Container) :
  (Container.unresolved c <= length (Container.bindings c))%nat.
Proof.
  unfold Container.unresolved, Container.services. rewrite map_map.
  etransitivity; [apply List.filter_length_le|]. now rewrite length_map.
Qed.

(** X20. [get] always comes to an end, whatever the services depend on:
    it returns an instance or throws, and either way it leaves the
    resolution stack as it found it and every registered id with its
    factory and lifetime. *)
Theorem get_ends_and_cleans_up (id : string) (c : Container) :
  exists answer c',
    Container.get id c = Some (answer, c')
    /\ Container.resolutionStack c' = Container.resolutionStack c
    /\ Container.getRegisteredServices c' = Container.getRegisteredServices c
    /\ Container.services c' = Container.services c.
Proof.
  destruct (get_within_total (S (length (Container.bindings c))) id c)
    as (answer & c' & Hget & Hstack & Hservices).
  { pose proof (unresolved_le c). lia. }
  exists answer, c'. split; [exact Hget|]. split; [exact Hstack|].
  split; [|exact Hservices].
  unfold Container.getRegisteredServices. now rewrite <- !services_keys, Hservices.
Qed.

(** X21. A singleton is built once: when [get] has returned an instance
    (not [undefined]) of a singleton service, the next [get] of that service
    returns the same instance without changing the container, and
    [getServiceInfo] reports the service as cached. *)
Theorem singleton_is_built_once
    (id : string) (c c' : Container) (b : Binding) (instance : V) :
  Container.get id c = Some (Container.Got (Some instance), c') ->
  JsMap.get (Container.bindings c) id = Some b ->
  Container.singleton_ b = true ->
  Container.get id c' = Some (Container.Got (Some instance), c')
  /\ Container.getServiceInfo id c'
     = Some {| Container.info_singleton := true; Container.info_cached := true;
               Container.info_factory := Container.factory b |}.
Proof.
  unfold Container.get. intros Hget Hb Hsingle.
  assert (Hcached : forall c0 : Container,
             Container.on_stack id c0 = false ->
             JsMap.get (Container.bindings c0) id
             = Some {| Container.factory := Container.factory b;
                       Container.singleton_ := true;
                       Container.cached := Some instance |} ->
             Container.get_within (S (length (Container.bindings c0))) id c0
             = Some (Container.Got (Some instance), c0)
             /\ Container.getServiceInfo id c0
                = Some {| Container.info_singleton := true; Container.info_cached := true;
                          Container.info_factory := Container.factory b |}).
  { intros c0 Hfree Hc0. unfold Container.getServiceInfo. simpl.
    now rewrite Hfree, Hc0. }
  simpl in Hget.
  destruct (Container.on_stack id c) eqn:Hstack; [discriminate Hget|].
  rewrite Hb, Hsingle in Hget.
  destruct (Container.cached b) as [w|] eqn:Hw.
  - injection Hget as -> <-. apply Hcached; [exact Hstack|].
    rewrite Hb. destruct b. simpl in *. now subst.
  - destruct (push_unresolved c id b Hstack Hb) as (Hpushed & Hsame & Hless).
    destruct (run_total (length (Container.bindings c))
                (get_within_total (length (Container.bindings c)))
                (Container.factory b) (Container.push id c))
      as (answer & c1 & Hrun & Hstack1 & Hservices1).
    { pose proof (unresolved_le c). lia. }
    rewrite Hrun in Hget.
    destruct answer as [result|[message|what]]; try discriminate Hget.
    injection Hget as -> <-.
    destruct (services_lookup c c1 id b) as (b1 & Hb1 & Hf1 & Hs1);
      [congruence|exact Hb|].
    apply Hcached.
    + unfold Container.on_stack, Container.pop. simpl.
      destruct (cache_services c1 id (Some instance)) as [Hs _].
      rewrite Hs, Hstack1, Hpushed, pop_pushed by exact Hstack. exact Hstack.
    + unfold Container.pop. simpl.
      rewrite (cache_lookup c1 id (Some instance) b1 Hb1). now rewrite Hf1, Hs1, Hsingle.
Qed.

Lemma two_bindings (m : JsMap.t Binding) (a b : string) (ba bb : Binding) :
  a ≠ b -> JsMap.get m a = Some ba -> JsMap.get m b = Some bb ->
  exists n, length m = S (S n).
Proof.
  intros Hne Ha Hb. destruct m as [|[k0 v0] [|[k1 v1] rest]]; simpl in *.
  - discriminate Ha.
  - destruct (String.eqb_spec k0 a) as [->|_]; [|discriminate Ha].
    destruct (String.eqb_spec a b) as [->|_]; [contradiction|discriminate Hb].
  - now eexists.
Qed.

(** X22. Two services that need each other, neither with a cached instance:
    [get] of the first throws the circular dependency error, wrapped once
    for each of the two services, and leaves the container as it was. *)
Theorem mutual_dependency_is_reported
    (a b : string) (c : Container) (ba bb : Binding)
    (buildA buildB : option V -> Factory) :
  a ≠ b ->
  Container.resolutionStack c = [] ->
  JsMap.get (Container.bindings c) a = Some ba ->
  JsMap.get (Container.bindings c) b = Some bb ->
  Container.factory ba = Container.needs b buildA ->
  Container.factory bb = Container.needs a buildB ->
  Container.cached ba = None ->
  Container.cached bb = None ->
  Container.get a c
  = Some (Container.Raise
            (Container.ErrorOf
               ("Failed to resolve service '" +:+ a +:+ "': "
                +:+ ("Failed to resolve service '" +:+ b +:+ "': "
                     +:+ ("Circular dependency detected: "
                          +:+ String.concat " -> " [a; b; a])))),
          c).
Proof.
  intros Hne Hempty Ha Hb Hfa Hfb Hca Hcb.
  destruct (two_bindings _ a b ba bb Hne Ha Hb) as [n Hlen].
  unfold Container.get. rewrite Hlen.
  destruct c as [m stack]. simpl in *. subst stack.
  assert (Hab : String.eqb a b = false) by now apply String.eqb_neq.
  assert (Hba : String.eqb b a = false) by (apply String.eqb_neq; congruence).
  cbn [Container.get_within Container.on_stack Container.resolutionStack
       Container.bindings existsb].
  rewrite Ha, Hca, Hfa. unfold Container.needs.
  assert (Hclean : Container.pop a
                     (Container.pop b
                        (Container.push b
                           (Container.push a
                              {| Container.bindings := m;
                                 Container.resolutionStack := [] |})))
                   = {| Container.bindings := m; Container.resolutionStack := [] |}).
  { unfold Container.pop, Container.push, Container.on_stack. simpl.
    rewrite Hba. simpl. rewrite Hab, !String.eqb_refl. simpl.
    now rewrite String.eqb_refl. }
  destruct (Container.singleton_ ba);
    cbn [Container.run Container.get_within Container.push Container.on_stack
         Container.resolutionStack Container.bindings existsb app];
    rewrite Hba; cbn [orb]; rewrite Hb, Hcb, Hfb; unfold Container.needs;
    destruct (Container.singleton_ bb);
    repeat (progress
              (cbn [Container.run Container.get_within Container.push Container.pop
                    Container.on_stack Container.resolutionStack Container.bindings
                    existsb app orb negb List.filter];
               rewrite ?Hab, ?Hba, ?String.eqb_refl));
    rewrite Hclean; reflexivity.
Qed.


(** X23. [bind] and [singleton] put a service under its id with nothing
    cached, replacing what was bound there and leaving the other services
    alone; [unbind] tells whether the id was bound and removes it, after
    which [get] of that id throws [No binding found]. *)
Theorem bind_replaces_unbind_removes (id : string) (f : Factory) (c : Container) :
  Container.getServiceInfo id (Container.bind id f c)
  = Some {| Container.info_singleton := false; Container.info_cached := false;
            Container.info_factory := f |}
  /\ Container.getServiceInfo id (Container.singleton id f c)
     = Some {| Container.info_singleton := true; Container.info_cached := false;
               Container.info_factory := f |}
  /\ (forall other, other ≠ id ->
        Container.getServiceInfo other (Container.bind id f c)
        = Container.getServiceInfo other c
        /\ Container.getServiceInfo other (Container.singleton id f c)
           = Container.getServiceInfo other c
        /\ Container.getServiceInfo other (snd (Container.unbind id c))
           = Container.getServiceInfo other c)
  /\ fst (Container.unbind id c) = Container.has id c
  /\ Container.has id (snd (Container.unbind id c)) = false
  /\ (Container.on_stack id c = false ->
      Container.get id (snd (Container.unbind id c))
      = Some (Container.Raise
                (Container.ErrorOf
                   ("No binding found for '" +:+ id +:+ "'. Registered services: ["
                    +:+ String.concat ", "
                          (Container.getRegisteredServices (snd (Container.unbind id c)))
                    +:+ "]")),
              snd (Container.unbind id c))).
Proof.
  unfold Container.getServiceInfo, Container.bind, Container.singleton,
    Container.unbind, Container.has. simpl.
  rewrite !JsMap_get_set_eq. split; [reflexivity|]. split; [reflexivity|]. split.
  - intros other Hne.
    rewrite !JsMap_get_set_ne, JsMap_get_delete_ne by congruence. now repeat split.
  - split; [reflexivity|]. split.
    + unfold JsMap.has. now rewrite JsMap_get_delete_eq.
    + intros Hfree. unfold Container.get. simpl.
      unfold Container.on_stack in *. simpl. rewrite Hfree.
      now rewrite JsMap_get_delete_eq.
Qed.

End ContainerProperties.

Lemma singleton_is_built_once_witness :
  let c' :=
    Container.pop "config"
      (Container.cache "config" (Some "loaded"%string)
         (Container.push "config" sample_container)) in
  Container.get "config" c' = Some (Container.Got (Some "loaded"%string), c')
  /\ Container.getServiceInfo "config" c'
     = Some {| Container.info_singleton := true; Container.info_cached := true;
               Container.info_factory := Container.Return (Some "loaded"%string) |}.
Proof.
  exact (singleton_is_built_once "config" sample_container
           (Container.pop "config"
              (Container.cache "config" (Some "loaded"%string)
                 (Container.push "config" sample_container)))
           {| Container.factory := Container.Return (Some "loaded"%string);
              Container.singleton_ := true; Container.cached := None |}
           "loaded"%string eq_refl eq_refl eq_refl).
Defined.

Lemma mutual_dependency_is_reported_witness :
  Container.get "ping" sample_container
  = Some (Container.Raise
            (Container.ErrorOf
               ("Failed to resolve service '" +:+ "ping" +:+ "': "
                +:+ ("Failed to resolve service '" +:+ "pong" +:+ "': "
                     +:+ ("Circular dependency detected: "
                          +:+ String.concat " -> " ["ping"; "pong"; "ping"]%string)))),
          sample_container).
Proof.
  apply (mutual_dependency_is_reported "ping" "pong" sample_container
           {| Container.factory := Container.needs "pong" Container.Return;
              Container.singleton_ := false; Container.cached := None |}
           {| Container.factory := Container.needs "ping" Container.Return;
              Container.singleton_ := false; Container.cached := None |}
           Container.Return Container.Return);
    [discriminate|reflexivity..].
Defined.

Lemma bind_replaces_unbind_removes_witness :
  Container.get "config" (snd (Container.unbind "config" sample_container))
  = Some (Container.Raise
            (Container.ErrorOf
               ("No binding found for '" +:+ "config" +:+ "'. Registered services: ["
                +:+ String.concat ", "
                      (Container.getRegisteredServices
                         (snd (Container.unbind "config" sample_container)))
                +:+ "]")),
          snd (Container.unbind "config" sample_container)).
Proof.
  exact (proj2 (proj2 (proj2 (proj2 (proj2
           (bind_replaces_unbind_removes "config"
              (Container.Return (Some "loaded"%string)) sample_container)))))
           eq_refl).
Defined.

(** A singleton whose factory returns [undefined] is not cached: the
    factory runs again on the next [get]. *)
Example undefined_singleton_run :
  let c := Container.singleton (V := string) "nothing" (Container.Return None)
             Container.new in
  match Container.get "nothing" c with
  | Some (answer, c') =>
      answer = Container.Got None
      /\ Container.getServiceInfo "nothing" c'
         = Some {| Container.info_singleton := true; Container.info_cached := false;
                   Container.info_factory := Container.Return None |}
  | None => False
  end.
Proof. vm_compute. split; reflexivity. Qed.

(** * The credit manager: persistence and repeated charges *)

(** X24. With a provider that keeps what it saves, the persisted snapshot
    is the manager's state after every [chargeAndSave] that returns [true]
    and after every [saveState] of the manager that returns. *)
Theorem persisted_state_matches_memory
    {P : Type} `{CreditStateProvider P}
    (m m' : CreditManager P) (engineId : EngineId) :
  keeps_saved P ->
  (chargeAndSave engineId m = (Ok true, m') ->
   loadState (stateProvider m') = (Ok (state m'), stateProvider m'))
  /\ (saveState_ m = (Ok tt, m') ->
      loadState (stateProvider m') = (Ok (state m'), stateProvider m')).
Proof.
  intros Hkeeps. split.
  - unfold chargeAndSave, bind at 1.
    destruct (charge engineId m) as [[[|]|err] m1]; [|unfold bind, ret; simpl|];
      try (intros [= ]; fail).
    unfold bind, get, on_provider.
    destruct (saveState (state m1) (stateProvider m1)) as [[[]|err] p] eqn:Hsave;
      simpl; [|discriminate].
    intros [= <-]. simpl. exact (Hkeeps _ _ _ Hsave).
  - unfold saveState_, bind, get, on_provider.
    destruct (saveState (state m) (stateProvider m)) as [[[]|err] p] eqn:Hsave;
      [|discriminate].
    intros [= <-]. simpl. exact (Hkeeps _ _ _ Hsave).
Qed.

Lemma persisted_state_matches_memory_witness :
  let charged := snd (chargeAndSave "tavily" (sample_manager 6)) in
  let saved := snd (saveState_ (sample_manager 6)) in
  (chargeAndSave "tavily" (sample_manager 6) = (Ok true, charged)
   /\ loadState (stateProvider charged) = (Ok (state charged), stateProvider charged))
  /\ (saveState_ (sample_manager 6) = (Ok tt, saved)
      /\ loadState (stateProvider saved) = (Ok (state saved), stateProvider saved)).
Proof.
  split; (split; [reflexivity|]).
  - exact (proj1 (persisted_state_matches_memory (sample_manager 6)
                    (snd (chargeAndSave "tavily" (sample_manager 6))) "tavily"
                    MemoryProvider_keeps_saved)
             eq_refl).
  - exact (proj2 (persisted_state_matches_memory (sample_manager 6)
                    (snd (saveState_ (sample_manager 6))) "tavily"
                    MemoryProvider_keeps_saved)
             eq_refl).
Defined.

Lemma seq_shift_map {A} (f : nat -> A) (n : nat) :
  map f (seq 1 n) = map (fun i => f (S i)) (seq 0 n).
Proof. now rewrite <- seq_shift, map_map. Qed.

Lemma repeated_charges_from
    {P : Type} `{CreditStateProvider P}
    (engineId : EngineId) (config : EngineConfig) (n : nat) :
  0 <= creditCostPerSearch config ->
  forall (m : CreditManager P) (record : UsageRecord),
    Map_get (engines m) engineId = Some config ->
    state m !! engineId = Some record ->
    fst (mapM charge (repeat engineId n) m)
    = Ok (map (fun i => used record + Z.of_nat (S i) * creditCostPerSearch config
                        <=? monthlyQuota config)
            (seq 0 n)).
Proof.
  intros Hcost. induction n as [|n IH]; intros m record Hconfig Hrecord; [reflexivity|].
  cbn [repeat mapM seq map]. unfold bind at 1.
  unfold charge at 1, bind at 1, get. rewrite Hconfig, Hrecord.
  destruct (Z.gtb_spec (used record + creditCostPerSearch config) (monthlyQuota config))
    as [Hover|Hfits].
  - unfold ret at 1. unfold bind at 1.
    specialize (IH m record Hconfig Hrecord).
    destruct (mapM charge (repeat engineId n) m) as [[bs|err] m1]; simpl in IH;
      [|discriminate IH].
    injection IH as ->. simpl. f_equal. f_equal.
    + symmetry. apply Z.leb_gt. lia.
    + rewrite seq_shift_map. apply map_ext_in. intros i _.
      transitivity false; [apply Z.leb_gt; nia|symmetry; apply Z.leb_gt; nia].
  - unfold set_state, bind at 1, ret at 1. unfold bind at 1.
    match goal with
    | |- context [mapM charge _ ?m1] =>
        specialize (IH m1 {| used := used record + creditCostPerSearch config;
                             lastReset := lastReset record |} Hconfig
                      (lookup_insert_eq _ _ _));
        destruct (mapM charge (repeat engineId n) m1) as [[bs|err] m2]
    end; simpl in IH; [|discriminate IH].
    injection IH as ->. simpl. f_equal. f_equal.
    + symmetry. apply Z.leb_le. lia.
    + rewrite seq_shift_map. apply map_ext_in. intros i _. f_equal. lia.
Qed.

(** X25. For a configured engine with a record and a cost that is not
    negative, [n] calls of [charge] in a row never throw, and the call
    number [i + 1] returns [true] exactly when [i + 1] times the cost still
    fits in what the quota leaves. *)
Theorem repeated_charges
    {P : Type} `{CreditStateProvider P}
    (m : CreditManager P) (engineId : EngineId)
    (config : EngineConfig) (record : UsageRecord) (n : nat) :
  Map_get (engines m) engineId = Some config ->
  state m !! engineId = Some record ->
  0 <= creditCostPerSearch config ->
  fst (mapM charge (repeat engineId n) m)
  = Ok (map (fun i => used record + Z.of_nat (S i) * creditCostPerSearch config
                      <=? monthlyQuota config)
          (seq 0 n)).
Proof.
  intros Hconfig Hrecord Hcost.
  now apply repeated_charges_from.
Qed.

Lemma repeated_charges_witness :
  fst (mapM charge (repeat "tavily"%string 5) (sample_manager 0))
  = Ok (map (fun i => 0 + Z.of_nat (S i) * 3 <=? 10) (seq 0 5)).
Proof.
  apply (repeated_charges (sample_manager 0) "tavily" sample_config
           (sample_record 0 "2024-01-15T10:30:00.000Z") 5 eq_refl eq_refl).
  simpl. lia.
Defined.

Example repeated_charges_run :
  fst (mapM charge (repeat "tavily"%string 5) (sample_manager 0))
  = Ok [true; true; true; false; false].
Proof. vm_compute. reflexivity. Qed.

(** X26. An engine whose searches cost nothing is never used up: while its
    record is within the quota, [charge] returns [true] and leaves the
    manager exactly as it was. *)
Theorem free_engine_is_never_used_up
    {P : Type} `{CreditStateProvider P}
    (m : CreditManager P) (engineId : EngineId)
    (config : EngineConfig) (record : UsageRecord) :
  Map_get (engines m) engineId = Some config ->
  state m !! engineId = Some record ->
  creditCostPerSearch config = 0 ->
  used record <= monthlyQuota config ->
  charge engineId m = (Ok true, m)
  /\ hasSufficientCredits engineId m = (Ok true, m).
Proof.
  intros Hconfig Hrecord Hfree Hwithin.
  unfold charge, hasSufficientCredits, bind, get. rewrite Hconfig, Hrecord, Hfree.
  rewrite Z.add_0_r.
  rewrite (proj2 (Z.leb_le _ _) Hwithin).
  destruct (Z.gtb_spec (used record) (monthlyQuota config)) as [Hover|_]; [lia|].
  split; [|reflexivity]. unfold set_state, ret. simpl. f_equal.
  destruct m as [es st p]. simpl in *. f_equal.
  rewrite insert_id; [reflexivity|]. rewrite Hrecord. now destruct record.
Qed.

Lemma free_engine_is_never_used_up_witness :
  let m := {| engines := Map_new [("searxng"%string,
                                   {| id := "searxng"; monthlyQuota := 10000;
                                      creditCostPerSearch := 0 |})];
              state := {[ "searxng"%string := sample_record 42 "2024-01-15T10:30:00.000Z" ]};
              stateProvider := {| memory_state := ∅ |} |} in
  charge "searxng" m = (Ok true, m)
  /\ hasSufficientCredits "searxng" m = (Ok true, m).
Proof.
  intros m.
  apply (free_engine_is_never_used_up m "searxng"
           {| id := "searxng"; monthlyQuota := 10000; creditCostPerSearch := 0 |}
           (sample_record 42 "2024-01-15T10:30:00.000Z") eq_refl eq_refl eq_refl).
  simpl. lia.
Defined.

(** * The items of a Tavily response *)


Example tavily_items_run :
  Tavily.items (Score := Z) "tavily"
    [Some {| Tavily.title := None; Tavily.url := Some "https://a.example"%string;
             Tavily.content := Some "about a"%string; Tavily.snippet := None;
             Tavily.score := Some 9 |};
     None;
     Some {| Tavily.title := None; Tavily.url := Some "https://b.example"%string;
             Tavily.content := None; Tavily.snippet := None; Tavily.score := None |};
     Some {| Tavily.title := Some "C"%string; Tavily.url := None;
             Tavily.content := None; Tavily.snippet := None; Tavily.score := None |}]
  = [{| Tavily.item_title := "https://a.example"; Tavily.item_url := "https://a.example";
        Tavily.item_snippet := "about a"; Tavily.item_score := Some 9;
        Tavily.sourceEngine := "tavily" |};
     {| Tavily.item_title := "C"; Tavily.item_url := EmptyString;
        Tavily.item_snippet := EmptyString; Tavily.item_score := None;
        Tavily.sourceEngine := "tavily" |}].
Proof. reflexivity. Qed.

(** * The logger *)

Lemma append_associative (a b c : string) :
  ((a +:+ b) +:+ c = a +:+ (b +:+ c))%string.
Proof.
  induction a as [|ch a IH]; [reflexivity|].
  change (String ch ((a +:+ b) +:+ c) = String ch (a +:+ (b +:+ c))).
  now f_equal.
Qed.

Lemma child_of_prefixed (segments : list string) :
  Forall (fun s => s <> EmptyString) segments ->
  forall (logger : Logger.Logger) (p : string),
    Logger.prefix logger = Some p -> p <> EmptyString ->
    Logger.prefix (fold_left (fun l s => Logger.child s l) segments logger)
    = Some (String.concat ":" (p :: segments))
    /\ Logger.level (fold_left (fun l s => Logger.child s l) segments logger)
       = Logger.level logger
    /\ Logger.timestamp (fold_left (fun l s => Logger.child s l) segments logger)
       = Logger.timestamp logger.
Proof.
  induction 1 as [|s segments Hs Hall IH]; intros logger p Hp Hne; simpl.
  - now rewrite Hp.
  - destruct (IH (Logger.child s logger) (p +:+ ":" +:+ s)) as (Hprefix & Hlevel & Htime).
    + unfold Logger.child, Logger.new, Logger.truthy. simpl. rewrite Hp.
      now destruct (String.eqb_spec p EmptyString).
    + intros Habs. destruct p; [now apply Hne|discriminate Habs].
    + rewrite Hprefix, Hlevel, Htime. split; [|now split].
      f_equal. cbn [String.concat].
      destruct segments as [|s' segments]; [reflexivity|].
      now rewrite !append_associative.
Qed.

(** X28. Child loggers nest their prefixes: after a chain of [child] calls
    with names that are not empty, the prefix is the parent's prefix (when
    it has one that is not empty) and the names in order, joined by colons;
    the level and the timestamp setting are the parent's. *)
Theorem child_prefixes_nest
    (logger : Logger.Logger) (first : string) (segments : list string) :
  first <> EmptyString ->
  Forall (fun s => s <> EmptyString) segments ->
  let descendant :=
    fold_left (fun l s => Logger.child s l) (first :: segments) logger in
  Logger.prefix descendant
  = Some (String.concat ":"
            ((if Logger.truthy (Logger.prefix logger)
              then match Logger.prefix logger with Some p => [p] | None => [] end
              else [])
             ++ first :: segments))
  /\ Logger.level descendant = Logger.level logger
  /\ Logger.timestamp descendant = Logger.timestamp logger.
Proof.
  intros Hfirst Hall descendant. unfold descendant. simpl.
  destruct (Logger.truthy (Logger.prefix logger)) eqn:Htruthy.
  - destruct (Logger.prefix logger) as [p|] eqn:Hp; [|discriminate Htruthy].
    assert (Hne : p <> EmptyString).
    { unfold Logger.truthy in Htruthy.
      destruct (String.eqb_spec p EmptyString); [discriminate|assumption]. }
    assert (Hboth : Forall (fun s => s <> EmptyString) (first :: segments))
      by now constructor.
    destruct (child_of_prefixed (first :: segments) Hboth logger p Hp Hne)
      as (Hprefix & Hlevel & Htime).
    simpl in Hprefix, Hlevel, Htime. now rewrite Hprefix, Hlevel, Htime.
  - destruct (child_of_prefixed segments Hall (Logger.child first logger) first)
      as (Hprefix & Hlevel & Htime).
    + unfold Logger.child, Logger.new. simpl. now rewrite Htruthy.
    + exact Hfirst.
    + rewrite Hprefix, Hlevel, Htime. now repeat split.
Qed.

Lemma child_prefixes_nest_witness :
  let logger := Logger.new None None None None in
  let descendant :=
    fold_left (fun l s => Logger.child s l) ["Docker"; "Lifecycle"]%string logger in
  Logger.prefix descendant
  = Some (String.concat ":"
            ((if Logger.truthy (Logger.prefix logger)
              then match Logger.prefix logger with Some p => [p] | None => [] end
              else [])
             ++ ["Docker"; "Lifecycle"]%string))
  /\ Logger.level descendant = Logger.level logger
  /\ Logger.timestamp descendant = Logger.timestamp logger.
Proof.
  apply (child_prefixes_nest (Logger.new None None None None) "Docker"
           ["Lifecycle"%string]).
  - discriminate.
  - repeat constructor. discriminate.
Defined.

Example child_logger_run :
  Logger.log_warn "2024-01-20T08:00:00.000Z" "container is slow"
    (Logger.child "Lifecycle" (Logger.child "Docker" (Logger.new None None None None))) []
  = [(Logger.console_warn, "[Docker:Lifecycle] container is slow"%string)]
  /\ Logger.log_debug "2024-01-20T08:00:00.000Z" "polling"
       (Logger.child "Docker" (Logger.new None None None None)) []
     = [].
Proof. split; reflexivity. Qed.

Lemma registry_first_registration_wins_witness :
  let calls := [("tavily", "first"); ("brave", "Brave Search"); ("tavily", "second")]%string in
  let providers := ProviderRegistry.registered fst calls in
  ProviderRegistry.get "tavily" providers
  = find (fun p => String.eqb (fst p) "tavily") calls
  /\ (ProviderRegistry.has "tavily" providers = true <-> "tavily"%string ∈ map fst calls)
  /\ NoDup (map fst (ProviderRegistry.list_ providers))
  /\ forall p, p ∈ ProviderRegistry.list_ providers ->
       ProviderRegistry.get (fst p) providers = Some p.
Proof.
  exact (registry_first_registration_wins fst
           [("tavily", "first"); ("brave", "Brave Search"); ("tavily", "second")]%string
           "tavily").
Defined.

Example registry_first_registration_run :
  ProviderRegistry.list_
    (ProviderRegistry.registered fst
       [("tavily", "first"); ("brave", "Brave Search"); ("tavily", "second")]%string)
  = [("tavily", "first"); ("brave", "Brave Search")]%string.
Proof. reflexivity. Qed.

